(** * MSR2026: outcome labelling, feature assembly and interval estimation

    A shallow embedding of the analytic core of the repository:

    - [build_rq2_features.py]: the DuckDB views [rq2_base], [f_commits],
      [f_changes], [f_reviews], [f_forcepush], the table [rq2_features] and
      the pandas transforms applied to it;
    - [run_rq1.py]: [RQ1_LABELED_SQL] and [wilson_ci];
    - [run_rq2.py]: [tidy_or_table].

    Relations are bags, modelled as lists (row order is never observed by the
    statements below except through [length], [In] and [map]).  A nullable
    column is an [option]; SQL [NULL] is [None].  [wilson_ci] is modelled on
    IEEE binary64 numbers (the arithmetic Python floats and [np.sqrt] use);
    [log1p] and [exp], which binary64 primitives do not provide, are modelled
    on the real numbers. *)

From Stdlib Require Import ZArith Zpower List String Ascii Bool Lia.
From Stdlib Require Import Reals Lra.
From Stdlib Require Import Floats Uint63.
Import ListNotations.

Local Open Scope Z_scope.

(* ================================================================== *)
(** ** SQL building blocks *)

Module Sql.

(** [x = y] under SQL's three-valued logic, as seen by [ON] and [WHERE]:
    a comparison with [NULL] is [NULL], which does not select the row. *)
Definition sql_eq {A : Type} (eqb : A -> A -> bool) (x y : option A) : bool :=
  match x, y with
  | Some a, Some b => eqb a b
  | _, _ => false
  end.

Definition is_not_null {A : Type} (x : option A) : bool :=
  match x with Some _ => true | None => false end.

Definition is_null {A : Type} (x : option A) : bool :=
  negb (is_not_null x).

(** [COALESCE(x, d)] *)
Definition coalesce {A : Type} (x : option A) (d : A) : A :=
  match x with Some a => a | None => d end.

(** [l JOIN r ON on] *)
Definition inner_join {A B : Type} (l : list A) (r : list B)
           (on : A -> B -> bool) : list (A * B) :=
  flat_map (fun a => map (pair a) (filter (on a) r)) l.

(** The rows a left row contributes to [l LEFT JOIN r ON on]: one per match,
    or one padded with [NULL]s when nothing matches. *)
Definition left_rows {A B : Type} (a : A) (matches : list B)
  : list (A * option B) :=
  match matches with
  | [] => [(a, None)]
  | _ :: _ => map (fun b => (a, Some b)) matches
  end.

(** [l LEFT JOIN r ON on] *)
Definition left_join {A B : Type} (l : list A) (r : list B)
           (on : A -> B -> bool) : list (A * option B) :=
  flat_map (fun a => left_rows a (filter (on a) r)) l.

Section Grouping.
Context {K R V : Type}.
Variable K_eq_dec : forall x y : K, {x = y} + {x <> y}.
Variable key : R -> K.
Variable agg : list R -> V.

Definition same_key (k : K) (r : R) : bool :=
  if K_eq_dec (key r) k then true else false.

(** [SELECT key, agg(...) FROM rows GROUP BY key]: one output row per
    distinct key value ([NULL] is a group of its own). *)
Definition group_by (rows : list R) : list (K * V) :=
  map (fun k => (k, agg (filter (same_key k) rows)))
      (nodup K_eq_dec (map key rows)).
End Grouping.

(** [MIN] and [MAX] skip [NULL]s and are [NULL] on no input. *)
Definition opt_min (x : option Z) (acc : option Z) : option Z :=
  match x, acc with
  | Some a, Some b => Some (Z.min a b)
  | Some a, None => Some a
  | None, _ => acc
  end.

Definition sql_min (l : list (option Z)) : option Z :=
  fold_right opt_min None l.

Definition sql_max (l : list Z) : option Z :=
  match l with
  | [] => None
  | x :: t => Some (fold_right Z.max x t)
  end.

Definition sum (l : list Z) : Z := fold_right Z.add 0 l.

(** Values of a nullable column that are not [NULL]. *)
Fixpoint non_null {A : Type} (l : list (option A)) : list A :=
  match l with
  | [] => []
  | Some a :: t => a :: non_null t
  | None :: t => non_null t
  end.

(** *** [ILIKE] *)

Definition lower (c : ascii) : ascii :=
  let n := nat_of_ascii c in
  if ((65 <=? n) && (n <=? 90))%nat then ascii_of_nat (n + 32) else c.

(** [LIKE]: [%] matches any run of characters, [_] any one character. *)
Fixpoint like (pat : list ascii) : list ascii -> bool :=
  match pat with
  | [] => fun s => match s with [] => true | _ :: _ => false end
  | p :: pat' =>
      if Ascii.eqb p "%"%char then
        fix star (s : list ascii) : bool :=
          like pat' s || match s with [] => false | _ :: s' => star s' end
      else if Ascii.eqb p "_"%char then
        fun s => match s with [] => false | _ :: s' => like pat' s' end
      else
        fun s => match s with
                 | [] => false
                 | c :: s' => Ascii.eqb p c && like pat' s'
                 end
  end.

(** [s ILIKE pat] on a non-null [s] (letters compared without case). *)
Definition ilike (s pat : string) : bool :=
  like (map lower (list_ascii_of_string pat))
       (map lower (list_ascii_of_string s)).

(** [s ILIKE pat] used as a [CASE WHEN] condition: [NULL] is not true. *)
Definition ilike_null (s : option string) (pat : string) : bool :=
  match s with Some v => ilike v pat | None => false end.

End Sql.

Import Sql.

(* ================================================================== *)
(** ** Raw relations *)

(** A non-null cell of a text column that the queries cast to [TIMESTAMP],
    represented by what DuckDB's cast makes of it. *)
Inductive raw_ts : Type :=
| RawTs (t : Z)          (* a date-time; [t] is microseconds since the epoch *)
| RawBad (s : string).   (* text that is not a date-time *)

Inductive result (A : Type) : Type :=
| Ok (a : A)
| ConversionError (s : string).   (* a strict [CAST] met unparsable text *)
Arguments Ok {A} a.
Arguments ConversionError {A} s.

(** [TRY_CAST(x AS TIMESTAMP)] *)
Definition try_cast_timestamp (x : option raw_ts) : option Z :=
  match x with
  | Some (RawTs t) => Some t
  | Some (RawBad _) => None
  | None => None
  end.

(** [CAST(x AS TIMESTAMP)] *)
Definition cast_timestamp (x : option raw_ts) : result (option Z) :=
  match x with
  | Some (RawTs t) => Ok (Some t)
  | Some (RawBad s) => ConversionError s
  | None => Ok None
  end.

Record pull_request_row : Type := {
  id : option Z;
  agent : option string;
  repo_id : option Z;
  user_id : option Z;
  created_at : option raw_ts;
  closed_at : option raw_ts;
  merged_at : option raw_ts
}.

Record pr_task_type_row : Type := {
  tt_id : option Z;
  tt_agent : option string
}.

Record pr_commits_row : Type := {
  pc_pr_id : option Z;
  sha : option string
}.

Record pr_commit_details_row : Type := {
  cd_pr_id : option Z;
  filename : option string;
  additions : option Z;
  deletions : option Z
}.

Record pr_reviews_row : Type := {
  rv_pr_id : option Z;
  submitted_at : option raw_ts
}.

Record pr_timeline_row : Type := {
  tl_pr_id : option Z;
  event : option string;
  message : option string
}.

(** The views [bind_views] creates and the queries read. *)
Record database : Type := {
  pull_request : list pull_request_row;
  pr_task_type : list pr_task_type_row;
  pr_commits : list pr_commits_row;
  pr_commit_details : list pr_commit_details_row;
  pr_reviews : list pr_reviews_row;
  pr_timeline : list pr_timeline_row
}.

Inductive outcome : Type := merged | closed_unmerged | open.

Definition opt_Z_eq_dec (x y : option Z) : {x = y} + {x <> y}.
Proof. decide equality; apply Z.eq_dec. Defined.

Definition opt_string_eq_dec (x y : option string) : {x = y} + {x <> y}.
Proof. decide equality; apply string_dec. Defined.

Definition agentic_eq_dec (x y : option Z * option string)
  : {x = y} + {x <> y}.
Proof. decide equality; [apply opt_string_eq_dec | apply opt_Z_eq_dec]. Defined.

(* ================================================================== *)
(** ** The labelled base set of [build_rq2_features.py] *)

Module Labeler.

(** CTE [agentic] *)
Definition agentic (db : database) : list (option Z * option string) :=
  nodup agentic_eq_dec
        (map (fun t => (tt_id t, tt_agent t))
             (filter (fun t => is_not_null (tt_agent t)) (pr_task_type db))).

(** CTE [pr] *)
Record pr_row : Type := {
  p_pr_id : option Z;
  p_repo_id : option Z;
  p_author_user_id : option Z;
  p_created_ts : option Z;
  p_closed_ts : option Z;
  p_merged_ts : option Z
}.

Definition pr_of (p : pull_request_row) : pr_row :=
  {| p_pr_id := id p;
     p_repo_id := repo_id p;
     p_author_user_id := user_id p;
     p_created_ts := try_cast_timestamp (created_at p);
     p_closed_ts := try_cast_timestamp (closed_at p);
     p_merged_ts := try_cast_timestamp (merged_at p) |}.

Definition pr (db : database) : list pr_row := map pr_of (pull_request db).

(** The two [CASE] expressions of CTE [labeled]. *)
Definition outcome_of (closed_ts merged_ts : option Z) : outcome :=
  if is_not_null merged_ts then merged
  else if is_not_null closed_ts && is_null merged_ts then closed_unmerged
  else open.

Definition y_merged_of (merged_ts : option Z) : Z :=
  if is_not_null merged_ts then 1 else 0.

Record base_row : Type := {
  b_pr_id : option Z;
  b_agent : option string;
  b_repo_id : option Z;
  b_author_user_id : option Z;
  b_created_ts : option Z;
  b_closed_ts : option Z;
  b_merged_ts : option Z;
  b_outcome : outcome;
  b_y_merged : Z
}.

Definition label (ap : (option Z * option string) * pr_row) : base_row :=
  let '(a, p) := ap in
  {| b_pr_id := fst a;
     b_agent := snd a;
     b_repo_id := p_repo_id p;
     b_author_user_id := p_author_user_id p;
     b_created_ts := p_created_ts p;
     b_closed_ts := p_closed_ts p;
     b_merged_ts := p_merged_ts p;
     b_outcome := outcome_of (p_closed_ts p) (p_merged_ts p);
     b_y_merged := y_merged_of (p_merged_ts p) |}.

(** CTE [labeled] *)
Definition labeled (db : database) : list base_row :=
  map label
      (inner_join (agentic db) (pr db)
                  (fun a p => sql_eq Z.eqb (p_pr_id p) (fst a))).

Definition resolved (o : outcome) : bool :=
  match o with merged | closed_unmerged => true | open => false end.

(** View [rq2_base] *)
Definition rq2_base (db : database) : list base_row :=
  filter (fun b => resolved (b_outcome b)) (labeled db).

End Labeler.

(* ================================================================== *)
(** ** [RQ1_LABELED_SQL] of [run_rq1.py] *)

Module Rq1.

Record labeled_row : Type := {
  l_pr_id : option Z;
  l_agent : option string;
  l_repo_id : option Z;
  l_created_at : option Z;
  l_closed_at : option Z;
  l_merged_at : option Z;
  l_outcome : outcome;
  l_merged : Z;
  l_closed_unmerged : Z;
  l_open : Z
}.

(** One row of CTE [pr].  The three casts are strict.  Inside the [CASE]
    expressions [merged_at] and [closed_at] are read as the columns of
    [pull_request]; a strict cast that succeeds is null exactly when its
    argument is, so reading them as the cast columns labels the same. *)
Definition label (p : pull_request_row) : result labeled_row :=
  match cast_timestamp (created_at p) with
  | Ok created =>
      match cast_timestamp (closed_at p) with
      | Ok closed =>
          match cast_timestamp (merged_at p) with
          | Ok mergedv =>
              Ok {| l_pr_id := id p;
                    l_agent := agent p;
                    l_repo_id := repo_id p;
                    l_created_at := created;
                    l_closed_at := closed;
                    l_merged_at := mergedv;
                    l_outcome :=
                      if is_not_null (merged_at p) then merged
                      else if is_not_null (closed_at p)
                              && is_null (merged_at p)
                           then closed_unmerged
                      else open;
                    l_merged :=
                      if is_not_null (merged_at p) then 1 else 0;
                    l_closed_unmerged :=
                      if is_not_null (closed_at p) && is_null (merged_at p)
                      then 1 else 0;
                    l_open :=
                      if is_null (closed_at p) && is_null (merged_at p)
                      then 1 else 0 |}
          | ConversionError s => ConversionError s
          end
      | ConversionError s => ConversionError s
      end
  | ConversionError s => ConversionError s
  end.

(** The query fails as a whole as soon as one row fails. *)
Fixpoint all_ok {A B : Type} (f : A -> result B) (l : list A)
  : result (list B) :=
  match l with
  | [] => Ok []
  | a :: t =>
      match f a with
      | Ok b =>
          match all_ok f t with
          | Ok bs => Ok (b :: bs)
          | ConversionError s => ConversionError s
          end
      | ConversionError s => ConversionError s
      end
  end.

(** View [rq1_labeled] *)
Definition rq1_labeled (db : database) : result (list labeled_row) :=
  all_ok label (pull_request db).

End Rq1.

(* ================================================================== *)
(** ** Feature blocks of [build_rq2_features.py] *)

Module Extractors.

Import Labeler.

(** [SUM] over a group; [NULL] on no input. *)
Definition sql_sum (l : list Z) : option Z :=
  match l with [] => None | _ :: _ => Some (sum l) end.

Definition opt_add (x y : option Z) : option Z :=
  match x, y with Some a, Some b => Some (a + b) | _, _ => None end.

(** [COUNT(DISTINCT x)]: the number of distinct non-null values. *)
Definition count_distinct (l : list (option string)) : Z :=
  Z.of_nat (List.length (nodup string_dec (non_null l))).

(** View [f_commits]: [(pr_id, n_commits)] *)
Definition f_commits (db : database) : list (option Z * Z) :=
  group_by opt_Z_eq_dec pc_pr_id
           (fun g => count_distinct (map sha g))
           (pr_commits db).

Record changes : Type := {
  add_lines : option Z;
  del_lines : option Z;
  ch_delta_loc : option Z;
  ch_n_files : Z;
  ch_tests_added : option Z
}.

Definition looks_like_test (f : option string) : Z :=
  if ilike_null f "%test%" || ilike_null f "%spec%"
     || ilike_null f "%__tests__%"
  then 1 else 0.

Definition changes_of (g : list pr_commit_details_row) : changes :=
  let adds := sql_sum (map (fun r => coalesce (additions r) 0) g) in
  let dels := sql_sum (map (fun r => coalesce (deletions r) 0) g) in
  {| add_lines := adds;
     del_lines := dels;
     ch_delta_loc := opt_add adds dels;
     ch_n_files :=
       count_distinct
         (filter (fun f => is_not_null f) (map filename g));
     ch_tests_added :=
       sql_max (map (fun r => looks_like_test (filename r)) g) |}.

(** View [f_changes] *)
Definition f_changes (db : database) : list (option Z * changes) :=
  group_by opt_Z_eq_dec cd_pr_id changes_of (pr_commit_details db).

(** CTE [first_review]: [(pr_id, first_review_ts)] *)
Definition first_review (db : database) : list (option Z * option Z) :=
  group_by opt_Z_eq_dec rv_pr_id
           (fun g =>
              sql_min (map (fun r => try_cast_timestamp (submitted_at r)) g))
           (pr_reviews db).

Definition microseconds_per_hour : Z := 3600000000.

(** [DATEDIFF('hour', a, b)]: the hour boundaries crossed from [a] to [b]. *)
Definition datediff_hour (a b : Z) : Z :=
  b / microseconds_per_hour - a / microseconds_per_hour.

Record review_row : Type := {
  r_pr_id : option Z;
  r_has_review : Z;
  r_hours_to_first_review : option Z
}.

Definition first_review_ts (fr : option (option Z * option Z)) : option Z :=
  match fr with Some (_, ts) => ts | None => None end.

Definition review_of (bf : base_row * option (option Z * option Z))
  : review_row :=
  let '(b, fr) := bf in
  {| r_pr_id := b_pr_id b;
     r_has_review := if is_not_null (first_review_ts fr) then 1 else 0;
     r_hours_to_first_review :=
       match first_review_ts fr, b_created_ts b with
       | Some first, Some created => Some (datediff_hour created first)
       | _, _ => None
       end |}.

(** View [f_reviews] *)
Definition f_reviews (db : database) : list review_row :=
  map review_of
      (left_join (rq2_base db) (first_review db)
                 (fun b fr => sql_eq Z.eqb (fst fr) (b_pr_id b))).

Definition mentions_force (e : pr_timeline_row) : Z :=
  if ilike_null (event e) "%force%"
     || ilike (coalesce (message e) EmptyString) "%force%"
  then 1 else 0.

(** View [f_forcepush]: [(pr_id, force_push)] *)
Definition f_forcepush (db : database) : list (option Z * option Z) :=
  group_by opt_Z_eq_dec tl_pr_id
           (fun g => sql_max (map mentions_force g))
           (pr_timeline db).

End Extractors.

(* ================================================================== *)
(** ** The feature table *)

Module Assembler.

Import Labeler Extractors.

Record feature_row : Type := {
  pr_id : option Z;
  f_repo_id : option Z;
  f_agent : option string;
  y_merged : Z;
  n_commits : Z;
  commit_bucket : Z;
  delta_loc : Z;
  n_files : Z;
  tests_added : Z;
  force_push : Z;
  has_review : Z;
  hours_to_first_review : option Z
}.

(** The [CASE] expression behind column [commit_bucket]; its argument is
    [c.n_commits], [NULL] when the pull request has no row in [f_commits]. *)
Definition commit_bucket_of (c_n_commits : option Z) : Z :=
  if coalesce c_n_commits 0 <=? 1 then 1
  else if sql_eq Z.eqb c_n_commits (Some 2) then 2
  else if sql_eq Z.eqb c_n_commits (Some 3) then 3
  else if sql_eq Z.eqb c_n_commits (Some 4) then 4
  else 5.

(** A column of the right side of a left join: [NULL] on a padded row. *)
Definition col {A B : Type} (f : A -> option B) (x : option A) : option B :=
  match x with Some a => f a | None => None end.

Definition joined_row : Type :=
  base_row * option (option Z * Z) * option (option Z * changes)
  * option (option Z * option Z) * option review_row.

Definition select (j : joined_row) : feature_row :=
  let '(b, c, ch, fp, rv) := j in
  let c_n_commits := col (fun x => Some (snd x)) c in
  {| pr_id := b_pr_id b;
     f_repo_id := b_repo_id b;
     f_agent := b_agent b;
     y_merged := b_y_merged b;
     n_commits := coalesce c_n_commits 0;
     commit_bucket := commit_bucket_of c_n_commits;
     delta_loc := coalesce (col (fun x => ch_delta_loc (snd x)) ch) 0;
     n_files := coalesce (col (fun x => Some (ch_n_files (snd x))) ch) 0;
     tests_added := coalesce (col (fun x => ch_tests_added (snd x)) ch) 0;
     force_push := coalesce (col snd fp) 0;
     has_review := coalesce (col (fun x => Some (r_has_review x)) rv) 0;
     hours_to_first_review := col r_hours_to_first_review rv |}.

(** The [FROM] clause of [rq2_features]: every [ON] condition compares the
    right side's [pr_id] with [b.pr_id].  First the three joins against the
    grouped blocks, then the join against [f_reviews]. *)
Definition joined3 (db : database)
  : list (base_row * option (option Z * Z) * option (option Z * changes)
          * option (option Z * option Z)) :=
  left_join
    (left_join
       (left_join (rq2_base db) (f_commits db)
                  (fun b c => sql_eq Z.eqb (fst c) (b_pr_id b)))
       (f_changes db)
       (fun bc ch => sql_eq Z.eqb (fst ch) (b_pr_id (fst bc))))
    (f_forcepush db)
    (fun bcc fp => sql_eq Z.eqb (fst fp) (b_pr_id (fst (fst bcc)))).

Definition joined (db : database) : list joined_row :=
  left_join
    (joined3 db) (f_reviews db)
    (fun j rv => sql_eq Z.eqb (r_pr_id rv) (b_pr_id (fst (fst (fst j))))).

(** The sides of a joined row that come from [rq2_base] and [f_reviews]. *)
Definition base_of (j : joined_row) : base_row := fst (fst (fst (fst j))).

Definition review_of_row (j : joined_row) : option review_row := snd j.

(** The number of times the identifier of [b] occurs in [rq2_base]. *)
Definition occurrences (db : database) (b : base_row) : nat :=
  count_occ opt_Z_eq_dec (map b_pr_id (rq2_base db)) (b_pr_id b).

(** Table [rq2_features] *)
Definition rq2_features (db : database) : list feature_row :=
  map select (joined db).

End Assembler.

(* ================================================================== *)
(** ** The pandas transforms of [build_rq2_features.py] *)

Module Transform.

Import Assembler.
Local Open Scope R_scope.

Definition log1p (x : R) : R := ln (1 + x).

(** [Series.clip(lower=0)] on one value *)
Definition clip_lower0 (x : R) : R := Rmax x 0.

(** One cell of [np.where(notna, np.log1p(clip(lower=0)), 0.0)]: a [NULL]
    of the table is the missing value [notna] tests for. *)
Definition log1p_hours_of (hours : option Z) : R :=
  match hours with
  | Some h => log1p (clip_lower0 (IZR h))
  | None => 0
  end.

Record model_row : Type := {
  features : feature_row;
  log1p_commits : R;
  log1p_delta_loc : R;
  log1p_files : R;
  log1p_hours_to_first_review : R
}.

Definition transform (f : feature_row) : model_row :=
  {| features := f;
     log1p_commits := log1p (IZR (n_commits f));
     log1p_delta_loc := log1p (IZR (delta_loc f));
     log1p_files := log1p (IZR (n_files f));
     log1p_hours_to_first_review :=
       log1p_hours_of (hours_to_first_review f) |}.

(** The data frame written to [rq2_features.csv]. *)
Definition df (db : database) : list model_row :=
  map transform (rq2_features db).

End Transform.

(* ================================================================== *)
(** ** [wilson_ci] of [run_rq1.py] *)

Module Wilson.

(** A Python [int] used where a float is expected.  For [|z| < 2^63] this
    is Python's conversion, rounded to nearest-even, and it is exact up to
    [2^53].  Beyond [2^63] it wraps, where Python goes on rounding and, past
    the range of floats, raises [OverflowError]: the statements on
    [wilson_ci] are made for counts up to [2^53]. *)
Definition of_int (z : Z) : float :=
  if z <? 0 then PrimFloat.opp (PrimFloat.of_uint63 (Uint63.of_Z (- z)))
  else PrimFloat.of_uint63 (Uint63.of_Z z).

(** [x / d] with an [int] divisor [d]: Python raises [ZeroDivisionError]
    ([None]) when [d] is zero. *)
Definition div_int (x : float) (d : Z) : option float :=
  if d =? 0 then None else Some (PrimFloat.div x (of_int d)).

(** [x / y] on two Python floats; it raises on a zero divisor as well. *)
Definition is_zero (y : float) : bool := PrimFloat.eqb y 0%float.

Definition div_float (x y : float) : option float :=
  if is_zero y then None else Some (PrimFloat.div x y).

Definition bind {A B : Type} (x : option A) (f : A -> option B) : option B :=
  match x with Some a => f a | None => None end.

Notation "x <- e ;; k" := (bind e (fun x => k))
  (at level 61, e at next level, right associativity).

(** The default [z] of [wilson_ci]. *)
Definition z_default : float := Eval cbv in (196 / 100)%float.

(** The expressions bound to [p], [denom], [center] and [half], on IEEE
    binary64 numbers and without the checks for a zero divisor.  [k / n] on
    two [int]s is the correctly rounded quotient; for operands up to [2^53]
    that is the float division of the converted operands, as written
    here. *)
Definition p_of (k n : Z) : float := (of_int k / of_int n)%float.

Definition denom_of (n : Z) (z : float) : float :=
  (1 + z * z / of_int n)%float.

Definition center_of (k n : Z) (z : float) : float :=
  ((p_of k n + z * z / of_int (2 * n)) / denom_of n z)%float.

Definition half_of (k n : Z) (z : float) : float :=
  let p := p_of k n in
  ((z * PrimFloat.sqrt ((p * (1 - p) + z * z / of_int (4 * n)) / of_int n))
   / denom_of n z)%float.

(** [wilson_ci(k, n, z)].  [np.sqrt] turns its argument into a NumPy
    scalar, so the last division, by [denom], is NumPy's and does not
    raise. *)
Definition wilson_ci (k n : Z) (z : float) : option (float * float * float) :=
  if n =? 0 then Some (nan, nan, nan)
  else
    p <- div_int (of_int k) n ;;
    zzn <- div_int (z * z)%float n ;;
    let denom := (1 + zzn)%float in
    zz2n <- div_int (z * z)%float (2 * n) ;;
    center <- div_float (p + zz2n)%float denom ;;
    zz4n <- div_int (z * z)%float (4 * n) ;;
    radicand <- div_int (p * (1 - p) + zz4n)%float n ;;
    let half := (z * PrimFloat.sqrt radicand / denom)%float in
    Some (p, (center - half)%float, (center + half)%float).

(** The body of [wilson_ci] without its guard for [n = 0]. *)
Definition wilson_ci_unguarded (k n : Z) (z : float)
  : option (float * float * float) :=
  p <- div_int (of_int k) n ;;
  zzn <- div_int (z * z)%float n ;;
  let denom := (1 + zzn)%float in
  zz2n <- div_int (z * z)%float (2 * n) ;;
  center <- div_float (p + zz2n)%float denom ;;
  zz4n <- div_int (z * z)%float (4 * n) ;;
  radicand <- div_int (p * (1 - p) + zz4n)%float n ;;
  let half := (z * PrimFloat.sqrt radicand / denom)%float in
  Some (p, (center - half)%float, (center + half)%float).






End Wilson.

(* ================================================================== *)
(** ** [fit_logit_cluster] and [tidy_or_table] of [run_rq2.py] *)

Module Inference.

Local Open Scope R_scope.

(** What [tidy_or_table] reads of a statsmodels result: [params], [bse] and
    [pvalues], three Series over one index (the terms of the design
    matrix). *)
Record fit_result : Type := {
  index : list string;
  params : list R;
  bse : list R;
  pvalues : list R
}.

Inductive cov_type : Type :=
| nonrobust
| cluster (groups : list string).

Section Fit.
(** The data frame read from the feature table, its column lookup, and
    statsmodels' [logit(formula, data).fit(cov_type, cov_kwds)]. *)
Variable data_frame : Type.
Variable column : data_frame -> string -> list string.
Variable logit_fit : string -> data_frame -> cov_type -> fit_result.

Definition fit_logit_cluster (d : data_frame) (formula cluster_col : string)
  : fit_result :=
  logit_fit formula d (cluster (column d cluster_col)).
End Fit.

(** Element-wise arithmetic of two Series over the same index. *)
Fixpoint map2 {A B C : Type} (f : A -> B -> C) (l : list A) (m : list B)
  : list C :=
  match l, m with
  | a :: l', b :: m' => f a b :: map2 f l' m'
  | _, _ => []
  end.

(** The columns of the table [tidy_or_table] returns. *)
Record or_table : Type := {
  term : list string;
  coef : list R;
  OR : list R;
  CI_low : list R;
  CI_high : list R;
  p : list R
}.

(** [np.exp] and the Series arithmetic are taken on real numbers: the
    columns are the values the binary64 operations round, and [np.exp]
    rounds to 0 below about -745 and to infinity above about 709. *)
Definition tidy_or_table (res : fit_result) : or_table :=
  let se := bse res in
  {| term := index res;
     coef := params res;
     OR := map exp (params res);
     CI_low := map exp (map2 Rminus (params res) (map (Rmult 1.96%R) se));
     CI_high := map exp (map2 Rplus (params res) (map (Rmult 1.96%R) se));
     p := pvalues res |}.

End Inference.

(* ================================================================== *)
(** ** Specification vocabulary and sample data *)

(** The precedence rule of the outcome label, for the closed and merged
    timestamps of a record, its label [o] and its merged indicator [y]. *)
Definition follows_outcome_rule (closed_ts merged_ts : option Z)
           (o : outcome) (y : Z) : Prop :=
  (merged_ts <> None -> o = merged) /\
  (merged_ts = None -> closed_ts <> None -> o = closed_unmerged) /\
  (merged_ts = None -> closed_ts = None -> o = open) /\
  (y = 1 <-> merged_ts <> None) /\
  (y = 0 \/ y = 1).

(** What the rounding lemmas below say of a binary64 result: it is finite,
    not zero, or infinite, of sign [s]. *)
Definition finite_or_inf (s : bool) (f : spec_float) : Prop :=
  match f with
  | S754_finite s' _ _ => s' = s
  | S754_infinity s' => s' = s
  | _ => False
  end.

(** The sign of a rounded result is the sign given, unless it is a NaN. *)
Definition has_sign (s : bool) (f : spec_float) : Prop :=
  match f with
  | S754_nan => True
  | S754_zero s' | S754_infinity s' | S754_finite s' _ _ => s' = s
  end.

(** Sample relations: the end-to-end scenario (a merged pull request with
    two commits and no review; a closed one with six commits, a review and a
    force push; a human-authored one; an open one), an identifier attributed
    to two agents, and a pull request whose creation time is not a
    date-time. *)
Module Scenario.

Definition pull (i : Z) (a : option string)
           (created closed mergedv : option raw_ts) : pull_request_row :=
  {| id := Some i; agent := a; repo_id := Some 7; user_id := Some 1;
     created_at := created; closed_at := closed; merged_at := mergedv |}.

Definition task (i : Z) (a : option string) : pr_task_type_row :=
  {| tt_id := Some i; tt_agent := a |}.

Definition commit (i : Z) (s : string) : pr_commits_row :=
  {| pc_pr_id := Some i; sha := Some s |}.

Definition scenario_db : database :=
  {| pull_request :=
       [pull 1 (Some "A"%string) (Some (RawTs 0)) None (Some (RawTs 100));
        pull 2 (Some "B"%string) (Some (RawTs 0)) (Some (RawTs 50)) None;
        pull 3 None (Some (RawTs 0)) None (Some (RawTs 5));
        pull 4 (Some "A"%string) (Some (RawTs 0)) None None];
     pr_task_type :=
       [task 1 (Some "A"%string); task 2 (Some "B"%string); task 3 None;
        task 4 (Some "A"%string)];
     pr_commits :=
       [commit 1 "a"; commit 1 "b"; commit 1 "b";
        commit 2 "a"; commit 2 "b"; commit 2 "c"; commit 2 "d";
        commit 2 "e"; commit 2 "f"];
     pr_commit_details :=
       [{| cd_pr_id := Some 2; filename := Some "src/My_Tests.py"%string;
           additions := Some 3; deletions := None |}];
     pr_reviews :=
       [{| rv_pr_id := Some 2; submitted_at := Some (RawTs 7200000001) |}];
     pr_timeline :=
       [{| tl_pr_id := Some 2; event := Some "pushed"%string;
           message := Some "force pushed"%string |}] |}.

(** The rows of the feature table for the first two pull requests. *)
Definition unreviewed_row : Assembler.feature_row :=
  {| Assembler.pr_id := Some 1; Assembler.f_repo_id := Some 7;
     Assembler.f_agent := Some "A"%string; Assembler.y_merged := 1;
     Assembler.n_commits := 2; Assembler.commit_bucket := 2;
     Assembler.delta_loc := 0; Assembler.n_files := 0;
     Assembler.tests_added := 0; Assembler.force_push := 0;
     Assembler.has_review := 0; Assembler.hours_to_first_review := None |}.

Definition reviewed_row : Assembler.feature_row :=
  {| Assembler.pr_id := Some 2; Assembler.f_repo_id := Some 7;
     Assembler.f_agent := Some "B"%string; Assembler.y_merged := 0;
     Assembler.n_commits := 6; Assembler.commit_bucket := 5;
     Assembler.delta_loc := 3; Assembler.n_files := 1;
     Assembler.tests_added := 1; Assembler.force_push := 1;
     Assembler.has_review := 1;
     Assembler.hours_to_first_review := Some 2 |}.

(** One pull request, attributed to two agents. *)
Definition duplicate_id_db : database :=
  {| pull_request :=
       [pull 1 (Some "A"%string) (Some (RawTs 0)) None (Some (RawTs 100))];
     pr_task_type := [task 1 (Some "A"%string); task 1 (Some "B"%string)];
     pr_commits := []; pr_commit_details := [];
     pr_reviews := []; pr_timeline := [] |}.

(** A merged, reviewed pull request whose [created_at] is not a date. *)
Definition unparsable_db : database :=
  {| pull_request :=
       [pull 1 (Some "A"%string) (Some (RawBad "not-a-date"))
             None (Some (RawTs 100))];
     pr_task_type := [task 1 (Some "A"%string)];
     pr_commits := []; pr_commit_details := [];
     pr_reviews :=
       [{| rv_pr_id := Some 1; submitted_at := Some (RawTs 50) |}];
     pr_timeline := [] |}.

Definition sentinel_row : Assembler.feature_row :=
  {| Assembler.pr_id := Some 1; Assembler.f_repo_id := Some 7;
     Assembler.f_agent := Some "A"%string; Assembler.y_merged := 1;
     Assembler.n_commits := 0; Assembler.commit_bucket := 1;
     Assembler.delta_loc := 0; Assembler.n_files := 0;
     Assembler.tests_added := 0; Assembler.force_push := 0;
     Assembler.has_review := 1; Assembler.hours_to_first_review := None |}.

(** A fit with two terms. *)
Definition sample_fit : Inference.fit_result :=
  {| Inference.index := ["Intercept"%string; "has_review"%string];
     Inference.params := [0%R; 1%R];
     Inference.bse := [1%R; 2%R];
     Inference.pvalues := [1%R; 0%R] |}.

End Scenario.

(* ================================================================== *)
(** ** Binding the parquet files *)

Module Views.

(** What the scripts see of [data_dir]: whether [<table>.parquet] exists. *)
Definition data_dir : Type := string -> bool.

(** The outcome of binding: the views created, or the table whose file is
    missing ([FileNotFoundError]). *)
Inductive binding : Type :=
| Bound (views : list string)
| Missing (table : string).

(** The tables [bind_views] of [build_rq2_features.py] requires. *)
Definition required_rq2 : list string :=
  ["pull_request"; "pr_task_type"; "pr_commits"; "pr_commit_details";
   "pr_reviews"; "pr_timeline"; "repository"; "user"]%string.

(** The loop of [bind_views]: [bind] creates the view or raises. *)
Fixpoint bind_each (d : data_dir) (tables bound : list string) : binding :=
  match tables with
  | [] => Bound bound
  | t :: rest =>
      if d t then bind_each d rest (bound ++ [t]) else Missing t
  end.

Definition bind_views (d : data_dir) : binding := bind_each d required_rq2 [].

(** [create_views_from_parquet] of [run_rq1.py]: the required tables are
    checked first, then every candidate whose file exists is bound; the
    result lists the bound tables (the keys of [bound], in insertion
    order). *)
Definition required_rq1 : list string := ["pull_request"%string].

Definition candidates : list string :=
  ["pull_request"; "repository"; "user"; "pr_task_type";
   "pr_commits"; "pr_commit_details"; "pr_reviews"; "pr_timeline";
   "first_revert"; "comment_revert"; "tl_revert"]%string.

Definition create_views_from_parquet (d : data_dir) : binding :=
  match find (fun t => negb (d t)) required_rq1 with
  | Some t => Missing t
  | None => Bound (filter d candidates)
  end.

End Views.

(* ================================================================== *)
(** ** The aggregate tables of [run_rq1.py] *)

Module Rq1Summary.

Import Rq1.

(** [AVG(x)::DOUBLE] over integers: the sum over the count, in binary64;
    [NULL] on no input. *)
Definition sql_avg (l : list Z) : option float :=
  match l with
  | [] => None
  | _ :: _ =>
      Some (PrimFloat.div (Wilson.of_int (sum l))
                          (Wilson.of_int (Z.of_nat (List.length l))))
  end.

(** The columns [RQ1_OVERALL_SQL] and [RQ1_BY_AGENT_SQL] compute over a set
    of labelled rows. *)
Record summary : Type := {
  n_total : Z;
  n_merged : option Z;
  n_closed_unmerged : option Z;
  n_open : option Z;
  share_merged : option float;
  share_closed_unmerged : option float;
  share_open : option float
}.

Definition summarize (rows : list labeled_row) : summary :=
  {| n_total := Z.of_nat (List.length rows);
     n_merged := Extractors.sql_sum (map l_merged rows);
     n_closed_unmerged := Extractors.sql_sum (map l_closed_unmerged rows);
     n_open := Extractors.sql_sum (map l_open rows);
     share_merged := sql_avg (map l_merged rows);
     share_closed_unmerged := sql_avg (map l_closed_unmerged rows);
     share_open := sql_avg (map l_open rows) |}.

(** [RQ1_OVERALL_SQL]: one row, whatever [rq1_labeled] holds. *)
Definition overall (db : database) : result (list summary) :=
  match rq1_labeled db with
  | Ok rows => Ok [summarize rows]
  | ConversionError s => ConversionError s
  end.

(** [ORDER BY n_total DESC], by insertion (SQL leaves the order of ties
    open; here ties keep their order). *)
Fixpoint insert_desc {A : Type} (key : A -> Z) (x : A) (l : list A) : list A :=
  match l with
  | [] => [x]
  | y :: t => if key y <? key x then x :: y :: t else y :: insert_desc key x t
  end.

Definition order_by_desc {A : Type} (key : A -> Z) (l : list A) : list A :=
  fold_right (insert_desc key) [] l.

(** [RQ1_BY_AGENT_SQL]: [(agent, summary)], one row per agent. *)
Definition by_agent (db : database)
  : result (list (option string * summary)) :=
  match rq1_labeled db with
  | Ok rows =>
      Ok (order_by_desc (fun g => n_total (snd g))
                        (group_by opt_string_eq_dec l_agent summarize rows))
  | ConversionError s => ConversionError s
  end.

(** [add_wilson_ci]: for each row, [int(r[k_col])], [int(r[n_col])] (which
    raise on a missing value) and [wilson_ci(k, n)] with the default [z];
    the bounds become two new columns.  [None] is a raised exception. *)
Fixpoint add_wilson_ci {A : Type} (k_col n_col : A -> option Z) (df : list A)
  : option (list (A * float * float)) :=
  match df with
  | [] => Some []
  | r :: rest =>
      match k_col r with
      | None => None
      | Some k =>
          match n_col r with
          | None => None
          | Some n =>
              match Wilson.wilson_ci k n Wilson.z_default with
              | None => None
              | Some (_, lo, hi) =>
                  match add_wilson_ci k_col n_col rest with
                  | None => None
                  | Some out => Some ((r, lo, hi) :: out)
                  end
              end
          end
      end
  end.

(** The two calls of [main]: on the overall table and on the per-agent
    table, with [k_col = "n_merged"] and [n_col = "n_total"]. *)
Definition overall_with_ci (db : database)
  : result (option (list (summary * float * float))) :=
  match overall db with
  | Ok t => Ok (add_wilson_ci n_merged (fun s => Some (n_total s)) t)
  | ConversionError s => ConversionError s
  end.

Definition by_agent_with_ci (db : database)
  : result (option (list (option string * summary * float * float))) :=
  match by_agent db with
  | Ok t =>
      Ok (add_wilson_ci (fun g => n_merged (snd g))
                        (fun g => Some (n_total (snd g))) t)
  | ConversionError s => ConversionError s
  end.

(** The three indicators of a row: flags, one of which is set. *)
Definition partitioned (r : labeled_row) : Prop :=
  (l_merged r = 0 \/ l_merged r = 1) /\
  (l_closed_unmerged r = 0 \/ l_closed_unmerged r = 1) /\
  (l_open r = 0 \/ l_open r = 1) /\
  l_merged r + l_closed_unmerged r + l_open r = 1.

(** The rows of a query result; none when the query failed. *)
Definition rows_of {A : Type} (x : result (list A)) : list A :=
  match x with Ok l => l | ConversionError _ => [] end.

(** The row of [rq1_labeled] for the closed pull request of the scenario. *)
Definition closed_row : labeled_row :=
  {| l_pr_id := Some 2; l_agent := Some "B"%string; l_repo_id := Some 7;
     l_created_at := Some 0; l_closed_at := Some 50; l_merged_at := None;
     l_outcome := closed_unmerged;
     l_merged := 0; l_closed_unmerged := 1; l_open := 0 |}.

End Rq1Summary.

(* ================================================================== *)
(** ** Vocabulary of the statements on the feature blocks *)

(** [l] contains the run of characters [w]. *)
Definition contains (w l : list ascii) : Prop :=
  exists pre post, l = pre ++ w ++ post.

(** A run of characters without the wildcards of [LIKE]. *)
Definition wildcard_free (w : list ascii) : bool :=
  forallb (fun c => negb (Ascii.eqb c "%") && negb (Ascii.eqb c "_")) w.

(** The characters of a string, letters in lower case. *)
Definition lowered (s : string) : list ascii :=
  map lower (list_ascii_of_string s).

(** The rows of [rows] whose [key] is the identifier of [a], under SQL's
    [=]. *)
Definition matching {A R : Type} (idof : A -> option Z) (key : R -> option Z)
           (rows : list R) (a : A) : list R :=
  filter (fun r => sql_eq Z.eqb (key r) (idof a)) rows.

(** The raw rows of a pull request, by identifier under SQL's [=]. *)
Definition commits_of (db : database) (i : option Z) : list pr_commits_row :=
  filter (fun c => sql_eq Z.eqb (pc_pr_id c) i) (pr_commits db).

Definition details_of (db : database) (i : option Z)
  : list pr_commit_details_row :=
  filter (fun c => sql_eq Z.eqb (cd_pr_id c) i) (pr_commit_details db).

Definition timeline_of (db : database) (i : option Z) : list pr_timeline_row :=
  filter (fun c => sql_eq Z.eqb (tl_pr_id c) i) (pr_timeline db).

Definition reviews_of (db : database) (i : option Z) : list pr_reviews_row :=
  filter (fun c => sql_eq Z.eqb (rv_pr_id c) i) (pr_reviews db).

(** The parsable submission times of the reviews of a pull request. *)
Definition review_times (db : database) (i : option Z) : list Z :=
  non_null (map (fun r => try_cast_timestamp (submitted_at r))
                (reviews_of db i)).

(** The same relations, with another [pr_commits]. *)
Definition with_commits (db : database) (l : list pr_commits_row) : database :=
  {| pull_request := pull_request db;
     pr_task_type := pr_task_type db;
     pr_commits := l;
     pr_commit_details := pr_commit_details db;
     pr_reviews := pr_reviews db;
     pr_timeline := pr_timeline db |}.

(** A descending list of integers. *)
Fixpoint descending (l : list Z) : Prop :=
  match l with
  | [] => True
  | x :: t => (forall y, In y t -> y <= x) /\ descending t
  end.

(* ================================================================== *)
(** ** [RQ1_TIME_TO_DECISION_SQL] of [run_rq1.py] *)

Module Decision.

Import Rq1 Rq1Summary.

(** CTE [resolved].  The two casts are applied to columns of [rq1_labeled]
    that are timestamps already. *)
Record resolved_row : Type := {
  d_pr_id : option Z;
  d_agent : option string;
  d_created_ts : option Z;
  d_decided_ts : option Z;
  d_merged : Z
}.

(** [COALESCE(x, y)] of two nullable columns *)
Definition coalesce2 {A : Type} (x y : option A) : option A :=
  match x with Some a => Some a | None => y end.

Definition resolved_of (r : labeled_row) : resolved_row :=
  {| d_pr_id := l_pr_id r;
     d_agent := l_agent r;
     d_created_ts := l_created_at r;
     d_decided_ts := coalesce2 (l_merged_at r) (l_closed_at r);
     d_merged := l_merged r |}.

Definition resolved (rows : list labeled_row) : list resolved_row :=
  map resolved_of (filter (fun r => Labeler.resolved (l_outcome r)) rows).

(** [WHERE created_ts IS NOT NULL AND decided_ts IS NOT NULL] *)
Definition timed (d : resolved_row) : bool :=
  is_not_null (d_created_ts d) && is_not_null (d_decided_ts d).

(** [DATEDIFF('hour', created_ts, decided_ts)], on a row that passed the
    [WHERE] clause. *)
Definition hours_to_decision (d : resolved_row) : Z :=
  match d_created_ts d, d_decided_ts d with
  | Some c, Some t => Extractors.datediff_hour c t
  | _, _ => 0
  end.

Record decision_summary : Type := {
  n_resolved : Z;
  avg_hours_to_decision : option float;
  med_hours_to_decision : option float;
  share_merged_among_resolved : option float
}.

Section Percentile.
(** DuckDB's [PERCENTILE_CONT(0.5) WITHIN GROUP (ORDER BY x)::DOUBLE]. *)
Variable percentile_cont_half : list Z -> option float.

Definition summarize_decisions (g : list resolved_row) : decision_summary :=
  {| n_resolved := Z.of_nat (List.length g);
     avg_hours_to_decision := sql_avg (map hours_to_decision g);
     med_hours_to_decision := percentile_cont_half (map hours_to_decision g);
     share_merged_among_resolved := sql_avg (map d_merged g) |}.

Definition time_to_decision (db : database)
  : result (list (option string * decision_summary)) :=
  match rq1_labeled db with
  | Ok rows =>
      Ok (order_by_desc
            (fun g => n_resolved (snd g))
            (group_by opt_string_eq_dec d_agent summarize_decisions
                      (filter timed (resolved rows))))
  | ConversionError s => ConversionError s
  end.
End Percentile.

(** A pull request of agent [a] that is closed or merged and has a creation
    time, all three read with the permissive cast. *)
Definition decided_with_creation (a : option string) (p : pull_request_row)
  : bool :=
  (if opt_string_eq_dec (agent p) a then true else false)
  && is_not_null (try_cast_timestamp (created_at p))
  && (is_not_null (try_cast_timestamp (merged_at p))
      || is_not_null (try_cast_timestamp (closed_at p))).

End Decision.

(* ================================================================== *)
(** ** [compute_reverts_exploratory] of [run_rq1.py] *)

Module Reverts.

Import Rq1 Rq1Summary.

(** The three optional views, each by its [pr_id] column; [None] when
    [view_exists] is false. *)
Record revert_views : Type := {
  first_revert : option (list (option Z));
  comment_revert : option (list (option Z));
  tl_revert : option (list (option Z))
}.

Definition present (v : revert_views) : list (list (option Z)) :=
  non_null [first_revert v; comment_revert v; tl_revert v].

(** [parts]: one [SELECT DISTINCT pr_id FROM t] per view that exists. *)
Definition parts (v : revert_views) : list (list (option Z)) :=
  map (nodup opt_Z_eq_dec) (present v).

(** CTE [reverted]: the parts joined by [UNION], which removes duplicates. *)
Definition reverted (ps : list (list (option Z))) : list (option Z) :=
  nodup opt_Z_eq_dec (List.concat ps).

(** CTE [merged_pr] *)
Definition is_merged (r : labeled_row) : bool :=
  match l_outcome r with merged => true | _ => false end.

Definition merged_pr (rows : list labeled_row) : list labeled_row :=
  filter is_merged rows.

(** [CASE WHEN r.pr_id IS NOT NULL THEN 1 ELSE 0 END] on a joined row. *)
Definition signal (x : option (option Z)) : Z :=
  match x with Some (Some _) => 1 | _ => 0 end.

Record revert_summary : Type := {
  rs_n_merged : Z;
  n_with_revert_signal : option Z;
  share_with_revert_signal : option float
}.

Definition summarize_reverts (g : list (labeled_row * option (option Z)))
  : revert_summary :=
  {| rs_n_merged := Z.of_nat (List.length g);
     n_with_revert_signal :=
       Extractors.sql_sum (map (fun x => signal (snd x)) g);
     share_with_revert_signal := sql_avg (map (fun x => signal (snd x)) g) |}.

(** The data frame returned: the one-row note, or the per-agent table. *)
Inductive exploratory : Type :=
| Note
| Table (t : list (option string * revert_summary)).

(** [rows] is the content of view [rq1_labeled]. *)
Definition compute_reverts_exploratory (v : revert_views)
           (rows : list labeled_row) : exploratory :=
  match parts v with
  | [] => Note
  | _ :: _ =>
      Table
        (order_by_desc
           (fun g => rs_n_merged (snd g))
           (group_by opt_string_eq_dec (fun x => l_agent (fst x))
                     summarize_reverts
                     (left_join (merged_pr rows) (reverted (parts v))
                                (fun m r => sql_eq Z.eqb r (l_pr_id m)))))
  end.

(** The identifier of [r] is listed in some revert view that exists. *)
Definition has_signal (v : revert_views) (r : labeled_row) : bool :=
  existsb (fun x => sql_eq Z.eqb x (l_pr_id r)) (List.concat (present v)).

Definition agent_is (a : option string) (r : labeled_row) : bool :=
  if opt_string_eq_dec (l_agent r) a then true else false.

(** Sample views: one revert view, listing pull request 1 twice and a null
    identifier once. *)
Definition sample_views : revert_views :=
  {| first_revert := None;
     comment_revert := Some [Some 1; Some 1; None];
     tl_revert := None |}.

End Reverts.

(* ================================================================== *)
(** ** The returned interval and the unit interval *)




(* ================================================================== *)
(** * Properties *)

(** ** Joins and grouping *)

Module SqlFacts.

Lemma sql_eq_Z_true (x y : option Z) :
  sql_eq Z.eqb x y = true -> x = y /\ x <> None.
Proof.
  destruct x as [a|], y as [b|]; simpl; try discriminate.
  intros H. apply Z.eqb_eq in H. subst. split; [reflexivity | discriminate].
Qed.

Lemma sql_eq_Z_refl (v : Z) : sql_eq Z.eqb (Some v) (Some v) = true.
Proof. simpl. apply Z.eqb_refl. Qed.

Section LeftJoin.
Context {A B : Type}.
Variable on : A -> B -> bool.

Lemma in_left_rows (a a' : A) (m : list B) (ob : option B) :
  In (a', ob) (left_rows a m) ->
  a' = a /\ match ob with Some b => In b m | None => m = [] end.
Proof.
  destruct m as [|b0 m]; simpl.
  - intros [H|[]]. inversion H. auto.
  - intros [H|H].
    + inversion H. subst. auto.
    + apply in_map_iff in H. destruct H as [b [H Hb]].
      inversion H. subst. auto.
Qed.

Lemma in_left_join (l : list A) (r : list B) (a : A) (ob : option B) :
  In (a, ob) (left_join l r on) ->
  In a l /\
  match ob with
  | Some b => In b r /\ on a b = true
  | None => filter (on a) r = []
  end.
Proof.
  unfold left_join. rewrite in_flat_map. intros [a0 [Ha H]].
  apply in_left_rows in H. destruct H as [-> H]. split; [assumption|].
  destruct ob as [b|]; [|assumption].
  apply filter_In in H. assumption.
Qed.

Lemma left_rows_length (a : A) (m : list B) :
  List.length (left_rows a m) = Nat.max 1 (List.length m).
Proof.
  destruct m as [|b m]; simpl; [reflexivity|].
  now rewrite length_map.
Qed.

(** A left join never loses a left row. *)
Lemma left_join_length_ge (l : list A) (r : list B) :
  (List.length l <= List.length (left_join l r on))%nat.
Proof.
  induction l as [|a l IH]; simpl; [lia|].
  rewrite length_app, left_rows_length. lia.
Qed.

Lemma left_rows_fst_unique (a : A) (m : list B) :
  (List.length m <= 1)%nat -> map fst (left_rows a m) = [a].
Proof.
  destruct m as [|b [|b' m]]; simpl; intros H; try reflexivity; lia.
Qed.

(** When every left row has at most one match, the left side of the join
    is the left relation itself. *)
Lemma left_join_fst_unique (l : list A) (r : list B) :
  (forall a, In a l -> (List.length (filter (on a) r) <= 1)%nat) ->
  map fst (left_join l r on) = l.
Proof.
  induction l as [|a l IH]; simpl; intros H; [reflexivity|].
  rewrite map_app, left_rows_fst_unique by (apply H; now left).
  simpl. f_equal. apply IH. intros a' Ha'. apply H. now right.
Qed.
End LeftJoin.

(** Rows selected by a condition that fixes a key, out of a relation whose
    keys are pairwise distinct. *)
Lemma filter_unique_key {B K : Type} (key : B -> K) (k : K)
      (c : B -> bool) (r : list B) :
  NoDup (map key r) ->
  (forall b, c b = true -> key b = k) ->
  (List.length (filter c r) <= 1)%nat.
Proof.
  intros Hnd Hc. induction r as [|b r IH]; simpl; [lia|].
  inversion Hnd as [|? ? Hnotin Hnd']. subst.
  destruct (c b) eqn:Hb; [|now apply IH].
  assert (Hnil : filter c r = []).
  { destruct (filter c r) as [|b' m] eqn:Hf; [reflexivity|].
    exfalso. apply Hnotin.
    assert (Hin : In b' (filter c r)) by (rewrite Hf; now left).
    apply filter_In in Hin. destruct Hin as [Hin Hcb'].
    rewrite (Hc b Hb), <- (Hc b' Hcb'). now apply in_map. }
  rewrite Hnil. simpl. lia.
Qed.

Lemma group_by_keys_NoDup {K R V : Type}
      (dec : forall x y : K, {x = y} + {x <> y})
      (key : R -> K) (agg : list R -> V) (rows : list R) :
  NoDup (map fst (group_by dec key agg rows)).
Proof.
  unfold group_by. rewrite map_map. simpl. rewrite map_id.
  apply NoDup_nodup.
Qed.

(** A pull request matches at most one row of a grouped relation. *)
Lemma group_by_at_most_one {R V : Type}
      (key : R -> option Z) (agg : list R -> V) (rows : list R)
      (k : option Z) :
  (List.length
     (filter (fun g => sql_eq Z.eqb (fst g) k)
             (group_by opt_Z_eq_dec key agg rows)) <= 1)%nat.
Proof.
  apply filter_unique_key with (key := fst) (k := k).
  - apply group_by_keys_NoDup.
  - intros g Hg. apply sql_eq_Z_true in Hg. tauto.
Qed.

Lemma count_occ_filter_length (k : option Z) {B : Type}
      (key : B -> option Z) (r : list B) :
  k <> None ->
  List.length (filter (fun b => sql_eq Z.eqb (key b) k) r)
  = count_occ opt_Z_eq_dec (map key r) k.
Proof.
  intros Hk. induction r as [|b r IH]; simpl; [reflexivity|].
  destruct (opt_Z_eq_dec (key b) k) as [E|E].
  - destruct k as [v|]; [|congruence].
    rewrite E, sql_eq_Z_refl. simpl. now rewrite IH.
  - destruct (sql_eq Z.eqb (key b) k) eqn:Hs; [|assumption].
    apply sql_eq_Z_true in Hs. tauto.
Qed.

End SqlFacts.

(* ================================================================== *)
(** ** The outcome label *)

Module LabelerFacts.

Import Labeler SqlFacts.

(** Where a row of CTE [labeled] comes from. *)
Lemma in_labeled (db : database) (b : base_row) :
  In b (labeled db) ->
  exists t p,
    In t (pr_task_type db) /\ In p (pull_request db) /\
    tt_agent t <> None /\ id p = tt_id t /\ tt_id t <> None /\
    b = label ((tt_id t, tt_agent t), pr_of p).
Proof.
  unfold labeled, inner_join. rewrite in_map_iff.
  intros [[a q] [Hb Hin]]. apply in_flat_map in Hin.
  destruct Hin as [a0 [Ha Hq]]. apply in_map_iff in Hq.
  destruct Hq as [q0 [E Hq]]. inversion E. subst a0 q0. clear E.
  apply filter_In in Hq. destruct Hq as [Hq Hon].
  unfold agentic in Ha. apply nodup_In in Ha. apply in_map_iff in Ha.
  destruct Ha as [t [Ea Ht]]. apply filter_In in Ht.
  destruct Ht as [Ht Hagent]. unfold pr in Hq. apply in_map_iff in Hq.
  destruct Hq as [p0 [Ep Hp]]. subst a q. simpl in Hon.
  apply sql_eq_Z_true in Hon. destruct Hon as [Hid Hnn].
  exists t, p0. repeat split; try assumption.
  - destruct (tt_agent t); [discriminate | discriminate Hagent].
  - rewrite <- Hid. assumption.
  - symmetry. assumption.
Qed.

Lemma in_rq2_base (db : database) (b : base_row) :
  In b (rq2_base db) ->
  In b (labeled db) /\ resolved (b_outcome b) = true.
Proof. unfold rq2_base. apply filter_In. Qed.

(** A failed query has no rows; a successful one has a row per input. *)
Lemma all_ok_In {A B : Type} (f : A -> result B) (l : list A)
      (rows : list B) (r : B) :
  Rq1.all_ok f l = Ok rows -> In r rows ->
  exists a, In a l /\ f a = Ok r.
Proof.
  revert rows. induction l as [|a l IH]; simpl; intros rows H Hin.
  - inversion H. subst. destruct Hin.
  - destruct (f a) as [b|s] eqn:Hfa; [|discriminate].
    destruct (Rq1.all_ok f l) as [bs|s] eqn:Hl; [|discriminate].
    inversion H. subst. destruct Hin as [->|Hin].
    + exists a. auto.
    + destruct (IH bs eq_refl Hin) as [a' [Ha' Hfa']]. exists a'. auto.
Qed.

Lemma cast_ok_not_null (v : option Z) (raw : option raw_ts) :
  cast_timestamp raw = Ok v -> is_not_null raw = is_not_null v.
Proof.
  destruct raw as [[t|s]|]; simpl; intros H; inversion H; reflexivity.
Qed.

End LabelerFacts.

Lemma outcome_of_follows_rule (closed_ts merged_ts : option Z) :
  follows_outcome_rule closed_ts merged_ts
                       (Labeler.outcome_of closed_ts merged_ts)
                       (Labeler.y_merged_of merged_ts).
Proof.
  unfold follows_outcome_rule, Labeler.outcome_of, Labeler.y_merged_of.
  destruct merged_ts as [m|], closed_ts as [c|]; simpl;
    repeat split; intros; try congruence; try discriminate; auto.
Qed.

(** The end-to-end scenario: a merged, a closed and an open pull request. *)
Example outcome_examples :
  Labeler.outcome_of None (Some 5) = merged /\
  Labeler.outcome_of (Some 7) (Some 5) = merged /\
  Labeler.outcome_of (Some 7) None = closed_unmerged /\
  Labeler.outcome_of None None = open /\
  Labeler.y_merged_of (Some 5) = 1 /\ Labeler.y_merged_of None = 0.
Proof. repeat split. Qed.

(* ================================================================== *)
(** ** The feature table *)

Module AssemblerFacts.

Import Labeler Extractors Assembler SqlFacts.

(** The grouped blocks neither drop nor repeat a labelled row. *)
Lemma joined3_base (db : database) :
  map (fun x => fst (fst (fst x))) (joined3 db) = rq2_base db.
Proof.
  unfold joined3.
  rewrite <- (map_map fst (fun x => fst (fst x))).
  rewrite left_join_fst_unique
    by (intros; apply group_by_at_most_one).
  rewrite <- (map_map fst fst).
  rewrite left_join_fst_unique
    by (intros; apply group_by_at_most_one).
  apply left_join_fst_unique. intros. apply group_by_at_most_one.
Qed.

(** [f_reviews] has one row per labelled row, with its identifier. *)
Lemma f_reviews_ids (db : database) :
  map r_pr_id (f_reviews db) = map b_pr_id (rq2_base db).
Proof.
  unfold f_reviews. rewrite map_map.
  rewrite <- (left_join_fst_unique
                (fun b fr => sql_eq Z.eqb (fst fr) (b_pr_id b))
                (rq2_base db) (first_review db))
    at 2 by (intros; apply group_by_at_most_one).
  rewrite map_map. apply map_ext. intros [b fr]. reflexivity.
Qed.

Lemma in_f_reviews (db : database) (r : review_row) :
  In r (f_reviews db) ->
  exists b fr, In b (rq2_base db) /\ r = review_of (b, fr).
Proof.
  unfold f_reviews. rewrite in_map_iff. intros [[b fr] [E Hin]].
  apply in_left_join in Hin. destruct Hin as [Hb _].
  exists b, fr. auto.
Qed.

(** Where a row of [rq2_features] comes from. *)
Lemma in_rq2_features (db : database) (f : feature_row) :
  In f (rq2_features db) ->
  exists j,
    f = select j /\ In (base_of j) (rq2_base db) /\
    match review_of_row j with
    | Some r => In r (f_reviews db) /\ r_pr_id r = b_pr_id (base_of j)
    | None => True
    end.
Proof.
  unfold rq2_features. rewrite in_map_iff. intros [j [E Hin]].
  exists j. split; [auto|]. unfold joined in Hin.
  destruct j as [j3 rv]. apply in_left_join in Hin.
  destruct Hin as [Hj3 Hrv]. split.
  - rewrite <- (joined3_base db). unfold base_of. simpl.
    apply (in_map (fun x => fst (fst (fst x)))) in Hj3. exact Hj3.
  - unfold review_of_row, base_of. simpl. destruct rv as [r|]; [|exact I].
    destruct Hrv as [Hr Hon]. apply sql_eq_Z_true in Hon. tauto.
Qed.

Lemma joined_unfold (db : database) :
  joined db
  = left_join (joined3 db) (f_reviews db)
              (fun j rv =>
                 sql_eq Z.eqb (r_pr_id rv) (b_pr_id (fst (fst (fst j))))).
Proof. reflexivity. Qed.

Lemma select_base (j : joined_row) :
  pr_id (select j) = b_pr_id (base_of j) /\
  f_repo_id (select j) = b_repo_id (base_of j) /\
  f_agent (select j) = b_agent (base_of j) /\
  y_merged (select j) = b_y_merged (base_of j).
Proof. destruct j as [[[[b c] ch] fp] rv]. repeat split. Qed.

Lemma select_review (j : joined_row) :
  has_review (select j)
  = coalesce (col (fun x => Some (r_has_review x)) (review_of_row j)) 0 /\
  hours_to_first_review (select j)
  = col r_hours_to_first_review (review_of_row j).
Proof. destruct j as [[[[b c] ch] fp] rv]. split; reflexivity. Qed.

Lemma select_commits (j : joined_row) :
  commit_bucket (select j) = commit_bucket_of (Some (n_commits (select j))).
Proof.
  destruct j as [[[[b c] ch] fp] rv]. simpl.
  destruct c as [[k n]|]; reflexivity.
Qed.

End AssemblerFacts.

Section FeatureTable.

Import Labeler Extractors Assembler Transform SqlFacts AssemblerFacts.

(** C2.  Every row of [rq2_features] stems from a task-type record with a
    non-null agent and a pull-request record of the same identifier whose
    closed or merged timestamp is non-null, so its outcome is not [open];
    an identifier that has only null-agent task records, or only
    pull-request records without either timestamp, is not in the table. *)
Theorem feature_rows_are_resolved_agentic (db : database) :
  (forall f,
      In f (rq2_features db) ->
      exists t p,
        In t (pr_task_type db) /\ In p (pull_request db) /\
        tt_id t = pr_id f /\ id p = pr_id f /\
        tt_agent t = f_agent f /\ f_agent f <> None /\
        (try_cast_timestamp (closed_at p) <> None \/
         try_cast_timestamp (merged_at p) <> None) /\
        outcome_of (try_cast_timestamp (closed_at p))
                   (try_cast_timestamp (merged_at p)) <> open /\
        y_merged f = y_merged_of (try_cast_timestamp (merged_at p))) /\
  (forall i,
      (forall t, In t (pr_task_type db) -> tt_id t = Some i ->
                 tt_agent t = None) ->
      ~ In (Some i) (map pr_id (rq2_features db))) /\
  (forall i,
      (forall p, In p (pull_request db) -> id p = Some i ->
                 try_cast_timestamp (closed_at p) = None /\
                 try_cast_timestamp (merged_at p) = None) ->
      ~ In (Some i) (map pr_id (rq2_features db))).
Proof.
  assert (Hmain : forall f,
      In f (rq2_features db) ->
      exists t p,
        In t (pr_task_type db) /\ In p (pull_request db) /\
        tt_id t = pr_id f /\ id p = pr_id f /\
        tt_agent t = f_agent f /\ f_agent f <> None /\
        (try_cast_timestamp (closed_at p) <> None \/
         try_cast_timestamp (merged_at p) <> None) /\
        outcome_of (try_cast_timestamp (closed_at p))
                   (try_cast_timestamp (merged_at p)) <> open /\
        y_merged f = y_merged_of (try_cast_timestamp (merged_at p))).
  { intros f Hf. apply in_rq2_features in Hf.
    destruct Hf as [j [-> [Hb _]]].
    destruct (select_base j) as [-> [_ [-> ->]]].
    apply LabelerFacts.in_rq2_base in Hb. destruct Hb as [Hb Hres].
    apply LabelerFacts.in_labeled in Hb.
    destruct Hb as [t [p0 [Ht [Hp [Hag [Hid [_ E]]]]]]].
    rewrite E in *. simpl in *.
    exists t, p0. repeat split; try assumption.
    - unfold outcome_of in Hres.
      destruct (try_cast_timestamp (merged_at p0));
        destruct (try_cast_timestamp (closed_at p0));
        simpl in Hres; try discriminate;
          [right | right | left]; discriminate.
    - intros Ho. rewrite Ho in Hres. discriminate. }
  split; [exact Hmain|]. split.
  - intros i Hnull Hin. apply in_map_iff in Hin.
    destruct Hin as [f [Hi Hf]].
    destruct (Hmain f Hf) as [t [p0 [Ht [_ [Hid [_ [Hag [Hnn _]]]]]]]].
    apply Hnn. rewrite <- Hag. apply Hnull; congruence.
  - intros i Hopen Hin. apply in_map_iff in Hin.
    destruct Hin as [f [Hi Hf]].
    destruct (Hmain f Hf) as [t [p0 [_ [Hp [_ [Hid [_ [_ [Hts _]]]]]]]]].
    destruct (Hopen p0 Hp) as [Hc Hm]; [congruence|].
    destruct Hts; contradiction.
Qed.



(** C4.  In every row [commit_bucket] is a function of [n_commits] (the
    commit count): non-decreasing, 1 up to a count of 1, then 2, 3 and 4,
    and 5 from a count of 5 on; it is always one of 1 to 5. *)
Theorem commit_bucket_monotone_saturating :
  (forall db f, In f (rq2_features db) ->
                commit_bucket f = commit_bucket_of (Some (n_commits f))) /\
  (forall n n', n <= n' ->
                commit_bucket_of (Some n) <= commit_bucket_of (Some n')) /\
  (forall n, n <= 1 -> commit_bucket_of (Some n) = 1) /\
  commit_bucket_of (Some 2) = 2 /\
  commit_bucket_of (Some 3) = 3 /\
  commit_bucket_of (Some 4) = 4 /\
  (forall n, 5 <= n -> commit_bucket_of (Some n) = 5) /\
  (forall c, 1 <= commit_bucket_of c <= 5) /\
  commit_bucket_of (Some 0) = 1 /\ commit_bucket_of (Some 7) = 5.
Proof.
  assert (Hcases : forall n,
             (n <= 1 /\ commit_bucket_of (Some n) = 1) \/
             (n = 2 /\ commit_bucket_of (Some n) = 2) \/
             (n = 3 /\ commit_bucket_of (Some n) = 3) \/
             (n = 4 /\ commit_bucket_of (Some n) = 4) \/
             (5 <= n /\ commit_bucket_of (Some n) = 5)).
  { intros n. unfold commit_bucket_of. simpl.
    destruct (Z.leb_spec n 1); [auto|].
    destruct (Z.eqb_spec n 2); [auto|].
    destruct (Z.eqb_spec n 3); [auto 6|].
    destruct (Z.eqb_spec n 4); [auto 6|].
    right. right. right. right. split; [lia | reflexivity]. }
  repeat split; try reflexivity.
  - intros db f Hf. apply in_rq2_features in Hf.
    destruct Hf as [j [-> _]]. apply select_commits.
  - intros n n' Hle. destruct (Hcases n) as [H|[H|[H|[H|H]]]];
      destruct (Hcases n') as [H'|[H'|[H'|[H'|H']]]]; lia.
  - intros n Hn. destruct (Hcases n) as [H|[H|[H|[H|H]]]]; lia.
  - intros n Hn. destruct (Hcases n) as [H|[H|[H|[H|H]]]]; lia.
  - destruct c as [n|]; [|unfold commit_bucket_of; simpl; lia].
    destruct (Hcases n) as [H|[H|[H|[H|H]]]]; lia.
  - destruct c as [n|]; [|unfold commit_bucket_of; simpl; lia].
    destruct (Hcases n) as [H|[H|[H|[H|H]]]]; lia.
Qed.

(** With pairwise distinct identifiers in [rq2_base], the last join, against
    [f_reviews], matches each row once as well. *)
Lemma joined_base (db : database) :
  NoDup (map b_pr_id (rq2_base db)) ->
  map base_of (joined db) = rq2_base db.
Proof.
  intros Hnd. rewrite <- (joined3_base db), joined_unfold.
  transitivity
    (map (fun x => fst (fst (fst x)))
         (map fst
              (left_join (joined3 db) (f_reviews db)
                         (fun j rv =>
                            sql_eq Z.eqb (r_pr_id rv)
                                   (b_pr_id (fst (fst (fst j)))))))).
  { rewrite map_map. reflexivity. }
  f_equal. apply left_join_fst_unique. intros j3 _.
  apply filter_unique_key
    with (key := r_pr_id) (k := b_pr_id (fst (fst (fst j3)))).
  - rewrite f_reviews_ids. exact Hnd.
  - intros r Hr. apply sql_eq_Z_true in Hr. tauto.
Qed.

Lemma distinct_ids_same_ids (db : database) :
  NoDup (map b_pr_id (rq2_base db)) ->
  map pr_id (rq2_features db) = map b_pr_id (rq2_base db).
Proof.
  intros Hnd. unfold rq2_features. rewrite map_map.
  rewrite <- (joined_base db Hnd). rewrite map_map.
  apply map_ext. intros j. apply select_base.
Qed.

(** C5, as amended.  When the identifiers of [rq2_base] are pairwise
    distinct, [rq2_features] has as many rows as [rq2_base], carries the
    same identifiers in the same order, whatever the feature blocks hold,
    and each of its identifiers belongs to exactly one labelled row. *)
Theorem left_join_lossless_on_distinct_ids (db : database) :
  NoDup (map b_pr_id (rq2_base db)) ->
  List.length (rq2_features db) = List.length (rq2_base db) /\
  map pr_id (rq2_features db) = map b_pr_id (rq2_base db) /\
  (forall f, In f (rq2_features db) ->
             count_occ opt_Z_eq_dec (map b_pr_id (rq2_base db)) (pr_id f)
             = 1%nat).
Proof.
  intros Hnd. pose proof (distinct_ids_same_ids db Hnd) as Hids.
  split; [|split].
  - rewrite <- (length_map pr_id), Hids. apply length_map.
  - exact Hids.
  - intros f Hf. apply NoDup_count_occ'; [exact Hnd|].
    rewrite <- Hids. now apply in_map.
Qed.

(** No labelled row is ever dropped, whatever the identifiers. *)
Lemma left_join_never_drops (db : database) :
  (List.length (rq2_base db) <= List.length (rq2_features db))%nat.
Proof.
  unfold rq2_features. rewrite length_map, joined_unfold.
  eapply Nat.le_trans; [|apply left_join_length_ge].
  rewrite <- (joined3_base db). rewrite length_map. apply Nat.le_refl.
Qed.

(** C10.  A row with [has_review = 1] whose pull request has no parsable
    creation timestamp (in any pull-request record of its identifier) has
    no [hours_to_first_review], and its [log1p_hours_to_first_review] is
    0, the value rows without a review get. *)
Theorem reviewed_row_without_creation_gets_sentinel
        (db : database) (m : model_row) :
  In m (df db) ->
  has_review (features m) = 1 ->
  (forall p, In p (pull_request db) -> id p = pr_id (features m) ->
             try_cast_timestamp (created_at p) = None) ->
  hours_to_first_review (features m) = None /\
  log1p_hours_to_first_review m = 0%R.
Proof.
  unfold df. rewrite in_map_iff. intros [f [<- Hf]] H1 Hcreated.
  simpl in *.
  assert (Hnone : hours_to_first_review f = None).
  { apply in_rq2_features in Hf. destruct Hf as [j [-> [_ Hrv]]].
    destruct (select_review j) as [Hh Hhours]. rewrite Hh in H1.
    rewrite Hhours.
    destruct (select_base j) as [Hid _]. rewrite Hid in Hcreated.
    destruct (review_of_row j) as [r|]; [|reflexivity].
    destruct Hrv as [Hr Hrid]. apply in_f_reviews in Hr.
    destruct Hr as [b [fr [Hb ->]]]. simpl in *.
    apply LabelerFacts.in_rq2_base in Hb. destruct Hb as [Hb _].
    apply LabelerFacts.in_labeled in Hb.
    destruct Hb as [t [p0 [_ [Hp [_ [Hidp [_ ->]]]]]]]. simpl in *.
    rewrite (Hcreated p0 Hp) by congruence.
    destruct (first_review_ts fr); reflexivity. }
  split; [exact Hnone|]. rewrite Hnone. reflexivity.
Qed.

End FeatureTable.

Section FeatureCount.

Import Labeler Extractors Assembler SqlFacts AssemblerFacts.

Lemma left_join_length {A B : Type} (on : A -> B -> bool)
      (l : list A) (r : list B) :
  List.length (left_join l r on)
  = list_sum (map (fun a => Nat.max 1 (List.length (filter (on a) r))) l).
Proof.
  induction l as [|a l IH]; simpl; [reflexivity|].
  rewrite length_app, left_rows_length, IH. reflexivity.
Qed.

Lemma base_id_not_null (db : database) (b : base_row) :
  In b (rq2_base db) -> b_pr_id b <> None.
Proof.
  intros Hb. apply LabelerFacts.in_rq2_base in Hb. destruct Hb as [Hb _].
  apply LabelerFacts.in_labeled in Hb.
  destruct Hb as [t [p0 [_ [_ [_ [_ [Hnn ->]]]]]]]. exact Hnn.
Qed.

(** Each labelled row yields as many rows of the feature table as there are
    labelled rows with its identifier. *)
Lemma rq2_features_length (db : database) :
  List.length (rq2_features db)
  = list_sum (map (occurrences db) (rq2_base db)).
Proof.
  unfold rq2_features. rewrite length_map, joined_unfold.
  etransitivity; [apply left_join_length|].
  rewrite <- (joined3_base db). rewrite map_map. f_equal.
  apply map_ext_in. intros j3 Hj3.
  assert (Hb : In (fst (fst (fst j3))) (rq2_base db)).
  { rewrite <- (joined3_base db).
    apply (in_map (fun x => fst (fst (fst x)))). exact Hj3. }
  rewrite (count_occ_filter_length (b_pr_id (fst (fst (fst j3)))) r_pr_id)
    by (now apply (base_id_not_null db)).
  rewrite f_reviews_ids. fold (occurrences db (fst (fst (fst j3)))).
  assert (Hpos : (1 <= occurrences db (fst (fst (fst j3))))%nat).
  { apply count_occ_In. now apply in_map. }
  lia.
Qed.

Lemma list_sum_ones {A : Type} (f : A -> nat) (l : list A) :
  (forall a, In a l -> (1 <= f a)%nat) ->
  list_sum (map f l) = List.length l ->
  forall a, In a l -> f a = 1%nat.
Proof.
  induction l as [|x l IH]; simpl; intros Hge Hsum a Ha; [destruct Ha|].
  assert (Hx : (1 <= f x)%nat) by (apply Hge; now left).
  assert (Hl : (List.length l <= list_sum (map f l))%nat).
  { clear - Hge. induction l as [|y l IH]; simpl; [lia|].
    assert ((1 <= f y)%nat) by (apply Hge; right; now left).
    assert ((List.length l <= list_sum (map f l))%nat).
    { apply IH. intros a [->|Ha]; apply Hge; [now left | right; now right]. }
    lia. }
  destruct Ha as [<-|Ha]; [lia|].
  apply IH; [intros; apply Hge; now right | lia | exact Ha].
Qed.

(** The row counts agree exactly when no identifier is labelled twice. *)
Lemma row_counts_agree_iff_distinct_ids (db : database) :
  List.length (rq2_features db) = List.length (rq2_base db)
  <-> NoDup (map b_pr_id (rq2_base db)).
Proof.
  split.
  - intros Hlen. apply NoDup_count_occ' with (decA := opt_Z_eq_dec).
    intros x Hx. apply in_map_iff in Hx. destruct Hx as [b [<- Hb]].
    rewrite rq2_features_length in Hlen.
    apply (list_sum_ones (occurrences db) (rq2_base db)); try assumption.
    intros a Ha. apply count_occ_In. now apply in_map.
  - intros Hnd. rewrite <- (length_map pr_id), (distinct_ids_same_ids db Hnd).
    apply length_map.
Qed.

End FeatureCount.

(* ================================================================== *)
(** ** Rounding to binary64 *)

Module FloatFacts.

Lemma digits2_pos_bounds (m : positive) :
  2 ^ (Zpos (digits2_pos m) - 1) <= Zpos m < 2 ^ Zpos (digits2_pos m).
Proof.
  induction m as [m IH|m IH|]; simpl digits2_pos.
  - rewrite Pos2Z.inj_succ, (Pos2Z.inj_xI m).
    replace (Z.succ (Zpos (digits2_pos m)) - 1)
      with (Z.succ (Zpos (digits2_pos m) - 1)) by lia.
    rewrite !Z.pow_succ_r by lia.
    set (a := 2 ^ (Zpos (digits2_pos m) - 1)) in *.
    set (b := 2 ^ Zpos (digits2_pos m)) in *. lia.
  - rewrite Pos2Z.inj_succ, (Pos2Z.inj_xO m).
    replace (Z.succ (Zpos (digits2_pos m)) - 1)
      with (Z.succ (Zpos (digits2_pos m) - 1)) by lia.
    rewrite !Z.pow_succ_r by lia.
    set (a := 2 ^ (Zpos (digits2_pos m) - 1)) in *.
    set (b := 2 ^ Zpos (digits2_pos m)) in *. lia.
  - simpl. lia.
Qed.

Lemma Zdigits2_lower (x k : Z) :
  1 <= x -> 2 ^ (k - 1) <= x -> k <= Zdigits2 x.
Proof.
  intros Hx Hk. destruct x as [|p|p]; try lia. simpl.
  destruct (digits2_pos_bounds p) as [_ Hlt].
  destruct (Z_lt_le_dec (Zpos (digits2_pos p)) k) as [Hc|Hc]; [|exact Hc].
  exfalso.
  assert (2 ^ Zpos (digits2_pos p) <= 2 ^ (k - 1))
    by (apply Z.pow_le_mono_r; lia).
  lia.
Qed.

Lemma Zdigits2_upper (x : Z) : 1 <= x -> 2 ^ (Zdigits2 x - 1) <= x.
Proof.
  intros Hx. destruct x as [|p|p]; try lia. simpl.
  apply digits2_pos_bounds.
Qed.

Lemma shr_1_lower (mrs : shr_record) (c : Z) :
  0 <= c -> 2 * c <= shr_m mrs -> c <= shr_m (shr_1 mrs).
Proof.
  destruct mrs as [m r s]. simpl shr_m at 1. intros Hc Hm.
  destruct m as [|[p|p|]|p]; simpl; lia.
Qed.

Lemma pow2_pos (x : Z) : 0 <= x -> 0 < 2 ^ x.
Proof. intros Hx. apply Z.pow_pos_nonneg; [reflexivity | exact Hx]. Qed.

Lemma iter_shr_1_lower (p : positive) :
  forall (mrs : shr_record) (c : Z),
    0 <= c -> 2 ^ Zpos p * c <= shr_m mrs ->
    c <= shr_m (iter_pos shr_1 p mrs).
Proof.
  induction p as [p IH|p IH|]; intros mrs c Hc Hm; simpl iter_pos.
  - replace (Zpos p~1) with (Zpos p + Zpos p + 1) in Hm by lia.
    rewrite !Z.pow_add_r, Z.pow_1_r in Hm by lia.
    pose proof (pow2_pos (Zpos p) (Pos2Z.is_nonneg p)) as Ha.
    set (a := 2 ^ Zpos p) in *.
    apply IH; [exact Hc|]. apply IH; [nia|].
    apply shr_1_lower; nia.
  - replace (Zpos p~0) with (Zpos p + Zpos p) in Hm by lia.
    rewrite Z.pow_add_r in Hm by lia.
    pose proof (pow2_pos (Zpos p) (Pos2Z.is_nonneg p)) as Ha.
    set (a := 2 ^ Zpos p) in *.
    apply IH; [exact Hc|]. apply IH; nia.
  - apply shr_1_lower; [exact Hc|]. change (2 ^ 1) with 2 in Hm. exact Hm.
Qed.

Lemma shr_m_of_loc (m : Z) (l : location) :
  shr_m (shr_record_of_loc m l) = m.
Proof. destruct l as [|[ | | ]]; reflexivity. Qed.

Lemma round_nearest_even_ge (m : Z) (l : location) :
  m <= round_nearest_even m l.
Proof.
  destruct l as [|[ | | ]]; simpl; try lia. destruct (Z.even m); lia.
Qed.

(** A mantissa whose value is not below the smallest subnormal keeps a
    positive mantissa when shifted to its canonical exponent. *)
Lemma shr_fexp_lower (m e : Z) (l : location) :
  1 <= m -> emin + 1 <= Zdigits2 m + e ->
  let '(mrs, e') := shr_fexp prec emax m e l in
  0 <= Zdigits2 m + e - e' - 1 /\
  2 ^ (Zdigits2 m + e - e' - 1) <= shr_m mrs.
Proof.
  intros Hm Hmag. unfold shr_fexp, shr.
  pose proof (Zdigits2_upper m Hm) as Hup.
  assert (Hd : 1 <= Zdigits2 m) by (apply Zdigits2_lower; simpl; lia).
  unfold fexp, SpecFloat.emin, prec, emax in *.
  set (d := Zdigits2 m) in *.
  destruct (Z.max (d + e - 53) (3 - 1024 - 53) - e) as [|n|n] eqn:En.
  - rewrite shr_m_of_loc. split; [lia|].
    replace (d + e - e - 1) with (d - 1) by lia. exact Hup.
  - split; [lia|]. apply iter_shr_1_lower.
    + apply Z.pow_nonneg. lia.
    + rewrite shr_m_of_loc, <- Z.pow_add_r by lia.
      replace (Zpos n + (d + e - (e + Zpos n) - 1)) with (d - 1) by lia.
      exact Hup.
  - rewrite shr_m_of_loc. split; [lia|].
    replace (d + e - e - 1) with (d - 1) by lia. exact Hup.
Qed.

Lemma binary_round_aux_nonzero (sx : bool) (mx ex : Z) (lx : location) :
  1 <= mx -> emin + 1 <= Zdigits2 mx + ex ->
  finite_or_inf sx (binary_round_aux prec emax sx mx ex lx).
Proof.
  intros Hm Hmag. unfold binary_round_aux.
  pose proof (shr_fexp_lower mx ex lx Hm Hmag) as H1.
  destruct (shr_fexp prec emax mx ex lx) as [mrs' e'].
  destruct H1 as [Hexp1 Hlow1].
  set (m1 := round_nearest_even (shr_m mrs') (loc_of_shr_record mrs')).
  assert (Hm1 : 2 ^ (Zdigits2 mx + ex - e' - 1) <= m1).
  { eapply Z.le_trans; [exact Hlow1|]. apply round_nearest_even_ge. }
  assert (Hpos1 : 1 <= m1).
  { assert (0 < 2 ^ (Zdigits2 mx + ex - e' - 1))
      by (apply Z.pow_pos_nonneg; lia). lia. }
  assert (Hdig : Zdigits2 mx + ex - e' <= Zdigits2 m1)
    by (apply Zdigits2_lower; assumption).
  assert (Hmag1 : emin + 1 <= Zdigits2 m1 + e') by lia.
  pose proof (shr_fexp_lower m1 e' loc_Exact Hpos1 Hmag1) as H2.
  destruct (shr_fexp prec emax m1 e' loc_Exact) as [mrs'' e''].
  destruct H2 as [Hexp2 Hlow2].
  assert (0 < 2 ^ (Zdigits2 m1 + e' - e'' - 1))
    by (apply Z.pow_pos_nonneg; lia).
  destruct (shr_m mrs'') as [|q|q]; try lia.
  destruct (e'' <=? emax - prec); reflexivity.
Qed.

Lemma binary_round_nonzero (sx : bool) (mx : positive) (ex : Z) :
  emin + 1 <= Zpos (digits2_pos mx) + ex ->
  finite_or_inf sx (binary_round prec emax sx mx ex).
Proof.
  intros Hmag. unfold binary_round, shl_align.
  destruct (fexp prec emax (Zpos (digits2_pos mx) + ex) - ex)
    as [|d|d] eqn:Ed.
  - apply binary_round_aux_nonzero; [lia | exact Hmag].
  - apply binary_round_aux_nonzero; [lia | exact Hmag].
  - apply binary_round_aux_nonzero; [lia|].
    change (Pos.iter xO mx d) with (shift_pos d mx).
    assert (Hv : Zpos (shift_pos d mx) = 2 ^ Zpos d * Zpos mx).
    { rewrite shift_pos_correct. reflexivity. }
    destruct (digits2_pos_bounds mx) as [Hlo _].
    assert (Hk : Zpos (digits2_pos mx) + Zpos d
                 <= Zdigits2 (Zpos (shift_pos d mx))).
    { apply Zdigits2_lower; [lia|]. rewrite Hv.
      replace (Zpos (digits2_pos mx) + Zpos d - 1)
        with (Zpos d + (Zpos (digits2_pos mx) - 1)) by lia.
      rewrite Z.pow_add_r by lia.
      apply Z.mul_le_mono_nonneg_l; [apply Z.pow_nonneg; lia | exact Hlo]. }
    lia.
Qed.

Lemma finite_or_inf_not_zero (f : spec_float) :
  finite_or_inf false f -> SFeqb f (S754_zero false) = false.
Proof. destruct f as [s|s| |s m e]; simpl; intros H; try tauto; now subst. Qed.

Lemma binary_round_aux_sign (sx : bool) (mx ex : Z) (lx : location) :
  has_sign sx (binary_round_aux prec emax sx mx ex lx).
Proof.
  unfold binary_round_aux.
  destruct (shr_fexp prec emax mx ex lx) as [mrs' e'].
  destruct (shr_fexp prec emax _ e' loc_Exact) as [mrs'' e''].
  destruct (shr_m mrs''); [reflexivity | | exact I].
  destruct (e'' <=? emax - prec); reflexivity.
Qed.

Lemma SFmul_self_sign (x : spec_float) : has_sign false (SFmul prec emax x x).
Proof.
  destruct x as [s|s| |s m e]; simpl; try apply xorb_nilpotent; try exact I.
  rewrite xorb_nilpotent. apply binary_round_aux_sign.
Qed.

Lemma SFdiv_sign (x y : spec_float) :
  has_sign false x -> has_sign false y ->
  has_sign false (SFdiv prec emax x y).
Proof.
  destruct x as [sx|sx| |sx mx ex], y as [sy|sy| |sy my ey]; simpl;
    intros Hx Hy; subst; try reflexivity; try exact I.
  destruct (SFdiv_core_binary prec emax (Zpos mx) ex (Zpos my) ey)
    as [[mz ez] lz].
  apply (binary_round_aux_sign false).
Qed.

Lemma of_uint63_sign (i : int) : has_sign false (Prim2SF (of_uint63 i)).
Proof.
  rewrite of_uint63_spec. unfold binary_normalize.
  pose proof (Uint63.to_Z_bounded i) as Hb.
  destruct (Uint63.to_Z i) as [|p|p]; [reflexivity | | lia].
  unfold binary_round.
  destruct (shl_align p 0 (fexp prec emax (Zpos (digits2_pos p) + 0)))
    as [mz ez].
  apply binary_round_aux_sign.
Qed.

Lemma shl_align_value (mx : positive) (ex ez : Z) :
  ez <= ex -> Zpos (fst (shl_align mx ex ez)) = Zpos mx * 2 ^ (ex - ez).
Proof.
  intros Hle. unfold shl_align. destruct (ez - ex) as [|d|d] eqn:Ed.
  - replace (ex - ez) with 0 by lia. simpl fst. lia.
  - lia.
  - simpl fst. change (Pos.iter xO mx d) with (shift_pos d mx).
    rewrite shift_pos_correct.
    replace (ex - ez) with (Zpos d) by lia.
    change (Z.pow_pos 2 d) with (2 ^ Zpos d). lia.
Qed.

(** Adding a non-negative number to a finite number of value 1 does not
    give zero. *)
Lemma SFadd_one_not_zero (M : positive) (y : spec_float) :
  Zpos M = 2 ^ 52 -> has_sign false y ->
  SFeqb (SFadd prec emax (S754_finite false M (-52)) y) (S754_zero false)
  = false.
Proof.
  intros HM Hy. destruct y as [s|s| |s m e]; simpl in Hy; subst;
    try reflexivity.
  apply finite_or_inf_not_zero. unfold SFadd.
  set (ez := Z.min (-52) e).
  assert (Hez1 : ez <= -52) by (unfold ez; lia).
  assert (Hez2 : ez <= e) by (unfold ez; lia).
  pose proof (shl_align_value M (-52) ez Hez1) as Ha.
  pose proof (shl_align_value m e ez Hez2) as Hb.
  set (a := fst (shl_align M (-52) ez)) in *.
  set (b := fst (shl_align m e ez)) in *.
  change (cond_Zopp false (Zpos a) + cond_Zopp false (Zpos b))
    with (Zpos (a + b)).
  unfold binary_normalize. apply binary_round_nonzero.
  assert (Hk : 1 - ez <= Zdigits2 (Zpos (a + b))).
  { apply Zdigits2_lower; [lia|].
    replace (1 - ez - 1) with (- ez) by lia.
    rewrite Pos2Z.inj_add, Ha, HM, <- Z.pow_add_r by lia.
    replace (52 + (-52 - ez)) with (- ez) by lia.
    set (c := 2 ^ (- ez)). lia. }
  change (Zdigits2 (Zpos (a + b))) with (Zpos (digits2_pos (a + b))) in Hk.
  unfold SpecFloat.emin, emax, prec. lia.
Qed.

Lemma Prim2SF_one : Prim2SF 1 = S754_finite false 4503599627370496 (-52).
Proof. vm_compute. reflexivity. Qed.

Lemma Prim2SF_zero : Prim2SF 0 = S754_zero false.
Proof. vm_compute. reflexivity. Qed.

Lemma one_plus_not_zero (y : float) :
  has_sign false (Prim2SF y) -> PrimFloat.eqb (1 + y) 0 = false.
Proof.
  intros Hy.
  rewrite FloatAxioms.eqb_spec, FloatAxioms.add_spec, Prim2SF_one, Prim2SF_zero.
  apply SFadd_one_not_zero; [reflexivity | exact Hy].
Qed.

End FloatFacts.

(* ================================================================== *)
(** ** The Wilson interval *)

Module WilsonFacts.

Import Wilson.

Lemma div_int_nonzero (x : float) (d : Z) :
  d <> 0 -> div_int x d = Some (PrimFloat.div x (of_int d)).
Proof.
  intros Hd. unfold div_int. destruct (Z.eqb_spec d 0); [contradiction|].
  reflexivity.
Qed.

(** Past the guard, only the division by [denom] can still raise. *)
Lemma wilson_ci_nonzero (k n : Z) (z : float) :
  n <> 0 ->
  wilson_ci k n z
  = if is_zero (denom_of n z) then None
    else Some (p_of k n,
               (center_of k n z - half_of k n z)%float,
               (center_of k n z + half_of k n z)%float).
Proof.
  intros Hn. unfold wilson_ci.
  destruct (Z.eqb_spec n 0) as [E|_]; [contradiction|].
  assert (H2 : 2 * n <> 0) by lia. assert (H4 : 4 * n <> 0) by lia.
  cbv beta iota zeta delta [bind div_float center_of half_of denom_of p_of].
  rewrite !div_int_nonzero by assumption.
  destruct (is_zero (1 + z * z / of_int n)); reflexivity.
Qed.

(** For a positive number of trials the denominator is not zero, whatever
    [z] is: [z * z / n] is a NaN or has a positive sign, and [1] plus such a
    number is not zero. *)
Lemma denom_not_zero (n : Z) (z : float) :
  0 < n -> is_zero (denom_of n z) = false.
Proof.
  intros Hn. unfold is_zero, denom_of. apply FloatFacts.one_plus_not_zero.
  rewrite FloatAxioms.div_spec, FloatAxioms.mul_spec.
  apply FloatFacts.SFdiv_sign; [apply FloatFacts.SFmul_self_sign|].
  unfold of_int. destruct (Z.ltb_spec n 0) as [Hneg|_]; [lia|].
  apply FloatFacts.of_uint63_sign.
Qed.

(** The sign does not take part in rounding. *)
Lemma binary_round_aux_opp (sx : bool) (mx ex : Z) (lx : location) :
  SFopp (binary_round_aux prec emax sx mx ex lx)
  = binary_round_aux prec emax (negb sx) mx ex lx.
Proof.
  unfold binary_round_aux.
  destruct (shr_fexp prec emax mx ex lx) as [mrs' e'].
  destruct (shr_fexp prec emax _ e' loc_Exact) as [mrs'' e''].
  destruct (shr_m mrs''); [reflexivity | | reflexivity].
  destruct (e'' <=? emax - prec)%Z; reflexivity.
Qed.

(** Below [2^63] in absolute value, [of_int] rounds to nearest-even. *)
Lemma of_int_rounds (i : Z) :
  - 2 ^ 63 < i < 2 ^ 63 ->
  Prim2SF (of_int i) = binary_normalize prec emax i 0 false.
Proof.
  intros Hi. unfold of_int. destruct (Z.ltb_spec i 0) as [Hneg|Hpos].
  - rewrite FloatAxioms.opp_spec, FloatAxioms.of_uint63_spec.
    rewrite Uint63.of_Z_spec.
    rewrite Z.mod_small by (change wB with (2 ^ 63); lia).
    destruct i as [|q|q]; try lia. simpl Z.opp.
    unfold binary_normalize, binary_round.
    destruct (shl_align q 0 (fexp prec emax (Zpos (digits2_pos q) + 0)))
      as [mz ez].
    apply binary_round_aux_opp.
  - rewrite FloatAxioms.of_uint63_spec, Uint63.of_Z_spec.
    rewrite Z.mod_small by (change wB with (2 ^ 63); lia).
    reflexivity.
Qed.

Lemma wilson_ci_positive (k n : Z) (z : float) :
  0 < n ->
  wilson_ci k n z
  = Some (p_of k n,
          (center_of k n z - half_of k n z)%float,
          (center_of k n z + half_of k n z)%float).
Proof.
  intros Hn. rewrite wilson_ci_nonzero by lia.
  now rewrite denom_not_zero.
Qed.

Local Open Scope R_scope.






End WilsonFacts.

(** C6.  [wilson_ci(k, 0, z)] returns the triple of NaNs by its guard, before
    any division (its body alone raises there); for counts [0 < n <= 2^53]
    and [|k| <= 2^53] it raises nothing and returns [p], [center - half] and
    [center + half], with [p = k/n],
    [center = (p + z*z/(2n)) / (1 + z*z/n)] and
    [half = z * sqrt((p(1-p) + z*z/(4n)) / n) / (1 + z*z/n)], every
    operation being the binary64 one and every count entering as the
    binary64 number nearest to it (itself, in this range).  With the
    default [z], 5 out of 10 gives about (0.5, 0.23659, 0.76341), none out
    of 15 about (0, -1.4e-17, 0.20389), 19 out of 19 about
    (1, 0.83182, 1.0000000000000002) and 3 out of 10 about
    (0.3, 0.10779, 0.60323), to the last bit as stated. *)
Theorem wilson_ci_formula :
  (forall k z, Wilson.wilson_ci k 0 z = Some (nan, nan, nan)) /\
  (forall k z, Wilson.wilson_ci_unguarded k 0 z = None) /\
  (forall k n z,
      0 < n <= 2 ^ 53 -> - 2 ^ 53 <= k <= 2 ^ 53 ->
      Wilson.wilson_ci k n z
      = Some (Wilson.p_of k n,
              (Wilson.center_of k n z - Wilson.half_of k n z)%float,
              (Wilson.center_of k n z + Wilson.half_of k n z)%float)) /\
  (forall k n z,
      Wilson.p_of k n = (Wilson.of_int k / Wilson.of_int n)%float /\
      Wilson.center_of k n z
      = ((Wilson.p_of k n + z * z / Wilson.of_int (2 * n))
         / (1 + z * z / Wilson.of_int n))%float /\
      Wilson.half_of k n z
      = (z * PrimFloat.sqrt
               ((Wilson.p_of k n * (1 - Wilson.p_of k n)
                 + z * z / Wilson.of_int (4 * n)) / Wilson.of_int n)
         / (1 + z * z / Wilson.of_int n))%float) /\
  (forall i,
      - 2 ^ 63 < i < 2 ^ 63 ->
      Prim2SF (Wilson.of_int i) = binary_normalize prec emax i 0 false) /\
  (Wilson.of_int 0 = 0 /\ Wilson.of_int 10 = 10 /\
   Wilson.of_int (-3) = -3 /\ Wilson.of_int (2 ^ 53) = 0x1p53 /\
   Wilson.of_int (4 * 2 ^ 53) = 0x1p55)%float /\
  Wilson.wilson_ci 5 10 Wilson.z_default
  = Some (0.5, 0x1.e48915b93836ep-3, 0x1.86ddba91b1f24p-1)%float /\
  Wilson.wilson_ci 0 15 Wilson.z_default
  = Some (0, -0x1p-56, 0x1.a190b21642c86p-3)%float /\
  Wilson.wilson_ci 19 19 Wilson.z_default
  = Some (1, 0x1.a9e3bd261685fp-1, 0x1.0000000000001p+0)%float /\
  Wilson.wilson_ci 3 10 Wilson.z_default
  = Some (0x1.3333333333333p-2, 0x1.b9814289cc7aep-4,
          0x1.34da23f884afcp-1)%float.
Proof.
  split; [reflexivity|]. split; [reflexivity|]. split; [|split; [|split]].
  - intros k n z Hn _. apply WilsonFacts.wilson_ci_positive. lia.
  - intros k n z. repeat split.
  - apply WilsonFacts.of_int_rounds.
  - repeat split; vm_compute; reflexivity.
Qed.


(* ================================================================== *)
(** ** The odds-ratio table *)

Module InferenceFacts.

Import Inference.
Local Open Scope R_scope.

Lemma nth_map_exp (l : list R) (i : nat) :
  (i < List.length l)%nat -> nth i (map exp l) 0 = exp (nth i l 0).
Proof.
  intros Hi. rewrite (nth_indep _ 0 (exp 0)) by (now rewrite length_map).
  apply map_nth.
Qed.

Lemma map2_length {A B C : Type} (f : A -> B -> C) (l : list A) (m : list B) :
  List.length m = List.length l ->
  List.length (map2 f l m) = List.length l.
Proof.
  revert m. induction l as [|a l IH]; intros [|b m]; simpl; intros H;
    try reflexivity; try discriminate.
  f_equal. apply IH. now inversion H.
Qed.

Lemma nth_map2 {A B C : Type} (f : A -> B -> C) (l : list A) (m : list B)
      (i : nat) (da : A) (db : B) (dc : C) :
  List.length m = List.length l -> (i < List.length l)%nat ->
  nth i (map2 f l m) dc = f (nth i l da) (nth i m db).
Proof.
  revert m i. induction l as [|a l IH]; intros [|b m] [|i]; simpl;
    intros H Hi; try lia; try discriminate; try reflexivity.
  apply IH; [now inversion H | lia].
Qed.

Lemma nth_scaled (c : R) (l : list R) (i : nat) :
  nth i (map (Rmult c) l) 0 = c * nth i l 0.
Proof.
  rewrite <- (Rmult_0_r c) at 1. apply map_nth.
Qed.

Lemma tidy_or_table_rows (res : fit_result) (i : nat) :
  List.length (bse res) = List.length (params res) ->
  (i < List.length (params res))%nat ->
  nth i (coef (tidy_or_table res)) 0 = nth i (params res) 0 /\
  nth i (OR (tidy_or_table res)) 0 = exp (nth i (params res) 0) /\
  nth i (CI_low (tidy_or_table res)) 0
  = exp (nth i (params res) 0 - 1.96 * nth i (bse res) 0) /\
  nth i (CI_high (tidy_or_table res)) 0
  = exp (nth i (params res) 0 + 1.96 * nth i (bse res) 0).
Proof.
  intros Hlen Hi. simpl.
  assert (Hlen' : List.length (map (Rmult 1.96) (bse res))
                  = List.length (params res))
    by (now rewrite length_map).
  repeat split.
  - now apply nth_map_exp.
  - rewrite nth_map_exp by (now rewrite map2_length).
    rewrite (nth_map2 Rminus _ _ i 0 0 0 Hlen' Hi), nth_scaled.
    reflexivity.
  - rewrite nth_map_exp by (now rewrite map2_length).
    rewrite (nth_map2 Rplus _ _ i 0 0 0 Hlen' Hi), nth_scaled.
    reflexivity.
Qed.

End InferenceFacts.

(** C8.  For a model fitted by [fit_logit_cluster], i.e. by statsmodels with
    the covariance clustered on the given column, whose standard errors come
    one per coefficient, row [i] of the table of [tidy_or_table] holds the
    coefficient, [OR = exp(coef)], [CI_low = exp(coef - 1.96 * SE)] and
    [CI_high = exp(coef + 1.96 * SE)], with [SE] the [i]-th standard error
    of that fit. *)
Theorem odds_ratio_wald_interval
        (data_frame : Type) (column : data_frame -> string -> list string)
        (logit_fit : string -> data_frame -> Inference.cov_type
                     -> Inference.fit_result)
        (d : data_frame) (formula cluster_col : string) (i : nat) :
  let res :=
    Inference.fit_logit_cluster data_frame column logit_fit d formula
                                cluster_col in
  List.length (Inference.bse res) = List.length (Inference.params res) ->
  (i < List.length (Inference.params res))%nat ->
  res = logit_fit formula d (Inference.cluster (column d cluster_col)) /\
  nth i (Inference.coef (Inference.tidy_or_table res)) 0%R
  = nth i (Inference.params res) 0%R /\
  nth i (Inference.OR (Inference.tidy_or_table res)) 0%R
  = exp (nth i (Inference.coef (Inference.tidy_or_table res)) 0%R) /\
  nth i (Inference.CI_low (Inference.tidy_or_table res)) 0%R
  = exp (nth i (Inference.coef (Inference.tidy_or_table res)) 0%R
         - 1.96 * nth i (Inference.bse res) 0%R)%R /\
  nth i (Inference.CI_high (Inference.tidy_or_table res)) 0%R
  = exp (nth i (Inference.coef (Inference.tidy_or_table res)) 0%R
         + 1.96 * nth i (Inference.bse res) 0%R)%R.
Proof.
  intros res Hlen Hi.
  destruct (InferenceFacts.tidy_or_table_rows res i Hlen Hi)
    as [Hc [Ho [Hl Hh]]].
  split; [reflexivity|]. rewrite Hc. auto.
Qed.

(* ================================================================== *)
(** ** The strict cast of [RQ1_LABELED_SQL] *)

Module Rq1Facts.

Lemma all_ok_each {A B : Type} (f : A -> result B) (l : list A)
      (rows : list B) (a : A) :
  Rq1.all_ok f l = Ok rows -> In a l -> exists b, f a = Ok b.
Proof.
  revert rows. induction l as [|x l IH]; simpl; intros rows H Hin.
  - destruct Hin.
  - destruct (f x) as [b|s] eqn:Hfx; [|discriminate].
    destruct (Rq1.all_ok f l) as [bs|s] eqn:Hl; [|discriminate].
    destruct Hin as [->|Hin]; [eauto | exact (IH bs eq_refl Hin)].
Qed.

(** One unparsable [created_at] anywhere makes [rq1_labeled] fail. *)
Lemma rq1_labeled_aborts (db : database) (p : pull_request_row)
      (s : string) :
  In p (pull_request db) -> created_at p = Some (RawBad s) ->
  forall rows, Rq1.rq1_labeled db <> Ok rows.
Proof.
  intros Hp Hbad rows Hok.
  destruct (all_ok_each _ _ _ _ Hok Hp) as [r Hr].
  unfold Rq1.label in Hr. rewrite Hbad in Hr. discriminate.
Qed.

(** The base set of [build_rq2_features.py] keeps such a row, with a null
    creation time. *)
Lemma try_cast_unparsable (s : string) :
  try_cast_timestamp (Some (RawBad s)) = None.
Proof. reflexivity. Qed.

End Rq1Facts.

(** C9.  On a pull request whose [created_at] is the text "not-a-date", the
    labelling query of [run_rq1.py] fails as a whole with a conversion
    error, while the base set of [build_rq2_features.py] keeps the row with
    a null creation time. *)
Theorem strict_cast_aborts_rq1_labeled :
  Rq1.rq1_labeled Scenario.unparsable_db = ConversionError "not-a-date" /\
  map (fun b => (Labeler.b_pr_id b, Labeler.b_created_ts b,
                 Labeler.b_outcome b))
      (Labeler.rq2_base Scenario.unparsable_db)
  = [(Some 1, None, merged)].
Proof. split; reflexivity. Qed.

(* ================================================================== *)
(** ** The sample data *)

(** The end-to-end scenario: the human-authored and the open pull request
    are left out, the other two get the rows expected. *)
Example scenario_feature_table :
  Assembler.rq2_features Scenario.scenario_db
  = [Scenario.unreviewed_row; Scenario.reviewed_row].
Proof. vm_compute. reflexivity. Qed.

Example unparsable_feature_table :
  Assembler.rq2_features Scenario.unparsable_db = [Scenario.sentinel_row].
Proof. vm_compute. reflexivity. Qed.

(** C5, the claim as stated, fails: an identifier attributed to two agents
    gives two labelled rows and four rows of the feature table. *)
Lemma left_join_fans_out_on_duplicate_ids :
  List.length (Labeler.rq2_base Scenario.duplicate_id_db) = 2%nat /\
  List.length (Assembler.rq2_features Scenario.duplicate_id_db) = 4%nat /\
  map Assembler.pr_id (Assembler.rq2_features Scenario.duplicate_id_db)
  = [Some 1; Some 1; Some 1; Some 1].
Proof. repeat split; vm_compute; reflexivity. Qed.


Lemma left_join_lossless_on_distinct_ids_witness :
  List.length (Assembler.rq2_features Scenario.scenario_db)
  = List.length (Labeler.rq2_base Scenario.scenario_db) /\
  map Assembler.pr_id (Assembler.rq2_features Scenario.scenario_db)
  = map Labeler.b_pr_id (Labeler.rq2_base Scenario.scenario_db) /\
  (forall f,
      In f (Assembler.rq2_features Scenario.scenario_db) ->
      count_occ opt_Z_eq_dec
                (map Labeler.b_pr_id (Labeler.rq2_base Scenario.scenario_db))
                (Assembler.pr_id f) = 1%nat).
Proof.
  apply (left_join_lossless_on_distinct_ids Scenario.scenario_db).
  vm_compute. repeat constructor; simpl; intuition discriminate.
Defined.

Lemma reviewed_row_without_creation_gets_sentinel_witness :
  Assembler.hours_to_first_review
    (Transform.features (Transform.transform Scenario.sentinel_row)) = None /\
  Transform.log1p_hours_to_first_review
    (Transform.transform Scenario.sentinel_row) = 0%R.
Proof.
  apply (reviewed_row_without_creation_gets_sentinel Scenario.unparsable_db).
  - unfold Transform.df. apply in_map. vm_compute. left. reflexivity.
  - reflexivity.
  - intros p Hp _. simpl in Hp. destruct Hp as [<-|[]]. reflexivity.
Defined.

Lemma odds_ratio_wald_interval_witness :
  let res :=
    Inference.fit_logit_cluster
      unit (fun _ _ => ["r1"%string; "r1"%string])
      (fun _ _ _ => Scenario.sample_fit) tt
      "y_merged ~ has_review"%string "repo_id"%string in
  res = Scenario.sample_fit /\
  nth 1 (Inference.coef (Inference.tidy_or_table res)) 0%R
  = nth 1 (Inference.params res) 0%R /\
  nth 1 (Inference.OR (Inference.tidy_or_table res)) 0%R
  = exp (nth 1 (Inference.coef (Inference.tidy_or_table res)) 0%R) /\
  nth 1 (Inference.CI_low (Inference.tidy_or_table res)) 0%R
  = exp (nth 1 (Inference.coef (Inference.tidy_or_table res)) 0%R
         - 1.96 * nth 1 (Inference.bse res) 0%R)%R /\
  nth 1 (Inference.CI_high (Inference.tidy_or_table res)) 0%R
  = exp (nth 1 (Inference.coef (Inference.tidy_or_table res)) 0%R
         + 1.96 * nth 1 (Inference.bse res) 0%R)%R.
Proof.
  apply (odds_ratio_wald_interval
           unit (fun _ _ => ["r1"%string; "r1"%string])
           (fun _ _ _ => Scenario.sample_fit) tt
           "y_merged ~ has_review"%string "repo_id"%string 1%nat).
  - reflexivity.
  - simpl. lia.
Defined.

(* ================================================================== *)
(** ** The [ILIKE] patterns *)

Module LikeFacts.

Lemma like_percent (p : list ascii) (s : list ascii) :
  like ("%"%char :: p) s
  = like p s
    || match s with [] => false | _ :: s' => like ("%"%char :: p) s' end.
Proof. destruct s; reflexivity. Qed.

(** [%] followed by [p] matches [s] when [p] matches an end of [s]. *)
Lemma like_percent_iff (p : list ascii) (s : list ascii) :
  like ("%"%char :: p) s = true
  <-> exists pre suf, s = pre ++ suf /\ like p suf = true.
Proof.
  induction s as [|c s IH]; rewrite like_percent.
  - rewrite orb_false_r. split.
    + intros H. exists [], []. auto.
    + intros [pre [suf [E H]]]. symmetry in E.
      apply app_eq_nil in E. destruct E as [_ ->]. exact H.
  - rewrite orb_true_iff, IH. split.
    + intros [H|[pre [suf [E H]]]].
      * exists [], (c :: s). auto.
      * exists (c :: pre), suf. subst. auto.
    + intros [[|c' pre] [suf [E H]]]; simpl in E.
      * left. now subst.
      * right. inversion E. subst. eauto.
Qed.

Lemma like_percent_only (s : list ascii) : like ["%"%char] s = true.
Proof. apply like_percent_iff. exists s, []. now rewrite app_nil_r. Qed.

(** A run of ordinary characters matches itself, and nothing else. *)
Lemma like_word (w p s : list ascii) :
  wildcard_free w = true ->
  (like (w ++ p) s = true <-> exists suf, s = w ++ suf /\ like p suf = true).
Proof.
  revert s. induction w as [|c w IH]; intros s Hw; simpl app.
  - split; [eauto | intros [suf [-> H]]; exact H].
  - simpl in Hw. apply andb_true_iff in Hw. destruct Hw as [Hc Hw].
    apply andb_true_iff in Hc. destruct Hc as [Hc1 Hc2].
    apply negb_true_iff in Hc1, Hc2.
    simpl like. rewrite Hc1, Hc2. destruct s as [|c' s].
    + split; [discriminate | intros [suf [E _]]; discriminate E].
    + rewrite andb_true_iff, (IH s Hw), Ascii.eqb_eq. split.
      * intros [-> [suf [-> H]]]. eauto.
      * intros [suf [E H]]. inversion E. subst. eauto.
Qed.

Lemma like_contains (w s : list ascii) :
  wildcard_free w = true ->
  (like ("%"%char :: w ++ ["%"%char]) s = true <-> contains w s).
Proof.
  intros Hw. rewrite like_percent_iff. unfold contains. split.
  - intros [pre [suf [-> H]]]. apply (like_word w _ suf Hw) in H.
    destruct H as [post [-> _]]. eauto.
  - intros [pre [post ->]]. exists pre, (w ++ post). split; [reflexivity|].
    apply (like_word w _ _ Hw). exists post. split; [reflexivity|].
    apply like_percent_only.
Qed.

Lemma list_ascii_of_string_app (a b : string) :
  list_ascii_of_string (a ++ b)
  = list_ascii_of_string a ++ list_ascii_of_string b.
Proof. induction a as [|c a IH]; simpl; [reflexivity | now rewrite IH]. Qed.

Lemma contains_app_l (w pre l : list ascii) :
  contains w l -> contains w (pre ++ l).
Proof.
  intros [a [b ->]]. exists (pre ++ a), b. now rewrite <- app_assoc.
Qed.

Lemma like_underscore_iff (p : list ascii) (s : list ascii) :
  like ("_"%char :: p) s = true
  <-> exists c s', s = c :: s' /\ like p s' = true.
Proof.
  destruct s as [|c s]; simpl.
  - split; [discriminate | intros [c [s' [E _]]]; discriminate E].
  - split; [eauto | intros [c' [s' [E H]]]; inversion E; now subst].
Qed.

(** Whatever [%__tests__%] matches, [%test%] matches. *)
Lemma tests_pattern_subsumed (s : list ascii) :
  like (list_ascii_of_string "%__tests__%") s = true ->
  contains (list_ascii_of_string "test") s.
Proof.
  intros H. apply like_percent_iff in H. destruct H as [pre [suf [-> H]]].
  apply contains_app_l.
  apply like_underscore_iff in H. destruct H as [c1 [s1 [-> H]]].
  apply like_underscore_iff in H. destruct H as [c2 [s2 [-> H]]].
  apply (like_word (list_ascii_of_string "tests")
                   (list_ascii_of_string "__%") s2 eq_refl) in H.
  destruct H as [post [-> _]].
  exists [c1; c2], ("s"%char :: post). reflexivity.
Qed.

Lemma ilike_contains (w s : string) :
  wildcard_free (lowered w) = true ->
  (ilike s ("%" ++ w ++ "%") = true <-> contains (lowered w) (lowered s)).
Proof.
  intros Hw. unfold ilike, lowered in *.
  rewrite !list_ascii_of_string_app, !map_app. simpl.
  exact (like_contains _ _ Hw).
Qed.

Lemma ilike_null_contains (w : string) (f : option string) :
  wildcard_free (lowered w) = true ->
  (ilike_null f ("%" ++ w ++ "%") = true
   <-> exists s, f = Some s /\ contains (lowered w) (lowered s)).
Proof.
  intros Hw. destruct f as [s|]; simpl.
  - rewrite (ilike_contains w s Hw). split.
    + intros H. eauto.
    + intros [s' [E H]]. inversion E. now subst.
  - split; [discriminate | intros [s [E _]]; discriminate E].
Qed.

End LikeFacts.

(** X1.  The test-file flag of one filename is 0 or 1; it is 1 exactly for
    a non-null filename that contains "test" or "spec" without regard to
    case: the pattern [%__tests__%] never decides, and a null filename is
    not a test file. *)
Theorem looks_like_test_meaning (f : option string) :
  (Extractors.looks_like_test f = 0 \/ Extractors.looks_like_test f = 1) /\
  (Extractors.looks_like_test f = 1
   <-> exists s, f = Some s /\
                 (contains (lowered "test") (lowered s) \/
                  contains (lowered "spec") (lowered s))).
Proof.
  unfold Extractors.looks_like_test.
  assert (Htest : forall s, ilike s "%test%" = true
                            <-> contains (lowered "test") (lowered s))
    by (intros s; now apply (LikeFacts.ilike_contains "test" s)).
  assert (Hspec : forall s, ilike s "%spec%" = true
                            <-> contains (lowered "spec") (lowered s))
    by (intros s; now apply (LikeFacts.ilike_contains "spec" s)).
  destruct f as [s|]; simpl ilike_null.
  - destruct (ilike s "%test%") eqn:E1.
    { simpl. split; [now right|]. split; [|reflexivity].
      intros _. exists s. split; [reflexivity|]. left. now apply Htest. }
    destruct (ilike s "%spec%") eqn:E2.
    { simpl. split; [now right|]. split; [|reflexivity].
      intros _. exists s. split; [reflexivity|]. right. now apply Hspec. }
    destruct (ilike s "%__tests__%") eqn:E3.
    { exfalso. apply LikeFacts.tests_pattern_subsumed in E3.
      apply Htest in E3. congruence. }
    simpl. split; [now left|]. split; [discriminate|].
    intros [s' [E [H|H]]]; inversion E; subst s'.
    + apply Htest in H. congruence.
    + apply Hspec in H. congruence.
  - simpl. split; [now left|]. split; [discriminate|].
    intros [s [E _]]. discriminate E.
Qed.

(* ================================================================== *)
(** ** What the feature columns say of the raw rows *)

Module BlockFacts.

Import Labeler Extractors Assembler SqlFacts AssemblerFacts.

Lemma same_key_sql_eq {R : Type} (key : R -> option Z) (k : option Z) (r : R) :
  k <> None -> same_key opt_Z_eq_dec key k r = sql_eq Z.eqb (key r) k.
Proof.
  intros Hk. unfold same_key. destruct (opt_Z_eq_dec (key r) k) as [E|E].
  - rewrite E. destruct k as [v|]; [|congruence].
    symmetry. apply sql_eq_Z_refl.
  - destruct (sql_eq Z.eqb (key r) k) eqn:Hs; [|reflexivity].
    apply sql_eq_Z_true in Hs. tauto.
Qed.

Lemma group_by_In {K R V : Type} (dec : forall x y : K, {x = y} + {x <> y})
      (key : R -> K) (agg : list R -> V) (rows : list R) (g : K * V) :
  In g (group_by dec key agg rows)
  <-> In (fst g) (map key rows) /\
      snd g = agg (filter (same_key dec key (fst g)) rows).
Proof.
  unfold group_by. rewrite in_map_iff. split.
  - intros [k [<- Hk]]. apply nodup_In in Hk. simpl. auto.
  - intros [Hk Hv]. exists (fst g). split.
    + destruct g as [k v]. simpl in *. now subst.
    + now apply nodup_In.
Qed.

Section Lookup.
Context {A R V : Type}.
Variable idof : A -> option Z.
Variable key : R -> option Z.
Variable agg : list R -> V.
Variable rows : list R.

(** What a left join against a grouped block attaches to a row: the
    aggregate of the raw rows with its identifier, or nothing when there is
    no such raw row. *)
Lemma left_join_group (l : list A) (a : A) (og : option (option Z * V)) :
  In (a, og)
     (left_join l (group_by opt_Z_eq_dec key agg rows)
                (fun a g => sql_eq Z.eqb (fst g) (idof a))) ->
  idof a <> None ->
  match og with
  | Some g =>
      snd g = agg (matching idof key rows a) /\
      matching idof key rows a <> []
  | None => matching idof key rows a = []
  end.
Proof.
  intros Hin Hid. apply in_left_join in Hin. destruct Hin as [_ H].
  destruct og as [g|].
  - destruct H as [Hg Hon]. apply sql_eq_Z_true in Hon.
    destruct Hon as [Hk _]. apply group_by_In in Hg.
    destruct Hg as [Hkey Hv]. rewrite Hk in *. split.
    + rewrite Hv. f_equal. apply filter_ext. intros r.
      now apply same_key_sql_eq.
    + apply in_map_iff in Hkey. destruct Hkey as [r [Hr Hin]].
      intros Hnil.
      assert (Hf : In r (matching idof key rows a)).
      { apply filter_In. split; [exact Hin|]. rewrite Hr.
        destruct (idof a); [apply sql_eq_Z_refl | congruence]. }
      rewrite Hnil in Hf. destruct Hf.
  - unfold matching.
    destruct (filter (fun r => sql_eq Z.eqb (key r) (idof a)) rows)
      as [|r m] eqn:Hm; [reflexivity|].
    exfalso.
    assert (Hr : In r (r :: m)) by now left.
    rewrite <- Hm in Hr. apply filter_In in Hr. destruct Hr as [Hr Hon].
    apply sql_eq_Z_true in Hon. destruct Hon as [Hk _].
    assert (Hg : In (idof a, agg (filter (same_key opt_Z_eq_dec key (idof a))
                                         rows))
                    (group_by opt_Z_eq_dec key agg rows)).
    { apply group_by_In. simpl. split; [|reflexivity].
      rewrite <- Hk. now apply in_map. }
    assert (Hf : In (idof a,
                     agg (filter (same_key opt_Z_eq_dec key (idof a)) rows))
                    (filter (fun g => sql_eq Z.eqb (fst g) (idof a))
                            (group_by opt_Z_eq_dec key agg rows))).
    { apply filter_In. split; [exact Hg|]. simpl.
      destruct (idof a); [apply sql_eq_Z_refl | congruence]. }
    rewrite H in Hf. destruct Hf.
Qed.
End Lookup.

(** The columns of the three grouped blocks, read off the raw rows. *)
Lemma grouped_columns (db : database) (f : feature_row) :
  In f (rq2_features db) ->
  pr_id f <> None /\
  n_commits f = count_distinct (map sha (commits_of db (pr_id f))) /\
  delta_loc f
  = coalesce
      (opt_add
         (sql_sum (map (fun r => coalesce (additions r) 0)
                       (details_of db (pr_id f))))
         (sql_sum (map (fun r => coalesce (deletions r) 0)
                       (details_of db (pr_id f))))) 0 /\
  n_files f
  = count_distinct
      (filter (fun x => is_not_null x)
              (map filename (details_of db (pr_id f)))) /\
  tests_added f
  = coalesce (sql_max (map (fun r => looks_like_test (filename r))
                           (details_of db (pr_id f)))) 0 /\
  force_push f
  = coalesce (sql_max (map mentions_force (timeline_of db (pr_id f)))) 0.
Proof.
  unfold rq2_features. rewrite in_map_iff. intros [j [<- Hj]].
  rewrite joined_unfold in Hj.
  destruct j as [[[[b c] ch] fp] rv].
  apply in_left_join in Hj. destruct Hj as [Hj3 _].
  assert (Hb : In b (rq2_base db)).
  { rewrite <- (joined3_base db).
    apply (in_map (fun x => fst (fst (fst x)))) in Hj3. exact Hj3. }
  pose proof (base_id_not_null db b Hb) as Hid.
  unfold joined3 in Hj3.
  pose proof (left_join_group (fun bcc => b_pr_id (fst (fst bcc)))
                              tl_pr_id _ _ _ _ _ Hj3 Hid) as Hfp.
  apply in_left_join in Hj3. destruct Hj3 as [Hj2 _].
  pose proof (left_join_group (fun bc => b_pr_id (fst bc))
                              cd_pr_id _ _ _ _ _ Hj2 Hid) as Hch.
  apply in_left_join in Hj2. destruct Hj2 as [Hj1 _].
  pose proof (left_join_group b_pr_id pc_pr_id _ _ _ _ _ Hj1 Hid) as Hc.
  unfold matching in *. simpl in Hfp, Hch, Hc. simpl.
  fold (commits_of db (b_pr_id b)) in Hc.
  fold (details_of db (b_pr_id b)) in Hch.
  fold (timeline_of db (b_pr_id b)) in Hfp.
  split; [exact Hid|]. split; [|split; [|split; [|split]]].
  - destruct c as [g|]; simpl.
    + destruct Hc as [-> _]. reflexivity.
    + rewrite Hc. reflexivity.
  - destruct ch as [g|]; simpl.
    + destruct Hch as [-> _]. reflexivity.
    + rewrite Hch. reflexivity.
  - destruct ch as [g|]; simpl.
    + destruct Hch as [-> _]. reflexivity.
    + rewrite Hch. reflexivity.
  - destruct ch as [g|]; simpl.
    + destruct Hch as [-> _]. reflexivity.
    + rewrite Hch. reflexivity.
  - destruct fp as [g|]; simpl.
    + destruct Hfp as [-> _]. reflexivity.
    + rewrite Hfp. reflexivity.
Qed.

Lemma non_null_length {A : Type} (l : list (option A)) :
  (List.length (non_null l) <= List.length l)%nat.
Proof.
  induction l as [|[a|] l IH]; simpl; lia.
Qed.

Lemma nodup_length {A : Type} (dec : forall x y : A, {x = y} + {x <> y})
      (l : list A) :
  (List.length (nodup dec l) <= List.length l)%nat.
Proof.
  induction l as [|a l IH]; simpl; [lia|].
  destruct (in_dec dec a l); simpl; lia.
Qed.

Lemma count_distinct_bounds (l : list (option string)) :
  0 <= count_distinct l <= Z.of_nat (List.length l).
Proof.
  unfold count_distinct.
  pose proof (nodup_length string_dec (non_null l)).
  pose proof (non_null_length l). lia.
Qed.

Lemma fold_max_spec (x : Z) (t : list Z) :
  In (fold_right Z.max x t) (x :: t) /\
  (forall y, In y (x :: t) -> y <= fold_right Z.max x t).
Proof.
  induction t as [|z t [IHin IHmax]]; simpl.
  - split; [now left | intros y [->|[]]; lia].
  - split.
    + destruct (Z.max_spec z (fold_right Z.max x t)) as [[_ ->]|[_ ->]].
      * simpl in IHin. tauto.
      * right. now left.
    + intros y [->|[->|Hy]].
      * specialize (IHmax _ (or_introl eq_refl)). lia.
      * lia.
      * specialize (IHmax y (or_intror Hy)). lia.
Qed.

(** [MAX] over flags, with [COALESCE(.., 0)]: a flag, set when one is. *)
Lemma sql_max_flags (l : list Z) :
  (forall x, In x l -> x = 0 \/ x = 1) ->
  (coalesce (sql_max l) 0 = 0 \/ coalesce (sql_max l) 0 = 1) /\
  (coalesce (sql_max l) 0 = 1 <-> In 1 l).
Proof.
  destruct l as [|x t]; simpl.
  - intros _. split; [now left|]. split; [discriminate | tauto].
  - intros Hflag. destruct (fold_max_spec x t) as [Hin Hmax].
    split; [apply Hflag, Hin|]. split.
    + intros H. rewrite <- H. exact Hin.
    + intros H1. specialize (Hmax 1 H1).
      destruct (Hflag _ Hin) as [H|H]; [lia | exact H].
Qed.

End BlockFacts.

Section BlockMeaning.

Import Labeler Extractors Assembler Transform SqlFacts AssemblerFacts BlockFacts.

(** X2.  In every row of the feature table [n_commits] is the number of
    distinct non-null [sha] among the [pr_commits] rows of the pull request,
    however often a row is repeated: it lies between 0 and the number of
    those rows, and without any such row it is 0 and the bucket is 1. *)
Theorem commit_count_meaning (db : database) (f : feature_row) :
  In f (rq2_features db) ->
  n_commits f = count_distinct (map sha (commits_of db (pr_id f))) /\
  0 <= n_commits f <= Z.of_nat (List.length (commits_of db (pr_id f))) /\
  (commits_of db (pr_id f) = [] -> n_commits f = 0 /\ commit_bucket f = 1).
Proof.
  intros Hf. destruct (grouped_columns db f Hf) as [_ [Hn _]].
  split; [exact Hn|]. split.
  - rewrite Hn.
    pose proof (count_distinct_bounds (map sha (commits_of db (pr_id f)))) as H.
    rewrite length_map in H. exact H.
  - intros Hnil. rewrite Hnil in Hn. split; [exact Hn|].
    apply in_rq2_features in Hf. destruct Hf as [j [E _]].
    rewrite E in *. rewrite select_commits, Hn. reflexivity.
Qed.

Lemma commit_count_meaning_witness :
  n_commits Scenario.unreviewed_row
  = count_distinct
      (map sha (commits_of Scenario.scenario_db
                           (pr_id Scenario.unreviewed_row))) /\
  0 <= n_commits Scenario.unreviewed_row
  <= Z.of_nat (List.length (commits_of Scenario.scenario_db
                                       (pr_id Scenario.unreviewed_row))) /\
  (commits_of Scenario.scenario_db (pr_id Scenario.unreviewed_row) = [] ->
   n_commits Scenario.unreviewed_row = 0 /\
   commit_bucket Scenario.unreviewed_row = 1).
Proof.
  apply (commit_count_meaning Scenario.scenario_db Scenario.unreviewed_row).
  vm_compute. left. reflexivity.
Defined.

Lemma sum_nonneg (l : list Z) : (forall x, In x l -> 0 <= x) -> 0 <= sum l.
Proof.
  induction l as [|a l IH]; simpl; intros H; [lia|].
  assert (0 <= a) by (apply H; now left).
  assert (0 <= sum l) by (apply IH; intros; apply H; now right). lia.
Qed.

Lemma churn_sum (A D : list Z) :
  List.length A = List.length D ->
  coalesce (opt_add (sql_sum A) (sql_sum D)) 0 = sum A + sum D.
Proof.
  destruct A as [|a A], D as [|d D]; simpl; intros H;
    try discriminate; reflexivity.
Qed.

(** X3.  In every row [delta_loc] is the sum of the additions plus the sum
    of the deletions over the [pr_commit_details] rows of the pull request,
    a null counting as 0 (so 0 without rows, and every repeated row counted
    again), and [n_files] is the number of distinct non-null filenames; the
    latter is never negative, the former is not when no amount is. *)
Theorem churn_meaning (db : database) (f : feature_row) :
  In f (rq2_features db) ->
  delta_loc f
  = sum (map (fun r => coalesce (additions r) 0) (details_of db (pr_id f)))
    + sum (map (fun r => coalesce (deletions r) 0) (details_of db (pr_id f)))
  /\
  n_files f
  = count_distinct (filter (fun x => is_not_null x)
                           (map filename (details_of db (pr_id f)))) /\
  0 <= n_files f <= Z.of_nat (List.length (details_of db (pr_id f))) /\
  ((forall r, In r (details_of db (pr_id f)) ->
              0 <= coalesce (additions r) 0 /\ 0 <= coalesce (deletions r) 0)
   -> 0 <= delta_loc f).
Proof.
  intros Hf. destruct (grouped_columns db f Hf) as [_ [_ [Hd [Hn _]]]].
  rewrite churn_sum in Hd by (now rewrite !length_map).
  split; [exact Hd|]. split; [exact Hn|]. split.
  - rewrite Hn.
    pose proof (count_distinct_bounds
                  (filter (fun x => is_not_null x)
                          (map filename (details_of db (pr_id f))))) as H.
    pose proof (filter_length_le (fun x : option string => is_not_null x)
                  (map filename (details_of db (pr_id f)))) as H'.
    rewrite length_map in H'. lia.
  - intros Hpos. rewrite Hd.
    assert (0 <= sum (map (fun r => coalesce (additions r) 0)
                          (details_of db (pr_id f)))).
    { apply sum_nonneg. intros x Hx. apply in_map_iff in Hx.
      destruct Hx as [r [<- Hr]]. now apply Hpos. }
    assert (0 <= sum (map (fun r => coalesce (deletions r) 0)
                          (details_of db (pr_id f)))).
    { apply sum_nonneg. intros x Hx. apply in_map_iff in Hx.
      destruct Hx as [r [<- Hr]]. now apply Hpos. }
    lia.
Qed.

Lemma churn_meaning_witness :
  let db := Scenario.scenario_db in
  let f := Scenario.reviewed_row in
  delta_loc f
  = sum (map (fun r => coalesce (additions r) 0) (details_of db (pr_id f)))
    + sum (map (fun r => coalesce (deletions r) 0) (details_of db (pr_id f)))
  /\
  n_files f
  = count_distinct (filter (fun x => is_not_null x)
                           (map filename (details_of db (pr_id f)))) /\
  0 <= n_files f <= Z.of_nat (List.length (details_of db (pr_id f))) /\
  ((forall r, In r (details_of db (pr_id f)) ->
              0 <= coalesce (additions r) 0 /\ 0 <= coalesce (deletions r) 0)
   -> 0 <= delta_loc f).
Proof.
  apply (churn_meaning Scenario.scenario_db Scenario.reviewed_row).
  vm_compute. right. left. reflexivity.
Defined.

Lemma looks_like_test_flag (x : option string) :
  looks_like_test x = 0 \/ looks_like_test x = 1.
Proof.
  unfold looks_like_test.
  destruct (ilike_null x "%test%" || ilike_null x "%spec%"
            || ilike_null x "%__tests__%"); auto.
Qed.

Lemma mentions_force_flag (e : pr_timeline_row) :
  mentions_force e = 0 \/ mentions_force e = 1.
Proof.
  unfold mentions_force.
  destruct (ilike_null (event e) "%force%"
            || ilike (coalesce (message e) EmptyString) "%force%"); auto.
Qed.

(** X4.  In every row [tests_added] is 0 or 1, and it is 1 exactly when
    some [pr_commit_details] row of the pull request has a filename that
    looks like a test; without such rows it is 0. *)
Theorem tests_added_meaning (db : database) (f : feature_row) :
  In f (rq2_features db) ->
  (tests_added f = 0 \/ tests_added f = 1) /\
  (tests_added f = 1
   <-> exists r, In r (details_of db (pr_id f)) /\
                 looks_like_test (filename r) = 1).
Proof.
  intros Hf. destruct (grouped_columns db f Hf) as [_ [_ [_ [_ [Ht _]]]]].
  rewrite Ht.
  destruct (sql_max_flags
              (map (fun r => looks_like_test (filename r))
                   (details_of db (pr_id f)))) as [Hrange Hiff].
  { intros x Hx. apply in_map_iff in Hx. destruct Hx as [r [<- _]].
    apply looks_like_test_flag. }
  split; [exact Hrange|]. rewrite Hiff, in_map_iff. split.
  - intros [r [H Hr]]. eauto.
  - intros [r [Hr H]]. eauto.
Qed.

Lemma tests_added_meaning_witness :
  let db := Scenario.scenario_db in
  let f := Scenario.reviewed_row in
  (tests_added f = 0 \/ tests_added f = 1) /\
  (tests_added f = 1
   <-> exists r, In r (details_of db (pr_id f)) /\
                 looks_like_test (filename r) = 1).
Proof.
  apply (tests_added_meaning Scenario.scenario_db Scenario.reviewed_row).
  vm_compute. right. left. reflexivity.
Defined.

Lemma mentions_force_spec (e : pr_timeline_row) :
  mentions_force e = 1
  <-> (exists s, event e = Some s /\ contains (lowered "force") (lowered s)) \/
      (exists s, message e = Some s /\
                 contains (lowered "force") (lowered s)).
Proof.
  unfold mentions_force.
  pose proof (LikeFacts.ilike_null_contains "force" (event e) eq_refl) as He.
  pose proof (LikeFacts.ilike_null_contains "force" (message e) eq_refl) as Hm.
  simpl append in He, Hm.
  assert (Hmsg : ilike (coalesce (message e) EmptyString) "%force%"
                 = ilike_null (message e) "%force%").
  { destruct (message e) as [s|]; reflexivity. }
  rewrite Hmsg.
  destruct (ilike_null (event e) "%force%") eqn:E1;
    destruct (ilike_null (message e) "%force%") eqn:E2; simpl;
    split; intros H; try reflexivity; try discriminate.
  - left. now apply He.
  - left. now apply He.
  - right. now apply Hm.
  - destruct H as [H|H]; [apply He in H | apply Hm in H]; discriminate.
Qed.

(** X5.  In every row [force_push] is 0 or 1, and it is 1 exactly when some
    [pr_timeline] row of the pull request has an event type or a message
    that contains "force" without regard to case (a null message matching
    nothing); without such rows it is 0. *)
Theorem force_push_meaning (db : database) (f : feature_row) :
  In f (rq2_features db) ->
  (force_push f = 0 \/ force_push f = 1) /\
  (force_push f = 1
   <-> exists e,
        In e (timeline_of db (pr_id f)) /\
        ((exists s, event e = Some s /\
                    contains (lowered "force") (lowered s)) \/
         (exists s, message e = Some s /\
                    contains (lowered "force") (lowered s)))).
Proof.
  intros Hf. destruct (grouped_columns db f Hf) as [_ [_ [_ [_ [_ Hp]]]]].
  rewrite Hp.
  destruct (sql_max_flags (map mentions_force (timeline_of db (pr_id f))))
    as [Hrange Hiff].
  { intros x Hx. apply in_map_iff in Hx. destruct Hx as [r [<- _]].
    apply mentions_force_flag. }
  split; [exact Hrange|]. rewrite Hiff, in_map_iff. split.
  - intros [e [H He]]. exists e. split; [exact He|].
    now apply mentions_force_spec.
  - intros [e [He H]]. exists e. split; [|exact He].
    now apply mentions_force_spec.
Qed.

Lemma force_push_meaning_witness :
  let db := Scenario.scenario_db in
  let f := Scenario.reviewed_row in
  (force_push f = 0 \/ force_push f = 1) /\
  (force_push f = 1
   <-> exists e,
        In e (timeline_of db (pr_id f)) /\
        ((exists s, event e = Some s /\
                    contains (lowered "force") (lowered s)) \/
         (exists s, message e = Some s /\
                    contains (lowered "force") (lowered s)))).
Proof.
  apply (force_push_meaning Scenario.scenario_db Scenario.reviewed_row).
  vm_compute. right. left. reflexivity.
Defined.

End BlockMeaning.

(* ================================================================== *)
(** ** The review columns *)

Module ReviewFacts.

Import Labeler Extractors Assembler SqlFacts AssemblerFacts BlockFacts.

(** [MIN] skips nulls: it is the least non-null value, and null exactly
    when there is none. *)
Lemma sql_min_spec (l : list (option Z)) :
  match sql_min l with
  | None => non_null l = []
  | Some m => In m (non_null l) /\ forall x, In x (non_null l) -> m <= x
  end.
Proof.
  induction l as [|[a|] l IH]; simpl; [reflexivity| |exact IH].
  fold (sql_min l). destruct (sql_min l) as [m|]; simpl.
  - destruct IH as [Hin Hmin]. split.
    + destruct (Z.min_spec a m) as [[_ ->]|[_ ->]]; auto.
    + intros x [<-|Hx]; [lia|]. specialize (Hmin x Hx). lia.
  - rewrite IH. split; [now left|]. intros x [<-|[]]. lia.
Qed.

(** What [f_reviews] attaches to a labelled row: the earliest parsable
    submission time among the reviews of its identifier. *)
Lemma first_review_of (db : database) (b : base_row)
      (fr : option (option Z * option Z)) :
  In (b, fr)
     (left_join (rq2_base db) (first_review db)
                (fun b fr => sql_eq Z.eqb (fst fr) (b_pr_id b))) ->
  In b (rq2_base db) /\
  first_review_ts fr
  = sql_min (map (fun r => try_cast_timestamp (submitted_at r))
                 (reviews_of db (b_pr_id b))).
Proof.
  intros Hin.
  assert (Hb : In b (rq2_base db)) by (apply in_left_join in Hin; tauto).
  split; [exact Hb|].
  pose proof (base_id_not_null db b Hb) as Hid.
  unfold first_review in Hin.
  pose proof (left_join_group b_pr_id rv_pr_id _ _ _ _ _ Hin Hid) as H.
  unfold matching in H. fold (reviews_of db (b_pr_id b)) in H.
  destruct fr as [[k ts]|]; simpl in *.
  - tauto.
  - rewrite H. reflexivity.
Qed.

(** The two review columns of a row, read off the raw rows. *)
Lemma review_columns (db : database) (f : feature_row) :
  In f (rq2_features db) ->
  exists b,
    In b (rq2_base db) /\ b_pr_id b = pr_id f /\
    let first :=
      sql_min (map (fun r => try_cast_timestamp (submitted_at r))
                   (reviews_of db (pr_id f))) in
    has_review f = (if is_not_null first then 1 else 0) /\
    hours_to_first_review f
    = match first, b_created_ts b with
      | Some t, Some created => Some (datediff_hour created t)
      | _, _ => None
      end.
Proof.
  unfold rq2_features. rewrite in_map_iff. intros [j [<- Hj]].
  rewrite joined_unfold in Hj. destruct j as [j3 rv].
  apply in_left_join in Hj. destruct Hj as [Hj3 Hrv].
  assert (Hb : In (fst (fst (fst j3))) (rq2_base db)).
  { rewrite <- (joined3_base db).
    apply (in_map (fun x => fst (fst (fst x)))) in Hj3. exact Hj3. }
  destruct j3 as [[[b c] ch] fp]. simpl in Hb, Hrv.
  pose proof (base_id_not_null db b Hb) as Hid.
  destruct rv as [r|].
  - destruct Hrv as [Hr Hon]. apply sql_eq_Z_true in Hon.
    destruct Hon as [Hrid _].
    unfold f_reviews in Hr. apply in_map_iff in Hr.
    destruct Hr as [[b' fr] [<- Hin]].
    apply first_review_of in Hin. destruct Hin as [Hb' Hfirst].
    simpl in Hrid. exists b'. split; [exact Hb'|]. split; [exact Hrid|].
    simpl. rewrite <- Hrid, <- Hfirst. split; reflexivity.
  - exfalso.
    assert (Hin : In (b_pr_id b) (map r_pr_id (f_reviews db))).
    { rewrite f_reviews_ids. now apply in_map. }
    apply in_map_iff in Hin. destruct Hin as [r [Hr Hin]].
    assert (Hf : In r (filter (fun rv => sql_eq Z.eqb (r_pr_id rv) (b_pr_id b))
                              (f_reviews db))).
    { apply filter_In. split; [exact Hin|]. rewrite Hr.
      destruct (b_pr_id b); [apply sql_eq_Z_refl | congruence]. }
    rewrite Hrv in Hf. destruct Hf.
Qed.

(** Every labelled row is in the feature table. *)
Lemma left_join_keeps {A B : Type} (on : A -> B -> bool)
      (l : list A) (r : list B) (a : A) :
  In a l -> exists ob, In (a, ob) (left_join l r on).
Proof.
  intros Ha. unfold left_join.
  destruct (filter (on a) r) as [|b m] eqn:Hm.
  - exists None. apply in_flat_map. exists a. split; [exact Ha|].
    rewrite Hm. now left.
  - exists (Some b). apply in_flat_map. exists a. split; [exact Ha|].
    rewrite Hm. now left.
Qed.

Lemma base_in_features (db : database) (b : base_row) :
  In b (rq2_base db) ->
  exists j, In j (joined db) /\ base_of j = b.
Proof.
  intros Hb. unfold joined, joined3.
  destruct (left_join_keeps
              (fun b c => sql_eq Z.eqb (fst c) (b_pr_id b))
              _ (f_commits db) b Hb) as [c H1].
  destruct (left_join_keeps
              (fun bc ch => sql_eq Z.eqb (fst ch) (b_pr_id (fst bc)))
              _ (f_changes db) _ H1) as [ch H2].
  destruct (left_join_keeps
              (fun bcc fp => sql_eq Z.eqb (fst fp) (b_pr_id (fst (fst bcc))))
              _ (f_forcepush db) _ H2) as [fp H3].
  destruct (left_join_keeps
              (fun j rv =>
                 sql_eq Z.eqb (r_pr_id rv) (b_pr_id (fst (fst (fst j)))))
              _ (f_reviews db) _ H3) as [rv H4].
  exists (b, c, ch, fp, rv). split; [exact H4 | reflexivity].
Qed.

End ReviewFacts.

Section ReviewMeaning.

Import Labeler Extractors Assembler Transform SqlFacts AssemblerFacts.
Import BlockFacts ReviewFacts.

(** X6.  In every row [has_review] is 0 or 1, and it is 1 exactly when some
    review of the pull request has a parsable submission time.  When
    [hours_to_first_review] is present it is the number of hour boundaries
    from the parsable creation time of a pull-request record of that
    identifier to the earliest parsable submission time; on a row with
    [has_review = 1] it is absent only when such a record has no parsable
    creation time. *)
Theorem review_columns_meaning (db : database) (f : feature_row) :
  In f (rq2_features db) ->
  (has_review f = 0 \/ has_review f = 1) /\
  (has_review f = 1 <-> review_times db (pr_id f) <> []) /\
  (forall h,
      hours_to_first_review f = Some h ->
      exists p created first,
        In p (pull_request db) /\ id p = pr_id f /\
        try_cast_timestamp (created_at p) = Some created /\
        In first (review_times db (pr_id f)) /\
        (forall t, In t (review_times db (pr_id f)) -> first <= t) /\
        h = datediff_hour created first) /\
  (has_review f = 1 -> hours_to_first_review f = None ->
   exists p, In p (pull_request db) /\ id p = pr_id f /\
             try_cast_timestamp (created_at p) = None).
Proof.
  intros Hf. destruct (review_columns db f Hf) as [b [Hb [Hid [Hhas Hh]]]].
  apply LabelerFacts.in_rq2_base in Hb. destruct Hb as [Hb _].
  apply LabelerFacts.in_labeled in Hb.
  destruct Hb as [t [p [_ [Hp [_ [Hidp [_ E]]]]]]].
  assert (Hpid : id p = pr_id f) by (rewrite <- Hid, E; simpl; exact Hidp).
  assert (Hcr : b_created_ts b = try_cast_timestamp (created_at p))
    by (rewrite E; reflexivity).
  rewrite Hcr in Hh. clear E Hcr.
  pose proof (sql_min_spec (map (fun r => try_cast_timestamp (submitted_at r))
                                (reviews_of db (pr_id f)))) as Hmin.
  fold (review_times db (pr_id f)) in Hmin.
  destruct (sql_min (map (fun r => try_cast_timestamp (submitted_at r))
                         (reviews_of db (pr_id f)))) as [first|];
    simpl in Hhas, Hh.
  - destruct Hmin as [Hin Hle]. rewrite Hhas.
    split; [now right|]. split; [|split].
    + split; [|reflexivity]. intros _ Hnil. rewrite Hnil in Hin. destruct Hin.
    + intros h Hsome. rewrite Hh in Hsome.
      destruct (try_cast_timestamp (created_at p)) as [created|] eqn:Hc;
        [|discriminate].
      inversion Hsome. subst h. exists p, created, first. auto 10.
    + intros _ Hnone. rewrite Hh in Hnone.
      destruct (try_cast_timestamp (created_at p)) as [created|] eqn:Hc;
        [discriminate|].
      exists p. auto.
  - rewrite Hhas, Hh. split; [now left|]. split; [|split].
    + split; [discriminate | intros H; contradiction].
    + intros h Hsome. discriminate.
    + intros H. discriminate.
Qed.

Lemma review_columns_meaning_witness :
  let db := Scenario.scenario_db in
  let f := Scenario.reviewed_row in
  (has_review f = 0 \/ has_review f = 1) /\
  (has_review f = 1 <-> review_times db (pr_id f) <> []) /\
  (forall h,
      hours_to_first_review f = Some h ->
      exists p created first,
        In p (pull_request db) /\ id p = pr_id f /\
        try_cast_timestamp (created_at p) = Some created /\
        In first (review_times db (pr_id f)) /\
        (forall t, In t (review_times db (pr_id f)) -> first <= t) /\
        h = datediff_hour created first) /\
  (has_review f = 1 -> hours_to_first_review f = None ->
   exists p, In p (pull_request db) /\ id p = pr_id f /\
             try_cast_timestamp (created_at p) = None).
Proof.
  apply (review_columns_meaning Scenario.scenario_db Scenario.reviewed_row).
  vm_compute. right. left. reflexivity.
Defined.




(** X8.  The feature table is complete: a task-type record with a non-null
    agent and a pull-request record of the same non-null identifier whose
    closed or merged time parses give a row, with that identifier, agent
    and repository and the merged indicator of that record. *)
Theorem eligible_pull_request_has_row
        (db : database) (t : pr_task_type_row) (p : pull_request_row) :
  In t (pr_task_type db) -> In p (pull_request db) ->
  tt_agent t <> None -> id p = tt_id t -> tt_id t <> None ->
  (try_cast_timestamp (closed_at p) <> None \/
   try_cast_timestamp (merged_at p) <> None) ->
  exists f,
    In f (rq2_features db) /\
    pr_id f = tt_id t /\ f_agent f = tt_agent t /\
    f_repo_id f = repo_id p /\
    y_merged f = y_merged_of (try_cast_timestamp (merged_at p)).
Proof.
  intros Ht Hp Hag Hid Hnn Hts.
  set (b := label ((tt_id t, tt_agent t), pr_of p)).
  assert (Hb : In b (rq2_base db)).
  { unfold rq2_base. apply filter_In. split.
    - unfold labeled. apply in_map. unfold inner_join. apply in_flat_map.
      exists (tt_id t, tt_agent t). split.
      + unfold agentic. apply nodup_In.
        apply (in_map (fun t => (tt_id t, tt_agent t))).
        apply filter_In. split; [exact Ht|].
        destruct (tt_agent t); [reflexivity | congruence].
      + apply in_map. apply filter_In. split.
        * unfold pr. now apply in_map.
        * simpl. rewrite Hid.
          destruct (tt_id t); [apply sql_eq_Z_refl | congruence].
    - unfold b. simpl. unfold outcome_of.
      destruct (try_cast_timestamp (merged_at p));
        destruct (try_cast_timestamp (closed_at p)); simpl;
          try reflexivity.
      destruct Hts; congruence. }
  destruct (base_in_features db b Hb) as [j [Hj Hbase]].
  exists (select j). split.
  - unfold rq2_features. now apply in_map.
  - destruct (select_base j) as [-> [-> [-> ->]]]. rewrite Hbase.
    repeat split.
Qed.

Lemma eligible_pull_request_has_row_witness :
  exists f,
    In f (rq2_features Scenario.scenario_db) /\
    pr_id f = tt_id (Scenario.task 2 (Some "B"%string)) /\
    f_agent f = tt_agent (Scenario.task 2 (Some "B"%string)) /\
    f_repo_id f
    = repo_id (Scenario.pull 2 (Some "B"%string) (Some (RawTs 0))
                             (Some (RawTs 50)) None) /\
    y_merged f
    = y_merged_of
        (try_cast_timestamp
           (merged_at (Scenario.pull 2 (Some "B"%string) (Some (RawTs 0))
                                     (Some (RawTs 50)) None))).
Proof.
  apply (eligible_pull_request_has_row Scenario.scenario_db).
  - simpl. right. left. reflexivity.
  - simpl. right. left. reflexivity.
  - discriminate.
  - reflexivity.
  - discriminate.
  - left. discriminate.
Defined.

End ReviewMeaning.

(* ================================================================== *)
(** ** Identifiers of the inputs and of the feature table *)

Module KeyFacts.

Import Labeler Extractors Assembler SqlFacts AssemblerFacts BlockFacts.

Lemma in_non_null {A : Type} (l : list (option A)) (x : A) :
  In x (non_null l) <-> In (Some x) l.
Proof.
  induction l as [|[a|] l IH]; simpl.
  - tauto.
  - rewrite IH. split; intros [H|H]; auto; left; congruence.
  - rewrite IH. split; [auto | intros [H|H]; [discriminate | exact H]].
Qed.

(** Under SQL's [=], a key matches at most one row of a relation whose
    non-null keys are pairwise distinct. *)
Lemma filter_unique_non_null {B : Type} (key : B -> option Z) (k : option Z)
      (r : list B) :
  NoDup (non_null (map key r)) ->
  (List.length (filter (fun b => sql_eq Z.eqb (key b) k) r) <= 1)%nat.
Proof.
  induction r as [|b r IH]; simpl; intros Hnd; [lia|].
  destruct (sql_eq Z.eqb (key b) k) eqn:Hb.
  - apply sql_eq_Z_true in Hb. destruct Hb as [Hkb Hnn].
    destruct (key b) as [v|] eqn:Hv; [|congruence].
    inversion Hnd as [|? ? Hnotin Hnd']. subst.
    assert (Hnil : filter (fun b => sql_eq Z.eqb (key b) (Some v)) r = []).
    { destruct (filter (fun b => sql_eq Z.eqb (key b) (Some v)) r)
        as [|b' m] eqn:Hf; [reflexivity|].
      exfalso. apply Hnotin.
      assert (Hin : In b' (filter (fun b => sql_eq Z.eqb (key b) (Some v)) r))
        by (rewrite Hf; now left).
      apply filter_In in Hin. destruct Hin as [Hin Hcb'].
      apply sql_eq_Z_true in Hcb'. destruct Hcb' as [Hk' _].
      apply in_non_null. rewrite <- Hk'. now apply in_map. }
    rewrite Hnil. simpl. lia.
  - apply IH. destruct (key b); [now inversion Hnd | exact Hnd].
Qed.

Lemma in_inner_join {A B : Type} (on : A -> B -> bool)
      (l : list A) (r : list B) (a : A) (b : B) :
  In (a, b) (inner_join l r on) -> In a l /\ In b r /\ on a b = true.
Proof.
  unfold inner_join. rewrite in_flat_map. intros [a0 [Ha H]].
  apply in_map_iff in H. destruct H as [b0 [E Hb]]. inversion E. subst.
  apply filter_In in Hb. tauto.
Qed.

(** An inner join of a relation with distinct keys against one that matches
    each of its rows at most once has distinct keys. *)
Lemma NoDup_inner_join_keys {A B K : Type} (ka : A -> K)
      (on : A -> B -> bool) (l : list A) (r : list B) :
  NoDup (map ka l) ->
  (forall a, In a l -> (List.length (filter (on a) r) <= 1)%nat) ->
  NoDup (map (fun ab => ka (fst ab)) (inner_join l r on)).
Proof.
  induction l as [|a l IH]; simpl; intros Hnd Hone; [constructor|].
  inversion Hnd as [|? ? Hnotin Hnd']. subst.
  rewrite map_app. apply NoDup_app.
  - specialize (Hone a (or_introl eq_refl)).
    destruct (filter (on a) r) as [|b [|b' m]]; simpl in *.
    + constructor.
    + constructor; [intros [] | constructor].
    + lia.
  - apply IH; [exact Hnd'|]. intros a' Ha'. apply Hone. now right.
  - intros x Hx Hx'. apply in_map_iff in Hx. destruct Hx as [[a0 b0] [<- H0]].
    apply in_map_iff in H0. destruct H0 as [b1 [E _]]. inversion E. subst.
    apply in_map_iff in Hx'. destruct Hx' as [[a1 b1] [E1 H1]].
    apply in_inner_join in H1. destruct H1 as [Ha1 _]. simpl in E1.
    apply Hnotin. rewrite <- E1. now apply in_map.
Qed.

Lemma NoDup_map_filter {A K : Type} (key : A -> K) (c : A -> bool)
      (l : list A) :
  NoDup (map key l) -> NoDup (map key (filter c l)).
Proof.
  induction l as [|a l IH]; simpl; intros Hnd; [constructor|].
  inversion Hnd as [|? ? Hnotin Hnd']. subst.
  destruct (c a); simpl; [|now apply IH].
  constructor; [|now apply IH].
  intros Hin. apply Hnotin. apply in_map_iff in Hin.
  destruct Hin as [x [E Hx]]. apply filter_In in Hx.
  rewrite <- E. apply in_map. tauto.
Qed.

Lemma NoDup_map_on {A K : Type} (key : A -> K) (l : list A) :
  (forall x y, In x l -> In y l -> key x = key y -> x = y) ->
  NoDup l -> NoDup (map key l).
Proof.
  induction l as [|a l IH]; simpl; intros Hinj Hnd; [constructor|].
  inversion Hnd as [|? ? Hnotin Hnd']. subst. constructor.
  - intros Hin. apply in_map_iff in Hin. destruct Hin as [x [E Hx]].
    apply Hnotin. rewrite <- (Hinj x a); auto.
  - apply IH; [|exact Hnd']. intros x y Hx Hy. apply Hinj; auto.
Qed.

(** An identifier with one agent is listed once in CTE [agentic]. *)
Lemma agentic_ids_distinct (db : database) :
  (forall t t',
      In t (pr_task_type db) -> In t' (pr_task_type db) ->
      tt_id t = tt_id t' -> tt_agent t <> None -> tt_agent t' <> None ->
      tt_agent t = tt_agent t') ->
  NoDup (map fst (agentic db)).
Proof.
  intros Hfun. apply NoDup_map_on; [|apply NoDup_nodup].
  intros x y Hx Hy Hxy. unfold agentic in Hx, Hy.
  apply nodup_In, in_map_iff in Hx. destruct Hx as [t [<- Ht]].
  apply nodup_In, in_map_iff in Hy. destruct Hy as [t' [<- Ht']].
  apply filter_In in Ht, Ht'. destruct Ht as [Ht Ha], Ht' as [Ht' Ha'].
  simpl in Hxy. f_equal; [exact Hxy|].
  apply Hfun; try assumption.
  - destruct (tt_agent t); [discriminate | discriminate Ha].
  - destruct (tt_agent t'); [discriminate | discriminate Ha'].
Qed.

Lemma base_ids_distinct (db : database) :
  NoDup (non_null (map id (pull_request db))) ->
  (forall t t',
      In t (pr_task_type db) -> In t' (pr_task_type db) ->
      tt_id t = tt_id t' -> tt_agent t <> None -> tt_agent t' <> None ->
      tt_agent t = tt_agent t') ->
  NoDup (map b_pr_id (rq2_base db)).
Proof.
  intros Hids Hfun. unfold rq2_base. apply NoDup_map_filter.
  unfold labeled. rewrite map_map.
  replace (map (fun x => b_pr_id (label x))
               (inner_join (agentic db) (pr db)
                           (fun a p => sql_eq Z.eqb (p_pr_id p) (fst a))))
    with (map (fun ab : (option Z * option string) * pr_row => fst (fst ab))
              (inner_join (agentic db) (pr db)
                          (fun a p => sql_eq Z.eqb (p_pr_id p) (fst a))))
    by (apply map_ext; intros [a p]; reflexivity).
  apply (NoDup_inner_join_keys fst).
  - now apply agentic_ids_distinct.
  - intros a _. apply filter_unique_non_null.
    unfold pr. rewrite map_map. exact Hids.
Qed.

(** Every identifier of [rq2_base] is a non-null identifier of
    [pull_request]. *)
Lemma base_ids_from_pull_request (db : database) :
  incl (map b_pr_id (rq2_base db))
       (map Some (non_null (map id (pull_request db)))).
Proof.
  intros x Hx. apply in_map_iff in Hx. destruct Hx as [b [<- Hb]].
  apply LabelerFacts.in_rq2_base in Hb. destruct Hb as [Hb _].
  apply LabelerFacts.in_labeled in Hb.
  destruct Hb as [t [p [_ [Hp [_ [Hid [Hnn ->]]]]]]]. simpl.
  destruct (tt_id t) as [v|] eqn:Hv; [|congruence].
  apply in_map, in_non_null. rewrite <- Hid. now apply in_map.
Qed.

(** *** Lookups in a grouped block *)

Lemma group_lookup {R V : Type} (key : R -> option Z) (agg : list R -> V)
      (rows : list R) (k : option Z) :
  k <> None ->
  filter (fun g => sql_eq Z.eqb (fst g) k)
         (group_by opt_Z_eq_dec key agg rows)
  = match filter (fun r => sql_eq Z.eqb (key r) k) rows with
    | [] => []
    | _ :: _ => [(k, agg (filter (fun r => sql_eq Z.eqb (key r) k) rows))]
    end.
Proof.
  intros Hk.
  pose proof (group_by_at_most_one key agg rows k) as Hlen.
  assert (Hjoin : forall og,
             In (k, og)
                (left_join [k] (group_by opt_Z_eq_dec key agg rows)
                           (fun a g => sql_eq Z.eqb (fst g) a)) ->
             match og with
             | Some g =>
                 snd g = agg (matching (fun a => a) key rows k) /\
                 matching (fun a => a) key rows k <> []
             | None => matching (fun a => a) key rows k = []
             end).
  { intros og Hin.
    exact (left_join_group (fun a => a) key agg rows [k] k og Hin Hk). }
  unfold matching in Hjoin. simpl in Hjoin. rewrite app_nil_r in Hjoin.
  destruct (filter (fun g => sql_eq Z.eqb (fst g) k)
                   (group_by opt_Z_eq_dec key agg rows))
    as [|g [|g' F]] eqn:HF; simpl in Hlen; [| |lia].
  - rewrite (Hjoin None) by (now left). reflexivity.
  - destruct (Hjoin (Some g)) as [Hv Hne]; [now left|].
    assert (Hg : In g (filter (fun g => sql_eq Z.eqb (fst g) k)
                               (group_by opt_Z_eq_dec key agg rows)))
      by (rewrite HF; now left).
    apply filter_In in Hg. destruct Hg as [_ Hon].
    apply sql_eq_Z_true in Hon. destruct Hon as [Hfst _].
    destruct (filter (fun r => sql_eq Z.eqb (key r) k) rows) as [|r0 m] eqn:Hm;
      [congruence|].
    destruct g as [k' v]. simpl in *. subst. reflexivity.
Qed.

Lemma left_join_ext {A B : Type} (on : A -> B -> bool)
      (l : list A) (r r' : list B) :
  (forall a, In a l -> filter (on a) r = filter (on a) r') ->
  left_join l r on = left_join l r' on.
Proof.
  induction l as [|a l IH]; simpl; intros H; [reflexivity|].
  rewrite (H a) by (now left). f_equal. apply IH.
  intros a' Ha'. apply H. now right.
Qed.

(** [COUNT(DISTINCT ..)] depends on the values present only. *)
Lemma count_distinct_same_values (l l' : list (option string)) :
  (forall x, In x l <-> In x l') -> count_distinct l = count_distinct l'.
Proof.
  intros H. unfold count_distinct. f_equal. apply Nat.le_antisymm;
    (apply NoDup_incl_length; [apply NoDup_nodup|]);
    intros x Hx; apply nodup_In; apply nodup_In in Hx;
    apply in_non_null; apply in_non_null in Hx; now apply H.
Qed.

Lemma f_commits_lookup (db : database) (l : list pr_commits_row)
      (k : option Z) :
  (forall c, In c l <-> In c (pr_commits db)) -> k <> None ->
  filter (fun g => sql_eq Z.eqb (fst g) k) (f_commits (with_commits db l))
  = filter (fun g => sql_eq Z.eqb (fst g) k) (f_commits db).
Proof.
  intros Hsame Hk. unfold f_commits. rewrite !group_lookup by exact Hk.
  simpl pr_commits.
  assert (Hin : forall c,
             In c (filter (fun r => sql_eq Z.eqb (pc_pr_id r) k) l)
             <-> In c (filter (fun r => sql_eq Z.eqb (pc_pr_id r) k)
                              (pr_commits db))).
  { intros c. rewrite !filter_In, Hsame. tauto. }
  assert (Hcount :
            count_distinct
              (map sha (filter (fun r => sql_eq Z.eqb (pc_pr_id r) k) l))
            = count_distinct
                (map sha (filter (fun r => sql_eq Z.eqb (pc_pr_id r) k)
                                 (pr_commits db)))).
  { apply count_distinct_same_values. intros x. rewrite !in_map_iff.
    split; intros [c [E Hc]]; exists c; (split; [exact E|]); now apply Hin. }
  rewrite Hcount.
  destruct (filter (fun r => sql_eq Z.eqb (pc_pr_id r) k) l) as [|c m] eqn:E1;
    destruct (filter (fun r => sql_eq Z.eqb (pc_pr_id r) k) (pr_commits db))
      as [|c' m'] eqn:E2; try reflexivity; exfalso.
  - destruct (proj2 (Hin c') (or_introl eq_refl)).
  - destruct (proj1 (Hin c) (or_introl eq_refl)).
Qed.

Lemma features_same_commits (db : database) (l : list pr_commits_row) :
  (forall c, In c l <-> In c (pr_commits db)) ->
  rq2_features (with_commits db l) = rq2_features db.
Proof.
  intros Hsame. unfold rq2_features, joined, joined3.
  change (rq2_base (with_commits db l)) with (rq2_base db).
  change (f_changes (with_commits db l)) with (f_changes db).
  change (f_forcepush (with_commits db l)) with (f_forcepush db).
  change (f_reviews (with_commits db l)) with (f_reviews db).
  do 4 f_equal. apply left_join_ext. intros b Hb.
  apply f_commits_lookup; [exact Hsame|]. now apply (base_id_not_null db).
Qed.

End KeyFacts.

Section Identifiers.

Import Labeler Extractors Assembler SqlFacts AssemblerFacts KeyFacts.

(** X9.  When the non-null identifiers of [pull_request] are pairwise
    distinct and no identifier of [pr_task_type] has two different non-null
    agents, the identifiers of [rq2_base] and of the feature table are
    pairwise distinct, the table has one row per labelled row, and at most
    one per pull-request record. *)
Theorem distinct_inputs_give_distinct_rows (db : database) :
  NoDup (non_null (map id (pull_request db))) ->
  (forall t t',
      In t (pr_task_type db) -> In t' (pr_task_type db) ->
      tt_id t = tt_id t' -> tt_agent t <> None -> tt_agent t' <> None ->
      tt_agent t = tt_agent t') ->
  NoDup (map b_pr_id (rq2_base db)) /\
  NoDup (map pr_id (rq2_features db)) /\
  List.length (rq2_features db) = List.length (rq2_base db) /\
  (List.length (rq2_features db) <= List.length (pull_request db))%nat.
Proof.
  intros Hids Hfun. pose proof (base_ids_distinct db Hids Hfun) as Hnd.
  pose proof (distinct_ids_same_ids db Hnd) as Hsame.
  assert (Hlen : List.length (rq2_features db) = List.length (rq2_base db)).
  { rewrite <- (length_map pr_id), Hsame. apply length_map. }
  split; [exact Hnd|]. split; [rewrite Hsame; exact Hnd|].
  split; [exact Hlen|]. rewrite Hlen, <- (length_map b_pr_id).
  eapply Nat.le_trans;
    [apply (NoDup_incl_length Hnd (base_ids_from_pull_request db))|].
  rewrite length_map. eapply Nat.le_trans; [apply BlockFacts.non_null_length|].
  rewrite length_map. apply Nat.le_refl.
Qed.

Lemma distinct_inputs_give_distinct_rows_witness :
  let db := Scenario.scenario_db in
  NoDup (map b_pr_id (rq2_base db)) /\
  NoDup (map pr_id (rq2_features db)) /\
  List.length (rq2_features db) = List.length (rq2_base db) /\
  (List.length (rq2_features db) <= List.length (pull_request db))%nat.
Proof.
  apply (distinct_inputs_give_distinct_rows Scenario.scenario_db).
  - vm_compute. repeat constructor; simpl; intuition discriminate.
  - intros t t' Ht Ht' Hid Ha Ha'. simpl in Ht, Ht'.
    destruct Ht as [<-|[<-|[<-|[<-|[]]]]];
      destruct Ht' as [<-|[<-|[<-|[<-|[]]]]];
      try reflexivity; try discriminate Hid;
      try (exfalso; apply Ha; reflexivity);
      try (exfalso; apply Ha'; reflexivity).
Defined.

(** X10.  Only the set of rows of [pr_commits] matters: repeating rows or
    listing them in another order leaves the whole feature table as it
    is. *)
Theorem repeated_commit_rows_change_nothing
        (db : database) (l : list pr_commits_row) :
  (forall c, In c l <-> In c (pr_commits db)) ->
  rq2_features (with_commits db l) = rq2_features db.
Proof.
  apply features_same_commits.
Qed.

Lemma repeated_commit_rows_change_nothing_witness :
  rq2_features
    (with_commits Scenario.scenario_db
                  (rev (pr_commits Scenario.scenario_db)
                   ++ pr_commits Scenario.scenario_db))
  = rq2_features Scenario.scenario_db.
Proof.
  apply (repeated_commit_rows_change_nothing Scenario.scenario_db).
  intros c. rewrite in_app_iff, <- in_rev. tauto.
Defined.

End Identifiers.

(* ================================================================== *)
(** ** The tables of [run_rq1.py] *)

Module Rq1SummaryFacts.

Import Rq1 Rq1Summary.

(** What a row of [rq1_labeled] holds, in terms of the permissive cast. *)
Lemma label_ok (p : pull_request_row) (r : labeled_row) :
  Rq1.label p = Ok r ->
  l_pr_id r = id p /\ l_agent r = agent p /\ l_repo_id r = repo_id p /\
  l_created_at r = try_cast_timestamp (created_at p) /\
  l_closed_at r = try_cast_timestamp (closed_at p) /\
  l_merged_at r = try_cast_timestamp (merged_at p) /\
  l_outcome r = Labeler.outcome_of (try_cast_timestamp (closed_at p))
                                   (try_cast_timestamp (merged_at p)) /\
  l_merged r = Labeler.y_merged_of (try_cast_timestamp (merged_at p)) /\
  l_closed_unmerged r
  = (if is_not_null (try_cast_timestamp (closed_at p))
        && is_null (try_cast_timestamp (merged_at p)) then 1 else 0) /\
  l_open r
  = (if is_null (try_cast_timestamp (closed_at p))
        && is_null (try_cast_timestamp (merged_at p)) then 1 else 0).
Proof.
  unfold Rq1.label.
  destruct (created_at p) as [[t1|s1]|]; simpl; try discriminate;
    destruct (closed_at p) as [[t2|s2]|]; simpl; try discriminate;
      destruct (merged_at p) as [[t3|s3]|]; simpl; try discriminate;
        intros H; inversion H; subst r; simpl; repeat split.
Qed.

Lemma label_succeeds (p : pull_request_row) :
  (exists r, Rq1.label p = Ok r)
  <-> forall s, created_at p <> Some (RawBad s) /\
                closed_at p <> Some (RawBad s) /\
                merged_at p <> Some (RawBad s).
Proof.
  unfold Rq1.label. split.
  - intros [r H] s.
    destruct (created_at p) as [[t1|s1]|]; simpl in H; try discriminate;
      destruct (closed_at p) as [[t2|s2]|]; simpl in H; try discriminate;
        destruct (merged_at p) as [[t3|s3]|]; simpl in H; try discriminate;
          repeat split; discriminate.
  - intros H.
    destruct (created_at p) as [[t1|s1]|];
      try (exfalso; destruct (H s1) as [H1 _]; now apply H1);
      destruct (closed_at p) as [[t2|s2]|];
        try (exfalso; destruct (H s2) as [_ [H2 _]]; now apply H2);
        destruct (merged_at p) as [[t3|s3]|];
          try (exfalso; destruct (H s3) as [_ [_ H3]]; now apply H3);
          simpl; eauto.
Qed.

Lemma all_ok_succeeds {A B : Type} (f : A -> result B) (l : list A) :
  (exists rows, all_ok f l = Ok rows)
  <-> forall a, In a l -> exists b, f a = Ok b.
Proof.
  induction l as [|a l IH]; simpl.
  - split; [intros _ a [] | eauto].
  - split.
    + intros [rows H] x Hx.
      destruct (f a) as [b|s] eqn:Hfa; [|discriminate].
      destruct (all_ok f l) as [bs|s] eqn:Hl; [|discriminate].
      destruct Hx as [<-|Hx]; [eauto|].
      apply (proj1 IH); eauto.
    + intros H. destruct (H a (or_introl eq_refl)) as [b Hb]. rewrite Hb.
      destruct (proj2 IH) as [bs Hbs]; [intros x Hx; apply H; now right|].
      rewrite Hbs. eauto.
Qed.

Lemma all_ok_map {A B C : Type} (f : A -> result B) (g : B -> C) (h : A -> C)
      (l : list A) (rows : list B) :
  all_ok f l = Ok rows ->
  (forall a b, f a = Ok b -> g b = h a) ->
  map g rows = map h l.
Proof.
  intros H Hgh. revert rows H. induction l as [|a l IH]; simpl; intros rows H.
  - inversion H. reflexivity.
  - destruct (f a) as [b|s] eqn:Hfa; [|discriminate].
    destruct (all_ok f l) as [bs|s] eqn:Hl; [|discriminate].
    inversion H. subst rows. simpl. f_equal; [now apply Hgh|].
    now apply IH.
Qed.

Lemma in_rows_of (db : database) (r : labeled_row) :
  In r (rows_of (rq1_labeled db)) ->
  exists p, In p (pull_request db) /\ Rq1.label p = Ok r.
Proof.
  unfold rq1_labeled. destruct (all_ok Rq1.label (pull_request db)) as [rows|s]
    eqn:H; simpl; [|intros []].
  intros Hr. exact (LabelerFacts.all_ok_In _ _ _ _ H Hr).
Qed.

Lemma label_partitioned (p : pull_request_row) (r : labeled_row) :
  Rq1.label p = Ok r -> partitioned r.
Proof.
  intros H. apply label_ok in H.
  destruct H as [_ [_ [_ [_ [_ [_ [_ [Hm [Hc Ho]]]]]]]]].
  unfold partitioned. rewrite Hm, Hc, Ho. unfold Labeler.y_merged_of, is_null.
  destruct (try_cast_timestamp (closed_at p)),
           (try_cast_timestamp (merged_at p)); simpl; auto.
Qed.

Lemma rows_partitioned (db : database) (rows : list labeled_row) :
  rq1_labeled db = Ok rows -> forall r, In r rows -> partitioned r.
Proof.
  intros H r Hr. destruct (LabelerFacts.all_ok_In _ _ _ _ H Hr) as [p [_ Hp]].
  exact (label_partitioned p r Hp).
Qed.

Lemma sum_flags {A : Type} (f : A -> Z) (l : list A) :
  (forall r, In r l -> f r = 0 \/ f r = 1) ->
  0 <= sum (map f l) <= Z.of_nat (List.length l).
Proof.
  induction l as [|a l IH]; intros H; [simpl; lia|].
  assert (Ha : f a = 0 \/ f a = 1) by (apply H; now left).
  assert (Hl : 0 <= sum (map f l) <= Z.of_nat (List.length l))
    by (apply IH; intros; apply H; now right).
  change (sum (map f (a :: l))) with (f a + sum (map f l)).
  change (List.length (a :: l)) with (S (List.length l)). lia.
Qed.

Lemma sum_partition (l : list labeled_row) :
  (forall r, In r l -> partitioned r) ->
  sum (map l_merged l) + sum (map l_closed_unmerged l) + sum (map l_open l)
  = Z.of_nat (List.length l).
Proof.
  induction l as [|a l IH]; intros H; [reflexivity|].
  assert (Ha : partitioned a) by (apply H; now left).
  assert (Hl := IH (fun r Hr => H r (or_intror Hr))).
  destruct Ha as [_ [_ [_ Ha]]].
  change (sum (map l_merged (a :: l))) with (l_merged a + sum (map l_merged l)).
  change (sum (map l_closed_unmerged (a :: l)))
    with (l_closed_unmerged a + sum (map l_closed_unmerged l)).
  change (sum (map l_open (a :: l))) with (l_open a + sum (map l_open l)).
  change (List.length (a :: l)) with (S (List.length l)). lia.
Qed.

(** The counts of a summary over a non-empty set of rows. *)
Lemma summarize_counts (rows : list labeled_row) :
  (forall r, In r rows -> partitioned r) -> rows <> [] ->
  exists k c o,
    n_merged (summarize rows) = Some k /\
    n_closed_unmerged (summarize rows) = Some c /\
    n_open (summarize rows) = Some o /\
    k + c + o = n_total (summarize rows) /\
    0 <= k /\ 0 <= c /\ 0 <= o /\ 1 <= n_total (summarize rows).
Proof.
  intros Hp Hne.
  pose proof (sum_partition rows Hp) as Hsum.
  pose proof (sum_flags l_merged rows (fun r Hr => proj1 (Hp r Hr))) as Hk.
  pose proof (sum_flags l_closed_unmerged rows
                        (fun r Hr => proj1 (proj2 (Hp r Hr)))) as Hc.
  pose proof (sum_flags l_open rows
                        (fun r Hr => proj1 (proj2 (proj2 (Hp r Hr))))) as Ho.
  destruct rows as [|a rows]; [congruence|].
  exists (sum (map l_merged (a :: rows))),
         (sum (map l_closed_unmerged (a :: rows))),
         (sum (map l_open (a :: rows))).
  unfold summarize. cbn [n_merged n_closed_unmerged n_open n_total].
  split; [reflexivity|]. split; [reflexivity|]. split; [reflexivity|].
  split; [exact Hsum|].
  change (List.length (a :: rows)) with (S (List.length rows)). lia.
Qed.

(** *** [ORDER BY n_total DESC] *)

Lemma in_insert_desc {A : Type} (key : A -> Z) (x y : A) (l : list A) :
  In y (insert_desc key x l) <-> y = x \/ In y l.
Proof.
  induction l as [|a l IH]; simpl.
  - split; intros [H|H]; auto; try (now destruct H).
  - destruct (key a <? key x); simpl; [|rewrite IH];
      split; intros H; intuition auto.
Qed.

Lemma in_order_by_desc {A : Type} (key : A -> Z) (y : A) (l : list A) :
  In y (order_by_desc key l) <-> In y l.
Proof.
  unfold order_by_desc. induction l as [|a l IH]; simpl; [tauto|].
  rewrite in_insert_desc, IH. split; intros [H|H]; auto.
Qed.

Lemma insert_desc_length {A : Type} (key : A -> Z) (x : A) (l : list A) :
  List.length (insert_desc key x l) = S (List.length l).
Proof.
  induction l as [|a l IH]; simpl; [reflexivity|].
  destruct (key a <? key x); simpl; [reflexivity | now rewrite IH].
Qed.

Lemma order_by_desc_length {A : Type} (key : A -> Z) (l : list A) :
  List.length (order_by_desc key l) = List.length l.
Proof.
  unfold order_by_desc. induction l as [|a l IH]; simpl; [reflexivity|].
  now rewrite insert_desc_length, IH.
Qed.

Lemma insert_desc_sum {A : Type} (key f : A -> Z) (x : A) (l : list A) :
  sum (map f (insert_desc key x l)) = f x + sum (map f l).
Proof.
  induction l as [|a l IH]; simpl; [reflexivity|].
  destruct (key a <? key x); simpl; [reflexivity|].
  unfold sum in *. simpl. rewrite IH. lia.
Qed.

Lemma order_by_desc_sum {A : Type} (key f : A -> Z) (l : list A) :
  sum (map f (order_by_desc key l)) = sum (map f l).
Proof.
  unfold order_by_desc. induction l as [|a l IH]; simpl; [reflexivity|].
  rewrite insert_desc_sum, IH. reflexivity.
Qed.

Lemma insert_desc_NoDup {A K : Type} (key : A -> Z) (g : A -> K)
      (x : A) (l : list A) :
  NoDup (map g (x :: l)) -> NoDup (map g (insert_desc key x l)).
Proof.
  induction l as [|a l IH]; simpl; intros H; [exact H|].
  destruct (key a <? key x); [exact H|]. simpl.
  inversion H as [|? ? Hx Hal]. subst.
  inversion Hal as [|? ? Ha Hl]. subst. constructor.
  - intros Hin. apply in_map_iff in Hin. destruct Hin as [y [E Hy]].
    apply in_insert_desc in Hy. destruct Hy as [->|Hy].
    + apply Hx. left. symmetry. exact E.
    + apply Ha. rewrite <- E. now apply in_map.
  - apply IH. simpl. constructor; [|exact Hl].
    intros Hin. apply Hx. now right.
Qed.

Lemma order_by_desc_NoDup {A K : Type} (key : A -> Z) (g : A -> K)
      (l : list A) :
  NoDup (map g l) -> NoDup (map g (order_by_desc key l)).
Proof.
  unfold order_by_desc. induction l as [|a l IH]; simpl; intros H; [exact H|].
  inversion H as [|? ? Ha Hl]. subst.
  apply insert_desc_NoDup. simpl. constructor; [|now apply IH].
  intros Hin. apply Ha. apply in_map_iff in Hin.
  destruct Hin as [y [E Hy]]. apply (proj1 (in_order_by_desc key y l)) in Hy.
  rewrite <- E. now apply in_map.
Qed.

Lemma insert_desc_descending {A : Type} (key : A -> Z) (x : A) (l : list A) :
  descending (map key l) -> descending (map key (insert_desc key x l)).
Proof.
  induction l as [|a l IH]; simpl; intros H.
  - split; [intros y []|exact I].
  - destruct H as [Hmax Hd]. destruct (Z.ltb_spec (key a) (key x)) as [Hlt|Hge].
    + simpl. split; [|split; assumption].
      intros y [<-|Hy]; [lia|]. specialize (Hmax y Hy). lia.
    + simpl. split; [|now apply IH].
      intros y Hy. apply in_map_iff in Hy. destruct Hy as [b [<- Hb]].
      apply in_insert_desc in Hb. destruct Hb as [->|Hb]; [exact Hge|].
      apply Hmax. now apply in_map.
Qed.

Lemma order_by_desc_descending {A : Type} (key : A -> Z) (l : list A) :
  descending (map key (order_by_desc key l)).
Proof.
  unfold order_by_desc. induction l as [|a l IH]; simpl; [exact I|].
  now apply insert_desc_descending.
Qed.

(** *** [GROUP BY] *)

Lemma sum_zero {A : Type} (f : A -> Z) (l : list A) :
  (forall a, In a l -> f a = 0) -> sum (map f l) = 0.
Proof.
  induction l as [|a l IH]; intros H; [reflexivity|].
  change (sum (map f (a :: l))) with (f a + sum (map f l)).
  rewrite (H a) by (now left). rewrite IH; [reflexivity|].
  intros; apply H; now right.
Qed.

Lemma sum_plus {A : Type} (f g : A -> Z) (l : list A) :
  sum (map (fun a => f a + g a) l) = sum (map f l) + sum (map g l).
Proof.
  induction l as [|a l IH]; [reflexivity|].
  change (sum (map (fun a => f a + g a) (a :: l)))
    with (f a + g a + sum (map (fun a => f a + g a) l)).
  change (sum (map f (a :: l))) with (f a + sum (map f l)).
  change (sum (map g (a :: l))) with (g a + sum (map g l)).
  rewrite IH. lia.
Qed.

Section Groups.
Context {K R : Type}.
Variable dec : forall x y : K, {x = y} + {x <> y}.
Variable key : R -> K.

Lemma one_group (x : R) (ks : list K) :
  NoDup ks -> In (key x) ks ->
  sum (map (fun k => if same_key dec key k x then 1 else 0) ks) = 1.
Proof.
  induction ks as [|k ks IH]; intros Hnd Hin; [destruct Hin|].
  inversion Hnd as [|? ? Hk Hks]. subst.
  change (sum (map (fun k => if same_key dec key k x then 1 else 0) (k :: ks)))
    with ((if same_key dec key k x then 1 else 0)
          + sum (map (fun k => if same_key dec key k x then 1 else 0) ks)).
  unfold same_key at 1. destruct (dec (key x) k) as [E|E].
  - rewrite sum_zero; [reflexivity|].
    intros k' Hk'. unfold same_key. destruct (dec (key x) k'); [|reflexivity].
    exfalso. apply Hk. congruence.
  - destruct Hin as [Hin|Hin]; [congruence|]. rewrite IH by assumption.
    reflexivity.
Qed.

(** The groups partition the rows. *)
Lemma group_sizes (rows : list R) (ks : list K) :
  NoDup ks -> incl (map key rows) ks ->
  sum (map (fun k => Z.of_nat (List.length (filter (same_key dec key k) rows)))
           ks)
  = Z.of_nat (List.length rows).
Proof.
  intros Hnd. induction rows as [|x rows IH]; intros Hincl.
  - apply sum_zero. reflexivity.
  - transitivity
      (sum (map (fun k =>
                   (if same_key dec key k x then 1 else 0)
                   + Z.of_nat (List.length (filter (same_key dec key k) rows)))
                ks)).
    { f_equal. apply map_ext. intros k. cbn [filter].
      destruct (same_key dec key k x); [|lia].
      change (List.length (x :: filter (same_key dec key k) rows))
        with (S (List.length (filter (same_key dec key k) rows))).
      lia. }
    rewrite sum_plus, one_group, IH.
    + change (List.length (x :: rows)) with (S (List.length rows)). lia.
    + intros k Hk. apply Hincl. now right.
    + exact Hnd.
    + apply Hincl. now left.
Qed.

Lemma group_not_empty (rows : list R) (k : K) :
  In k (map key rows) -> filter (same_key dec key k) rows <> [].
Proof.
  intros Hk Hnil. apply in_map_iff in Hk. destruct Hk as [r [E Hr]].
  assert (Hin : In r (filter (same_key dec key k) rows)).
  { apply filter_In. split; [exact Hr|]. unfold same_key.
    destruct (dec (key r) k); [reflexivity | contradiction]. }
  rewrite Hnil in Hin. destruct Hin.
Qed.
End Groups.

Lemma in_by_agent (db : database) (rows : list labeled_row)
      (g : option string * summary) :
  rq1_labeled db = Ok rows ->
  In g (rows_of (by_agent db)) ->
  In (fst g) (map l_agent rows) /\
  exists grp, snd g = summarize grp /\ grp <> [] /\
              (forall r, In r grp -> In r rows /\ l_agent r = fst g).
Proof.
  intros Hrows. unfold by_agent. rewrite Hrows. simpl.
  rewrite in_order_by_desc. intros Hg.
  apply BlockFacts.group_by_In in Hg. destruct Hg as [Hk Hv].
  split; [exact Hk|].
  exists (filter (same_key opt_string_eq_dec l_agent (fst g)) rows).
  split; [exact Hv|]. split; [now apply group_not_empty|].
  intros r Hr. apply filter_In in Hr. destruct Hr as [Hr Hs].
  split; [exact Hr|]. unfold same_key in Hs.
  destruct (opt_string_eq_dec (l_agent r) (fst g)); [assumption|discriminate].
Qed.

(** *** [add_wilson_ci] *)

Lemma add_wilson_ci_rows {A : Type} (k_col n_col : A -> option Z)
      (df : list A) (out : list (A * float * float)) :
  add_wilson_ci k_col n_col df = Some out ->
  map (fun x => fst (fst x)) out = df /\
  forall r lo hi,
    In (r, lo, hi) out ->
    exists k n p,
      k_col r = Some k /\ n_col r = Some n /\
      Wilson.wilson_ci k n Wilson.z_default = Some (p, lo, hi).
Proof.
  revert out. induction df as [|a df IH]; simpl; intros out H.
  - inversion H. split; [reflexivity | intros r lo hi []].
  - destruct (k_col a) as [k|] eqn:Hk; [|discriminate].
    destruct (n_col a) as [n|] eqn:Hn; [|discriminate].
    destruct (Wilson.wilson_ci k n Wilson.z_default) as [[[p lo0] hi0]|]
      eqn:Hw; [|discriminate].
    destruct (add_wilson_ci k_col n_col df) as [out'|]; [|discriminate].
    inversion H. subst out. destruct (IH out' eq_refl) as [Hmap Hrows].
    split; [simpl; now rewrite Hmap|].
    intros r lo hi [E|Hin].
    + inversion E. subst. exists k, n, p. auto.
    + now apply Hrows.
Qed.

Lemma add_wilson_ci_missing {A : Type} (k_col n_col : A -> option Z)
      (df : list A) (r : A) :
  In r df -> k_col r = None \/ n_col r = None ->
  add_wilson_ci k_col n_col df = None.
Proof.
  induction df as [|a df IH]; simpl; intros Hin Hmiss; [destruct Hin|].
  destruct Hin as [->|Hin].
  - destruct Hmiss as [->| ->]; [reflexivity|].
    destruct (k_col r); reflexivity.
  - rewrite (IH Hin Hmiss).
    destruct (k_col a); [|reflexivity].
    destruct (n_col a); [|reflexivity].
    destruct (Wilson.wilson_ci z z0 Wilson.z_default) as [[[p lo] hi]|];
      reflexivity.
Qed.

Lemma wilson_ci_returns (k n : Z) :
  0 <= n -> exists t, Wilson.wilson_ci k n Wilson.z_default = Some t.
Proof.
  intros Hn. destruct (Z.eq_dec n 0) as [->|Hne].
  - eexists. reflexivity.
  - rewrite WilsonFacts.wilson_ci_positive by lia. eauto.
Qed.

Lemma add_wilson_ci_present {A : Type} (k_col n_col : A -> option Z)
      (df : list A) :
  (forall r, In r df ->
             exists k n, k_col r = Some k /\ n_col r = Some n /\ 0 <= n) ->
  exists out, add_wilson_ci k_col n_col df = Some out.
Proof.
  induction df as [|a df IH]; simpl; intros H; [eauto|].
  destruct (H a (or_introl eq_refl)) as [k [n [Hk [Hn Hpos]]]].
  rewrite Hk, Hn. destruct (wilson_ci_returns k n Hpos) as [[[p lo] hi] Hw].
  rewrite Hw. destruct IH as [out Hout]; [intros; apply H; now right|].
  rewrite Hout. eauto.
Qed.

End Rq1SummaryFacts.

Section Rq1Tables.

Import Rq1 Rq1Summary Rq1SummaryFacts.

(** X11.  In every row of [rq1_labeled] the indicators [merged],
    [closed_unmerged] and [open] are 0 or 1 and exactly one of them is 1:
    the one of the row's outcome. *)
Theorem rq1_indicators_partition (db : database) (r : labeled_row) :
  In r (rows_of (rq1_labeled db)) ->
  (l_merged r = 0 \/ l_merged r = 1) /\
  (l_closed_unmerged r = 0 \/ l_closed_unmerged r = 1) /\
  (l_open r = 0 \/ l_open r = 1) /\
  l_merged r + l_closed_unmerged r + l_open r = 1 /\
  (l_merged r = 1 <-> l_outcome r = merged) /\
  (l_closed_unmerged r = 1 <-> l_outcome r = closed_unmerged) /\
  (l_open r = 1 <-> l_outcome r = open).
Proof.
  intros Hr. apply in_rows_of in Hr. destruct Hr as [p [_ Hp]].
  apply label_ok in Hp.
  destruct Hp as [_ [_ [_ [_ [_ [_ [Ho [Hm [Hc Hop]]]]]]]]].
  rewrite Ho, Hm, Hc, Hop.
  unfold Labeler.outcome_of, Labeler.y_merged_of, is_null.
  destruct (try_cast_timestamp (closed_at p)),
           (try_cast_timestamp (merged_at p)); simpl;
    repeat split; auto; intros; try discriminate; try lia.
Qed.

Lemma rq1_indicators_partition_witness :
  (l_merged closed_row = 0 \/ l_merged closed_row = 1) /\
  (l_closed_unmerged closed_row = 0 \/ l_closed_unmerged closed_row = 1) /\
  (l_open closed_row = 0 \/ l_open closed_row = 1) /\
  l_merged closed_row + l_closed_unmerged closed_row + l_open closed_row = 1 /\
  (l_merged closed_row = 1 <-> l_outcome closed_row = merged) /\
  (l_closed_unmerged closed_row = 1
   <-> l_outcome closed_row = closed_unmerged) /\
  (l_open closed_row = 1 <-> l_outcome closed_row = open).
Proof.
  apply (rq1_indicators_partition Scenario.scenario_db closed_row).
  vm_compute. right. left. reflexivity.
Defined.

Lemma rows_of_pull_requests (db : database) :
  ((exists rows, rq1_labeled db = Ok rows)
   <-> forall p s, In p (pull_request db) ->
                   created_at p <> Some (RawBad s) /\
                   closed_at p <> Some (RawBad s) /\
                   merged_at p <> Some (RawBad s)) /\
  (forall rows,
      rq1_labeled db = Ok rows ->
      map l_pr_id rows = map id (pull_request db) /\
      map l_agent rows = map agent (pull_request db) /\
      List.length rows = List.length (pull_request db)).
Proof.
  split.
  - unfold rq1_labeled. rewrite all_ok_succeeds. split.
    + intros H p s Hp. apply (proj1 (label_succeeds p)). now apply H.
    + intros H p Hp. apply label_succeeds. intros s. now apply H.
  - intros rows H.
    assert (Hid : map l_pr_id rows = map id (pull_request db)).
    { apply (all_ok_map _ _ _ _ _ H). intros p r Hp.
      apply label_ok in Hp. tauto. }
    split; [exact Hid|]. split.
    + apply (all_ok_map _ _ _ _ _ H). intros p r Hp.
      apply label_ok in Hp. tauto.
    + rewrite <- (length_map l_pr_id), Hid. apply length_map.
Qed.

(** X12.  [rq1_labeled] succeeds exactly when no [created_at], [closed_at]
    or [merged_at] of any pull request is text that is not a date-time; it
    then has one row per pull request, in order, with its identifier and
    agent. *)
Theorem rq1_labeled_succeeds_iff (db : database) :
  ((exists rows, rq1_labeled db = Ok rows)
   <-> forall p s, In p (pull_request db) ->
                   created_at p <> Some (RawBad s) /\
                   closed_at p <> Some (RawBad s) /\
                   merged_at p <> Some (RawBad s)) /\
  (forall rows,
      rq1_labeled db = Ok rows ->
      map l_pr_id rows = map id (pull_request db) /\
      map l_agent rows = map agent (pull_request db) /\
      List.length rows = List.length (pull_request db)).
Proof.
  exact (rows_of_pull_requests db).
Qed.

Lemma all_ok_In_rev {A B : Type} (f : A -> result B) (l : list A)
      (rows : list B) (a : A) (b : B) :
  all_ok f l = Ok rows -> In a l -> f a = Ok b -> In b rows.
Proof.
  revert rows. induction l as [|x l IH]; simpl; intros rows H Hin Hfa.
  - destruct Hin.
  - destruct (f x) as [bx|s] eqn:Hfx; [|discriminate].
    destruct (all_ok f l) as [bs|s] eqn:Hl; [|discriminate].
    inversion H. subst rows. destruct Hin as [->|Hin].
    + left. congruence.
    + right. now apply (IH bs).
Qed.

(** X13.  When [rq1_labeled] succeeds, every row of [rq2_base] has a row
    there with the same identifier, repository, creation time, outcome and
    merged indicator: on parsable data the two scripts label alike. *)
Theorem rq2_base_agrees_with_rq1
        (db : database) (rows : list labeled_row) (b : Labeler.base_row) :
  rq1_labeled db = Ok rows ->
  In b (Labeler.rq2_base db) ->
  exists r,
    In r rows /\
    l_pr_id r = Labeler.b_pr_id b /\
    l_repo_id r = Labeler.b_repo_id b /\
    l_created_at r = Labeler.b_created_ts b /\
    l_outcome r = Labeler.b_outcome b /\
    l_merged r = Labeler.b_y_merged b.
Proof.
  intros Hrows Hb. apply LabelerFacts.in_rq2_base in Hb.
  destruct Hb as [Hb _]. apply LabelerFacts.in_labeled in Hb.
  destruct Hb as [t [p [_ [Hp [_ [Hid [_ ->]]]]]]].
  destruct (Rq1Facts.all_ok_each _ _ _ _ Hrows Hp) as [r Hr].
  exists r. split; [exact (all_ok_In_rev _ _ _ _ _ Hrows Hp Hr)|].
  apply label_ok in Hr.
  destruct Hr as [H1 [_ [H3 [H4 [_ [_ [H7 [H8 _]]]]]]]]. simpl.
  rewrite H1, H3, H4, H7, H8. repeat split. exact Hid.
Qed.

Lemma rq2_base_agrees_with_rq1_witness :
  let b :=
    Labeler.label
      ((Some 2, Some "B"%string),
       Labeler.pr_of (Scenario.pull 2 (Some "B"%string) (Some (RawTs 0))
                                    (Some (RawTs 50)) None)) in
  exists r,
    In r (rows_of (rq1_labeled Scenario.scenario_db)) /\
    l_pr_id r = Labeler.b_pr_id b /\
    l_repo_id r = Labeler.b_repo_id b /\
    l_created_at r = Labeler.b_created_ts b /\
    l_outcome r = Labeler.b_outcome b /\
    l_merged r = Labeler.b_y_merged b.
Proof.
  apply (rq2_base_agrees_with_rq1 Scenario.scenario_db).
  - reflexivity.
  - vm_compute. right. left. reflexivity.
Defined.

Lemma overall_rows (db : database) (t : list summary) :
  overall db = Ok t ->
  exists s,
    t = [s] /\
    n_total s = Z.of_nat (List.length (pull_request db)) /\
    (pull_request db = [] ->
     n_merged s = None /\ n_closed_unmerged s = None /\ n_open s = None /\
     share_merged s = None /\ share_closed_unmerged s = None /\
     share_open s = None) /\
    (pull_request db <> [] ->
     exists k c o,
       n_merged s = Some k /\ n_closed_unmerged s = Some c /\
       n_open s = Some o /\ k + c + o = n_total s /\
       0 <= k /\ 0 <= c /\ 0 <= o).
Proof.
  unfold overall. destruct (rq1_labeled db) as [rows|e] eqn:Hrows;
    [|discriminate].
  intros H. inversion H. subst t. clear H. exists (summarize rows).
  destruct (proj2 (rows_of_pull_requests db) rows Hrows)
    as [_ [_ Hlen]].
  split; [reflexivity|]. split; [simpl; now rewrite Hlen|]. split.
  - intros Hnil. rewrite Hnil in Hlen. destruct rows; [|discriminate].
    repeat split.
  - intros Hne.
    destruct (summarize_counts rows (rows_partitioned db rows Hrows))
      as [k [c [o Hk]]].
    { intros ->. apply Hne. destruct (pull_request db); [reflexivity|].
      discriminate. }
    exists k, c, o. tauto.
Qed.

(** X14.  [RQ1_OVERALL_SQL] returns one row; [n_total] is the number of
    pull requests.  With at least one pull request the three counts are
    present, not negative, and add up to [n_total]; with none, the counts
    and the shares are null. *)
Theorem overall_counts (db : database) (t : list summary) :
  overall db = Ok t ->
  exists s,
    t = [s] /\
    n_total s = Z.of_nat (List.length (pull_request db)) /\
    (pull_request db = [] ->
     n_merged s = None /\ n_closed_unmerged s = None /\ n_open s = None /\
     share_merged s = None /\ share_closed_unmerged s = None /\
     share_open s = None) /\
    (pull_request db <> [] ->
     exists k c o,
       n_merged s = Some k /\ n_closed_unmerged s = Some c /\
       n_open s = Some o /\ k + c + o = n_total s /\
       0 <= k /\ 0 <= c /\ 0 <= o).
Proof.
  apply overall_rows.
Qed.

Lemma overall_counts_witness :
  exists s,
    [summarize (rows_of (rq1_labeled Scenario.scenario_db))] = [s] /\
    n_total s = Z.of_nat (List.length (pull_request Scenario.scenario_db)) /\
    (pull_request Scenario.scenario_db = [] ->
     n_merged s = None /\ n_closed_unmerged s = None /\ n_open s = None /\
     share_merged s = None /\ share_closed_unmerged s = None /\
     share_open s = None) /\
    (pull_request Scenario.scenario_db <> [] ->
     exists k c o,
       n_merged s = Some k /\ n_closed_unmerged s = Some c /\
       n_open s = Some o /\ k + c + o = n_total s /\
       0 <= k /\ 0 <= c /\ 0 <= o).
Proof.
  apply (overall_counts Scenario.scenario_db). reflexivity.
Defined.

Lemma map_fst_group_by {K R V : Type}
      (dec : forall x y : K, {x = y} + {x <> y})
      (key : R -> K) (agg : list R -> V) (rows : list R) :
  map fst (group_by dec key agg rows) = nodup dec (map key rows).
Proof.
  unfold group_by. rewrite map_map. simpl. apply map_id.
Qed.

(** X15.  [RQ1_BY_AGENT_SQL] returns one row per agent value of
    [pull_request] (null being one of them), ordered by [n_total]
    descending.  Every row counts at least one pull request, its three
    counts are present, not negative and add up to its [n_total], and the
    [n_total] of all rows add up to the number of pull requests. *)
Theorem by_agent_table (db : database) (t : list (option string * summary)) :
  by_agent db = Ok t ->
  NoDup (map fst t) /\
  (forall a, In a (map fst t) <-> In a (map agent (pull_request db))) /\
  descending (map (fun g => n_total (snd g)) t) /\
  sum (map (fun g => n_total (snd g)) t)
  = Z.of_nat (List.length (pull_request db)) /\
  (forall g,
      In g t ->
      exists k c o,
        n_merged (snd g) = Some k /\ n_closed_unmerged (snd g) = Some c /\
        n_open (snd g) = Some o /\ k + c + o = n_total (snd g) /\
        0 <= k /\ 0 <= c /\ 0 <= o /\ 1 <= n_total (snd g)).
Proof.
  intros Ht.
  assert (Hrows : exists rows, rq1_labeled db = Ok rows).
  { unfold by_agent in Ht. destruct (rq1_labeled db); [eauto|discriminate]. }
  destruct Hrows as [rows Hrows].
  assert (Et : t = order_by_desc (fun g => n_total (snd g))
                     (group_by opt_string_eq_dec l_agent summarize rows)).
  { unfold by_agent in Ht. rewrite Hrows in Ht. now inversion Ht. }
  destruct (proj2 (rows_of_pull_requests db) rows Hrows)
    as [_ [Hagent Hlen]].
  assert (Hin : forall a,
             In a (map fst t) <-> In a (map agent (pull_request db))).
  { intros a. rewrite <- Hagent, Et. split.
    - intros H. apply in_map_iff in H. destruct H as [g [<- Hg]].
      apply in_order_by_desc in Hg. apply BlockFacts.group_by_In in Hg.
      tauto.
    - intros H. apply (nodup_In opt_string_eq_dec) in H.
      rewrite <- (map_fst_group_by _ _ summarize) in H.
      apply in_map_iff in H. destruct H as [g [<- Hg]]. apply in_map.
      now apply in_order_by_desc. }
  split; [|split; [exact Hin|split; [|split]]].
  - rewrite Et. apply order_by_desc_NoDup. apply SqlFacts.group_by_keys_NoDup.
  - rewrite Et. apply order_by_desc_descending.
  - rewrite Et, order_by_desc_sum. unfold group_by. rewrite map_map. simpl.
    rewrite <- Hlen. apply group_sizes; [apply NoDup_nodup|].
    intros k Hk. now apply nodup_In.
  - intros g Hg.
    destruct (in_by_agent db rows g Hrows) as [_ [grp [Hs [Hne Hgrp]]]].
    { unfold by_agent in *. rewrite Hrows in *. simpl. now rewrite <- Et. }
    rewrite Hs. apply summarize_counts; [|exact Hne].
    intros r Hr. apply (rows_partitioned db rows Hrows). now apply Hgrp.
Qed.

Lemma by_agent_table_witness :
  let t := rows_of (by_agent Scenario.scenario_db) in
  NoDup (map fst t) /\
  (forall a, In a (map fst t)
             <-> In a (map agent (pull_request Scenario.scenario_db))) /\
  descending (map (fun g => n_total (snd g)) t) /\
  sum (map (fun g => n_total (snd g)) t)
  = Z.of_nat (List.length (pull_request Scenario.scenario_db)) /\
  (forall g,
      In g t ->
      exists k c o,
        n_merged (snd g) = Some k /\ n_closed_unmerged (snd g) = Some c /\
        n_open (snd g) = Some o /\ k + c + o = n_total (snd g) /\
        0 <= k /\ 0 <= c /\ 0 <= o /\ 1 <= n_total (snd g)).
Proof.
  apply (by_agent_table Scenario.scenario_db). reflexivity.
Defined.

(** X16.  On a table whose counts are within the range of exact floats
    ([|k| <= 2^53], [0 <= n <= 2^53]), [add_wilson_ci] keeps the rows of the
    table and their order and adds to each row the two bounds [wilson_ci]
    returns for the row's two counts and the default [z]; it raises when a
    count of some row is missing, and does not raise when every row has
    both counts. *)
Theorem add_wilson_ci_columns
        (A : Type) (k_col n_col : A -> option Z) (df : list A) :
  (forall r, In r df ->
             (forall k, k_col r = Some k -> - 2 ^ 53 <= k <= 2 ^ 53) /\
             (forall n, n_col r = Some n -> 0 <= n <= 2 ^ 53)) ->
  (forall out,
      add_wilson_ci k_col n_col df = Some out ->
      map (fun x => fst (fst x)) out = df /\
      forall r lo hi,
        In (r, lo, hi) out ->
        exists k n p,
          k_col r = Some k /\ n_col r = Some n /\
          Wilson.wilson_ci k n Wilson.z_default = Some (p, lo, hi)) /\
  (forall r, In r df -> k_col r = None \/ n_col r = None ->
             add_wilson_ci k_col n_col df = None) /\
  ((forall r, In r df -> k_col r <> None /\ n_col r <> None) ->
   exists out, add_wilson_ci k_col n_col df = Some out).
Proof.
  intros Hrange. split; [|split].
  - intros out. apply add_wilson_ci_rows.
  - intros r. apply add_wilson_ci_missing.
  - intros Hall. apply add_wilson_ci_present. intros r Hr.
    destruct (Hall r Hr) as [Hk Hn]. destruct (Hrange r Hr) as [_ Hnr].
    destruct (k_col r) as [k|]; [|congruence].
    destruct (n_col r) as [n|] eqn:En; [|congruence].
    exists k, n. split; [reflexivity|]. split; [reflexivity|].
    apply (Hnr n eq_refl).
Qed.

Lemma add_wilson_ci_columns_witness :
  let df := [(Some 3, Some 10); (Some 0, Some 0)] in
  (forall out,
      add_wilson_ci fst snd df = Some out ->
      map (fun x => fst (fst x)) out = df /\
      forall r lo hi,
        In (r, lo, hi) out ->
        exists k n p,
          fst r = Some k /\ snd r = Some n /\
          Wilson.wilson_ci k n Wilson.z_default = Some (p, lo, hi)) /\
  (forall r, In r df -> fst r = None \/ snd r = None ->
             add_wilson_ci fst snd df = None) /\
  ((forall r, In r df -> fst r <> None /\ snd r <> None) ->
   exists out, add_wilson_ci fst snd df = Some out).
Proof.
  apply (add_wilson_ci_columns
           (option Z * option Z) fst snd [(Some 3, Some 10); (Some 0, Some 0)]).
  intros r [<-|[<-|[]]]; simpl; split; intros v E; inversion E; lia.
Defined.

(** X17.  In [main], [add_wilson_ci] never raises on the per-agent table:
    every row gets the bounds of [wilson_ci] for a positive [n_total], so
    the guard for [n = 0] is not reached there.  On the overall table it
    raises exactly when there is no pull request, the count [n_merged]
    being null then. *)
Theorem wilson_columns_in_main (db : database) :
  (forall t,
      by_agent db = Ok t ->
      exists out,
        by_agent_with_ci db = Ok (Some out) /\
        map (fun x => fst (fst x)) out = t /\
        forall g lo hi,
          In (g, lo, hi) out ->
          exists k,
            n_merged (snd g) = Some k /\ 0 < n_total (snd g) /\
            lo = (Wilson.center_of k (n_total (snd g)) Wilson.z_default
                  - Wilson.half_of k (n_total (snd g)) Wilson.z_default)%float
            /\
            hi = (Wilson.center_of k (n_total (snd g)) Wilson.z_default
                  + Wilson.half_of k (n_total (snd g)) Wilson.z_default)%float)
  /\
  (forall t,
      overall db = Ok t ->
      (pull_request db = [] -> overall_with_ci db = Ok None) /\
      (pull_request db <> [] ->
       exists out, overall_with_ci db = Ok (Some out) /\
                   map (fun x => fst (fst x)) out = t)).
Proof.
  split.
  - intros t Ht. unfold by_agent_with_ci. rewrite Ht.
    assert (Hrows : exists rows, rq1_labeled db = Ok rows).
    { unfold by_agent in Ht. destruct (rq1_labeled db); [eauto|discriminate]. }
    destruct Hrows as [rows Hrows].
    assert (Hcounts : forall g, In g t ->
               exists k, n_merged (snd g) = Some k /\ 1 <= n_total (snd g)).
    { intros g Hg.
      destruct (in_by_agent db rows g Hrows) as [_ [grp [Hs [Hne Hgrp]]]].
      { rewrite Ht. exact Hg. }
      destruct (summarize_counts grp) as [k [c [o Hk]]]; [|exact Hne|].
      - intros r Hr. apply (rows_partitioned db rows Hrows). now apply Hgrp.
      - rewrite Hs. exists k. tauto. }
    destruct (add_wilson_ci_present
                (fun g : option string * summary => n_merged (snd g))
                (fun g => Some (n_total (snd g))) t) as [out Hout].
    { intros g Hg. destruct (Hcounts g Hg) as [k [Hk Hn]].
      exists k, (n_total (snd g)). split; [exact Hk|].
      split; [reflexivity | lia]. }
    exists out. split; [now rewrite Hout|].
    destruct (add_wilson_ci_rows _ _ _ _ Hout) as [Hmap Hall].
    split; [exact Hmap|]. intros g lo hi Hin.
    destruct (Hall g lo hi Hin) as [k [n [p [Hk [Hn Hw]]]]].
    inversion Hn. subst n. clear Hn.
    assert (Hg : In g t).
    { rewrite <- Hmap. apply in_map_iff. exists (g, lo, hi). auto. }
    destruct (Hcounts g Hg) as [k' [Hk' Hpos]].
    rewrite WilsonFacts.wilson_ci_positive in Hw by lia.
    inversion Hw. exists k. split; [exact Hk|]. split; [lia|]. auto.
  - intros t Ht. unfold overall_with_ci. rewrite Ht.
    destruct (overall_rows db t Ht) as [s [-> [Htot [Hnil Hne]]]]. split.
    + intros E. destruct (Hnil E) as [Hm _]. simpl. rewrite Hm. reflexivity.
    + intros E. destruct (Hne E) as [k [c [o [Hk _]]]].
      destruct (add_wilson_ci_present n_merged (fun s => Some (n_total s)) [s])
        as [out Hout].
      { intros r [<-|[]]. exists k, (n_total s). split; [exact Hk|].
        split; [reflexivity|]. rewrite Htot. lia. }
      exists out. split; [now rewrite Hout|].
      now apply (add_wilson_ci_rows _ _ _ _ Hout).
Qed.

End Rq1Tables.

(** C1.  Every pull-request record that is labelled, in the base set of
    [build_rq2_features.py] and in [rq1_labeled] of [run_rq1.py] alike, is
    labelled by precedence over its own timestamps: [merged] when its merged
    timestamp is present, else [closed_unmerged] when its closed timestamp
    is present, else [open]; and its merged indicator is 1 exactly when the
    merged timestamp is present (and 0 otherwise).  Every labelled row
    stems from a pull-request record, whose closed and merged times (after
    the cast to [TIMESTAMP]) are the ones the row carries and the ones that
    decide its label.  Conversely every pull-request record attributed to
    an agent has such a row in the base set, and every pull-request record
    has one in [rq1_labeled], in the order of the records. *)
Theorem outcome_label_precedence (db : database) :
  (forall b,
      In b (Labeler.labeled db) ->
      follows_outcome_rule (Labeler.b_closed_ts b) (Labeler.b_merged_ts b)
                           (Labeler.b_outcome b) (Labeler.b_y_merged b) /\
      exists p,
        In p (pull_request db) /\ id p = Labeler.b_pr_id b /\
        Labeler.b_closed_ts b = try_cast_timestamp (closed_at p) /\
        Labeler.b_merged_ts b = try_cast_timestamp (merged_at p) /\
        follows_outcome_rule (try_cast_timestamp (closed_at p))
                             (try_cast_timestamp (merged_at p))
                             (Labeler.b_outcome b) (Labeler.b_y_merged b)) /\
  (forall t p,
      In t (pr_task_type db) -> In p (pull_request db) ->
      tt_agent t <> None -> tt_id t <> None -> id p = tt_id t ->
      exists b,
        In b (Labeler.labeled db) /\
        Labeler.b_pr_id b = id p /\ Labeler.b_agent b = tt_agent t /\
        follows_outcome_rule (try_cast_timestamp (closed_at p))
                             (try_cast_timestamp (merged_at p))
                             (Labeler.b_outcome b) (Labeler.b_y_merged b)) /\
  (forall rows,
      Rq1.rq1_labeled db = Ok rows ->
      (forall r,
          In r rows ->
          follows_outcome_rule (Rq1.l_closed_at r) (Rq1.l_merged_at r)
                               (Rq1.l_outcome r) (Rq1.l_merged r) /\
          exists p,
            In p (pull_request db) /\ Rq1.l_pr_id r = id p /\
            Rq1.l_closed_at r = try_cast_timestamp (closed_at p) /\
            Rq1.l_merged_at r = try_cast_timestamp (merged_at p) /\
            is_not_null (merged_at p) = is_not_null (Rq1.l_merged_at r) /\
            is_not_null (closed_at p) = is_not_null (Rq1.l_closed_at r) /\
            follows_outcome_rule (try_cast_timestamp (closed_at p))
                                 (try_cast_timestamp (merged_at p))
                                 (Rq1.l_outcome r) (Rq1.l_merged r)) /\
      (forall p,
          In p (pull_request db) ->
          exists r,
            In r rows /\ Rq1.l_pr_id r = id p /\
            follows_outcome_rule (try_cast_timestamp (closed_at p))
                                 (try_cast_timestamp (merged_at p))
                                 (Rq1.l_outcome r) (Rq1.l_merged r)) /\
      map Rq1.l_pr_id rows = map id (pull_request db)).
Proof.
  assert (Hrq1 : forall p r,
             Rq1.label p = Ok r ->
             Rq1.l_pr_id r = id p /\
             Rq1.l_closed_at r = try_cast_timestamp (closed_at p) /\
             Rq1.l_merged_at r = try_cast_timestamp (merged_at p) /\
             is_not_null (merged_at p) = is_not_null (Rq1.l_merged_at r) /\
             is_not_null (closed_at p) = is_not_null (Rq1.l_closed_at r) /\
             follows_outcome_rule (try_cast_timestamp (closed_at p))
                                  (try_cast_timestamp (merged_at p))
                                  (Rq1.l_outcome r) (Rq1.l_merged r)).
  { intros p r Hl. pose proof (Rq1SummaryFacts.label_ok p r Hl) as H.
    destruct H as [H1 [_ [_ [_ [H5 [H6 [H7 [H8 _]]]]]]]].
    split; [exact H1|]. split; [exact H5|]. split; [exact H6|].
    rewrite H5, H6, H7, H8. split; [|split].
    - unfold Rq1.label in Hl.
      destruct (cast_timestamp (created_at p)); [|discriminate].
      destruct (cast_timestamp (closed_at p)); [|discriminate].
      destruct (merged_at p) as [[t|s]|]; simpl in *;
        [reflexivity | discriminate | reflexivity].
    - unfold Rq1.label in Hl.
      destruct (cast_timestamp (created_at p)); [|discriminate].
      destruct (closed_at p) as [[t|s]|]; simpl in *;
        [reflexivity | discriminate | reflexivity].
    - apply outcome_of_follows_rule. }
  split; [|split].
  - intros b Hb. apply LabelerFacts.in_labeled in Hb.
    destruct Hb as [t [p [_ [Hp [_ [Hid [_ ->]]]]]]]. simpl.
    split; [apply outcome_of_follows_rule|].
    exists p. split; [exact Hp|]. split; [exact Hid|].
    split; [reflexivity|]. split; [reflexivity|].
    apply outcome_of_follows_rule.
  - intros t p Ht Hp Hag Hnn Hid.
    exists (Labeler.label ((tt_id t, tt_agent t), Labeler.pr_of p)).
    split; [|split; [simpl; now symmetry | split; [reflexivity|]]].
    + unfold Labeler.labeled. apply in_map. unfold inner_join.
      apply in_flat_map. exists (tt_id t, tt_agent t). split.
      * unfold Labeler.agentic. apply nodup_In.
        apply (in_map (fun t => (tt_id t, tt_agent t))).
        apply filter_In. split; [exact Ht|].
        destruct (tt_agent t); [reflexivity | congruence].
      * apply in_map. apply filter_In. split.
        -- unfold Labeler.pr. now apply in_map.
        -- simpl. rewrite Hid.
           destruct (tt_id t); [apply SqlFacts.sql_eq_Z_refl | congruence].
    + simpl. apply outcome_of_follows_rule.
  - intros rows Hok. split; [|split].
    + intros r Hr.
      destruct (LabelerFacts.all_ok_In _ _ _ _ Hok Hr) as [p [Hp Hl]].
      destruct (Hrq1 p r Hl) as [H1 [H2 [H3 [H4 [H5 H6]]]]].
      split; [rewrite H2, H3; exact H6|].
      exists p. auto 10.
    + intros p Hp. destruct (Rq1Facts.all_ok_each _ _ _ _ Hok Hp) as [r Hl].
      exists r. split; [exact (all_ok_In_rev _ _ _ _ _ Hok Hp Hl)|].
      destruct (Hrq1 p r Hl) as [H1 [_ [_ [_ [_ H6]]]]]. auto.
    + apply (Rq1SummaryFacts.all_ok_map _ _ _ _ _ Hok).
      intros p r Hl. apply (Hrq1 p r Hl).
Qed.

(* ================================================================== *)
(** ** Binding the parquet files *)

Module ViewsFacts.

Import Views.

(** The loop of [bind_views] binds every table, or stops at the first one
    whose file is missing. *)
Lemma bind_each_spec (d : data_dir) (tables bound : list string) :
  match bind_each d tables bound with
  | Bound vs => vs = bound ++ tables /\ forall t, In t tables -> d t = true
  | Missing t =>
      exists pre post,
        tables = pre ++ t :: post /\ d t = false /\
        forall x, In x pre -> d x = true
  end.
Proof.
  revert bound. induction tables as [|t tables IH]; intros bound; simpl.
  - split; [now rewrite app_nil_r | intros t []].
  - destruct (d t) eqn:Hd.
    + specialize (IH (bound ++ [t])).
      destruct (bind_each d tables (bound ++ [t])) as [vs|m].
      * destruct IH as [-> Hall]. split; [now rewrite <- app_assoc|].
        intros x [<-|Hx]; auto.
      * destruct IH as [pre [post [-> [Hm Hpre]]]].
        exists (t :: pre), post. split; [reflexivity|]. split; [exact Hm|].
        intros x [<-|Hx]; auto.
    + exists [], tables. split; [reflexivity|]. split; [exact Hd|].
      intros x [].
Qed.

End ViewsFacts.

Lemma bind_views_outcomes (d : Views.data_dir) :
  ((forall t, In t Views.required_rq2 -> d t = true)
   <-> Views.bind_views d = Views.Bound Views.required_rq2) /\
  (forall vs, Views.bind_views d = Views.Bound vs ->
              vs = Views.required_rq2) /\
  (forall t,
      Views.bind_views d = Views.Missing t ->
      exists pre post,
        Views.required_rq2 = pre ++ t :: post /\ d t = false /\
        forall x, In x pre -> d x = true).
Proof.
  unfold Views.bind_views.
  pose proof (ViewsFacts.bind_each_spec d Views.required_rq2 []) as H.
  destruct (Views.bind_each d Views.required_rq2 []) as [vs|m].
  - destruct H as [-> Hall]. split; [|split].
    + split; [reflexivity | intros _; exact Hall].
    + intros vs E. now inversion E.
    + discriminate.
  - destruct H as [pre [post [E [Hm Hpre]]]]. split; [|split].
    + split; [|discriminate]. intros Hall. exfalso.
      assert (Hin : In m Views.required_rq2)
        by (rewrite E; apply in_or_app; right; now left).
      rewrite (Hall m Hin) in Hm. discriminate.
    + discriminate.
    + intros t Et. inversion Et. subst t. eauto.
Qed.

(** X18.  [bind_views] succeeds exactly when the files of all eight
    required tables exist, and then binds these eight, in order; otherwise
    it fails on the first required table whose file is missing, all tables
    before it having a file. *)
Theorem bind_views_all_or_first_missing (d : Views.data_dir) :
  ((forall t, In t Views.required_rq2 -> d t = true)
   <-> Views.bind_views d = Views.Bound Views.required_rq2) /\
  (forall vs, Views.bind_views d = Views.Bound vs ->
              vs = Views.required_rq2) /\
  (forall t,
      Views.bind_views d = Views.Missing t ->
      exists pre post,
        Views.required_rq2 = pre ++ t :: post /\ d t = false /\
        forall x, In x pre -> d x = true).
Proof.
  apply bind_views_outcomes.
Qed.

(** X19.  [create_views_from_parquet] fails exactly when
    [pull_request.parquet] is missing; otherwise it binds, once each, the
    candidate tables whose file exists, [pull_request] among them.  Where
    [bind_views] succeeds it succeeds too and binds at least the same
    tables. *)
Theorem create_views_binds_existing_candidates (d : Views.data_dir) :
  (d "pull_request"%string = false
   <-> Views.create_views_from_parquet d
       = Views.Missing "pull_request"%string) /\
  (forall t, Views.create_views_from_parquet d = Views.Missing t ->
             t = "pull_request"%string) /\
  (forall vs,
      Views.create_views_from_parquet d = Views.Bound vs ->
      In "pull_request"%string vs /\ NoDup vs /\
      forall t, In t vs <-> In t Views.candidates /\ d t = true) /\
  (forall vs,
      Views.bind_views d = Views.Bound vs ->
      exists ws, Views.create_views_from_parquet d = Views.Bound ws /\
                 incl vs ws).
Proof.
  assert (Hnd : NoDup Views.candidates).
  { replace Views.candidates with (nodup string_dec Views.candidates)
      by (vm_compute; reflexivity).
    apply NoDup_nodup. }
  assert (Hcase : (d "pull_request"%string = false /\
                   Views.create_views_from_parquet d
                   = Views.Missing "pull_request"%string) \/
                  (d "pull_request"%string = true /\
                   Views.create_views_from_parquet d
                   = Views.Bound (filter d Views.candidates))).
  { unfold Views.create_views_from_parquet, Views.required_rq1. simpl find.
    destruct (d "pull_request"%string); simpl; auto. }
  assert (Hbound : forall vs,
             Views.create_views_from_parquet d = Views.Bound vs ->
             In "pull_request"%string vs /\ NoDup vs /\
             forall t, In t vs <-> In t Views.candidates /\ d t = true).
  { intros vs E. destruct Hcase as [[_ Hc]|[Hd Hc]]; rewrite Hc in E;
      [discriminate|].
    assert (Evs : vs = filter d Views.candidates) by congruence.
    subst vs. clear E. split; [|split].
    - apply filter_In. split; [now left | exact Hd].
    - now apply NoDup_filter.
    - intros t. apply filter_In. }
  split; [|split; [|split; [exact Hbound|]]].
  - destruct Hcase as [[Hd Hc]|[Hd Hc]]; rewrite Hc, Hd; split;
      intros; try reflexivity; discriminate.
  - intros t E. destruct Hcase as [[_ Hc]|[_ Hc]]; rewrite Hc in E;
      congruence.
  - intros vs E.
    destruct (bind_views_outcomes d) as [Hall [Hvs _]].
    pose proof (Hvs vs E) as ->. rewrite <- E in Hall.
    assert (Hreq : forall t, In t Views.required_rq2 -> d t = true).
    { apply Hall. rewrite E. reflexivity. }
    destruct Hcase as [[Hd _]|[_ Hc]].
    + rewrite (Hreq "pull_request"%string) in Hd by (now left).
      discriminate.
    + exists (filter d Views.candidates). split; [exact Hc|].
      intros t Ht. apply filter_In. split; [|now apply Hreq].
      simpl in Ht. unfold Views.candidates. simpl. intuition auto.
Qed.

(* ================================================================== *)
(** ** The Wilson interval in exact arithmetic *)

Module WilsonExactFacts.

Import Wilson.
Local Open Scope R_scope.





End WilsonExactFacts.









(** X22.  In the table of [tidy_or_table], for a fit whose standard errors
    come one per coefficient, a row with a non-negative standard error has
    [0 <= CI_low <= OR <= CI_high] (binary64 can round [CI_low] to 0, so no
    more is said of its sign); the columns [OR], [CI_low] and [CI_high]
    have one entry per coefficient. *)
Theorem odds_ratio_interval_ordered (res : Inference.fit_result) (i : nat) :
  List.length (Inference.bse res) = List.length (Inference.params res) ->
  (i < List.length (Inference.params res))%nat ->
  (0 <= nth i (Inference.bse res) 0)%R ->
  (0 <= nth i (Inference.CI_low (Inference.tidy_or_table res)) 0
   <= nth i (Inference.OR (Inference.tidy_or_table res)) 0)%R /\
  (nth i (Inference.OR (Inference.tidy_or_table res)) 0
   <= nth i (Inference.CI_high (Inference.tidy_or_table res)) 0)%R /\
  List.length (Inference.OR (Inference.tidy_or_table res))
  = List.length (Inference.params res) /\
  List.length (Inference.CI_low (Inference.tidy_or_table res))
  = List.length (Inference.params res) /\
  List.length (Inference.CI_high (Inference.tidy_or_table res))
  = List.length (Inference.params res).
Proof.
  intros Hlen Hi Hse.
  destruct (InferenceFacts.tidy_or_table_rows res i Hlen Hi)
    as [_ [Ho [Hl Hh]]].
  rewrite Ho, Hl, Hh.
  assert (Hmono : forall x y : R, (x <= y)%R -> (exp x <= exp y)%R).
  { intros x y [H| ->]; [left; now apply exp_increasing | apply Rle_refl]. }
  assert (Hlen' : List.length (map (Rmult 1.96%R) (Inference.bse res))
                  = List.length (Inference.params res))
    by (now rewrite length_map).
  split; [split|split; [|split; [|split]]].
  - apply Rlt_le, exp_pos.
  - apply Hmono. lra.
  - apply Hmono. lra.
  - simpl. apply length_map.
  - simpl. rewrite length_map. now apply InferenceFacts.map2_length.
  - simpl. rewrite length_map. now apply InferenceFacts.map2_length.
Qed.

Lemma odds_ratio_interval_ordered_witness :
  let res := Scenario.sample_fit in
  (0 <= nth 1 (Inference.CI_low (Inference.tidy_or_table res)) 0
   <= nth 1 (Inference.OR (Inference.tidy_or_table res)) 0)%R /\
  (nth 1 (Inference.OR (Inference.tidy_or_table res)) 0
   <= nth 1 (Inference.CI_high (Inference.tidy_or_table res)) 0)%R /\
  List.length (Inference.OR (Inference.tidy_or_table res))
  = List.length (Inference.params res) /\
  List.length (Inference.CI_low (Inference.tidy_or_table res))
  = List.length (Inference.params res) /\
  List.length (Inference.CI_high (Inference.tidy_or_table res))
  = List.length (Inference.params res).
Proof.
  apply (odds_ratio_interval_ordered Scenario.sample_fit 1%nat).
  - reflexivity.
  - simpl. lia.
  - simpl. lra.
Defined.

(* ================================================================== *)
(** ** Time to decision and the exploratory reverts *)

Module TableFacts.

Import Rq1 Rq1Summary Rq1SummaryFacts SqlFacts.

Lemma filter_map_swap {A B : Type} (F : A -> B) (P : B -> bool) (l : list A) :
  filter P (map F l) = map F (filter (fun x => P (F x)) l).
Proof.
  induction l as [|a l IH]; simpl; [reflexivity|].
  destruct (P (F a)); simpl; now rewrite IH.
Qed.

Lemma filter_filter_and {A : Type} (P Q : A -> bool) (l : list A) :
  filter P (filter Q l) = filter (fun x => Q x && P x) l.
Proof.
  induction l as [|a l IH]; simpl; [reflexivity|].
  destruct (Q a); simpl; [destruct (P a); simpl; now rewrite IH | exact IH].
Qed.

Lemma all_ok_filter_length {A B : Type} (f : A -> result B)
      (P : B -> bool) (Q : A -> bool) (l : list A) (rows : list B) :
  all_ok f l = Ok rows ->
  (forall a b, f a = Ok b -> P b = Q a) ->
  List.length (filter P rows) = List.length (filter Q l).
Proof.
  intros H HPQ. revert rows H.
  induction l as [|a l IH]; simpl; intros rows H.
  - inversion H. reflexivity.
  - destruct (f a) as [b|s] eqn:Hfa; [|discriminate].
    destruct (all_ok f l) as [bs|s] eqn:Hl; [|discriminate].
    inversion H. subst rows. simpl. rewrite (HPQ a b Hfa).
    destruct (Q a); simpl; now rewrite (IH bs).
Qed.

Lemma sum_indicator {A : Type} (c : A -> bool) (l : list A) :
  sum (map (fun a => if c a then 1 else 0) l)
  = Z.of_nat (List.length (filter c l)).
Proof.
  induction l as [|a l IH]; [reflexivity|].
  change (sum (map (fun a => if c a then 1 else 0) (a :: l)))
    with ((if c a then 1 else 0)
          + sum (map (fun a => if c a then 1 else 0) l)).
  rewrite IH. cbn [filter]. destruct (c a); [|lia].
  change (List.length (a :: filter c l)) with (S (List.length (filter c l))).
  lia.
Qed.

Lemma filter_not_empty {A : Type} (c : A -> bool) (l : list A) :
  filter c l <> [] <-> exists a, In a l /\ c a = true.
Proof.
  split.
  - destruct (filter c l) as [|a m] eqn:E; [congruence|]. intros _.
    exists a. apply filter_In. rewrite E. now left.
  - intros [a Ha] E. apply filter_In in Ha. rewrite E in Ha. destruct Ha.
Qed.

(** A left join whose right side matches each left row at most once pairs
    each left row with its match, if any. *)
Lemma left_join_lookup {A B : Type} (on : A -> B -> bool)
      (l : list A) (r : list B) :
  (forall a, In a l -> (List.length (filter (on a) r) <= 1)%nat) ->
  left_join l r on = map (fun a => (a, hd_error (filter (on a) r))) l.
Proof.
  induction l as [|a l IH]; simpl; intros H; [reflexivity|].
  rewrite IH by (intros; apply H; now right).
  specialize (H a (or_introl eq_refl)).
  destruct (filter (on a) r) as [|b [|b' m]]; simpl in *;
    [reflexivity | reflexivity | lia].
Qed.

(** *** Time to decision *)

Lemma decided_pointwise (a : option string) (p : pull_request_row)
      (r : labeled_row) :
  Rq1.label p = Ok r ->
  Labeler.resolved (l_outcome r)
  && (Decision.timed (Decision.resolved_of r)
      && same_key opt_string_eq_dec Decision.d_agent a
                  (Decision.resolved_of r))
  = Decision.decided_with_creation a p.
Proof.
  intros H. apply label_ok in H.
  destruct H as [_ [Hag [_ [Hcr [Hcl [Hme [Ho _]]]]]]].
  unfold Decision.timed, Decision.decided_with_creation, same_key.
  simpl. rewrite Ho, Hag, Hcr, Hcl, Hme. unfold Labeler.outcome_of.
  destruct (opt_string_eq_dec (agent p) a);
    destruct (try_cast_timestamp (created_at p));
    destruct (try_cast_timestamp (merged_at p));
    destruct (try_cast_timestamp (closed_at p)); reflexivity.
Qed.

Lemma decision_group_size (db : database) (rows : list labeled_row)
      (a : option string) :
  rq1_labeled db = Ok rows ->
  List.length
    (filter (same_key opt_string_eq_dec Decision.d_agent a)
            (filter Decision.timed (Decision.resolved rows)))
  = List.length (filter (Decision.decided_with_creation a) (pull_request db)).
Proof.
  intros Hrows. unfold Decision.resolved.
  rewrite filter_filter_and, filter_map_swap, length_map, filter_filter_and.
  apply (all_ok_filter_length Rq1.label _ _ _ _ Hrows).
  intros p r Hp. now apply decided_pointwise.
Qed.

(** *** Reverts *)

Lemma in_reverted (v : Reverts.revert_views) (x : option Z) :
  In x (Reverts.reverted (Reverts.parts v))
  <-> In x (List.concat (Reverts.present v)).
Proof.
  unfold Reverts.reverted, Reverts.parts. rewrite nodup_In, !in_concat.
  split.
  - intros [l [Hl Hx]]. apply in_map_iff in Hl. destruct Hl as [l0 [<- Hl0]].
    apply nodup_In in Hx. eauto.
  - intros [l [Hl Hx]]. exists (nodup opt_Z_eq_dec l). split.
    + now apply in_map.
    + now apply nodup_In.
Qed.

Lemma signal_lookup (v : Reverts.revert_views) (r : labeled_row) :
  Reverts.signal
    (hd_error (filter (fun x => sql_eq Z.eqb x (l_pr_id r))
                      (Reverts.reverted (Reverts.parts v))))
  = if Reverts.has_signal v r then 1 else 0.
Proof.
  unfold Reverts.has_signal.
  destruct (filter (fun x => sql_eq Z.eqb x (l_pr_id r))
                   (Reverts.reverted (Reverts.parts v))) as [|x m] eqn:E.
  - simpl.
    destruct (existsb (fun x => sql_eq Z.eqb x (l_pr_id r))
                      (List.concat (Reverts.present v))) eqn:Hex;
      [|reflexivity].
    exfalso. apply existsb_exists in Hex. destruct Hex as [x [Hx Hon]].
    assert (Hin : In x (filter (fun x => sql_eq Z.eqb x (l_pr_id r))
                               (Reverts.reverted (Reverts.parts v)))).
    { apply filter_In. split; [now apply in_reverted | exact Hon]. }
    rewrite E in Hin. destruct Hin.
  - assert (Hin : In x (filter (fun x => sql_eq Z.eqb x (l_pr_id r))
                               (Reverts.reverted (Reverts.parts v))))
      by (rewrite E; now left).
    apply filter_In in Hin. destruct Hin as [Hx Hon].
    assert (Hex : existsb (fun x => sql_eq Z.eqb x (l_pr_id r))
                          (List.concat (Reverts.present v)) = true).
    { apply existsb_exists. exists x. split; [now apply in_reverted|].
      exact Hon. }
    rewrite Hex. simpl. apply sql_eq_Z_true in Hon.
    destruct x as [i|]; [reflexivity | destruct Hon; congruence].
Qed.

Lemma reverted_matches_once (v : Reverts.revert_views) (k : option Z) :
  (List.length (filter (fun x => sql_eq Z.eqb x k)
                       (Reverts.reverted (Reverts.parts v))) <= 1)%nat.
Proof.
  apply filter_unique_key with (key := fun x : option Z => x) (k := k).
  - rewrite map_id. apply NoDup_nodup.
  - intros b Hb. apply sql_eq_Z_true in Hb. tauto.
Qed.

Lemma no_parts (v : Reverts.revert_views) :
  Reverts.parts v = []
  <-> Reverts.first_revert v = None /\ Reverts.comment_revert v = None /\
      Reverts.tl_revert v = None.
Proof.
  unfold Reverts.parts, Reverts.present.
  destruct (Reverts.first_revert v), (Reverts.comment_revert v),
           (Reverts.tl_revert v); simpl; split; intros H;
    try discriminate; try tauto; intuition discriminate.
Qed.

(** The rows of one agent in the table of the exploratory summary. *)
Lemma revert_group (v : Reverts.revert_views) (rows : list labeled_row)
      (g : option string * Reverts.revert_summary) :
  In g (group_by opt_string_eq_dec
                 (fun x : labeled_row * option (option Z) => l_agent (fst x))
                 Reverts.summarize_reverts
                 (left_join (Reverts.merged_pr rows)
                            (Reverts.reverted (Reverts.parts v))
                            (fun m r => sql_eq Z.eqb r (l_pr_id m)))) ->
  Reverts.rs_n_merged (snd g)
  = Z.of_nat (List.length
                (filter (fun r => Reverts.is_merged r
                                  && Reverts.agent_is (fst g) r) rows)) /\
  1 <= Reverts.rs_n_merged (snd g) /\
  Reverts.n_with_revert_signal (snd g)
  = Some (Z.of_nat
            (List.length
               (filter (fun r => Reverts.is_merged r
                                 && Reverts.agent_is (fst g) r
                                 && Reverts.has_signal v r) rows))).
Proof.
  rewrite left_join_lookup by (intros; apply reverted_matches_once).
  intros Hg. apply BlockFacts.group_by_In in Hg. destruct Hg as [Hk Hv].
  pose proof (group_not_empty opt_string_eq_dec _ _ _ Hk) as Hne.
  rewrite filter_map_swap in Hv, Hne.
  change (fun x : labeled_row =>
            same_key opt_string_eq_dec
                     (fun x0 : labeled_row * option (option Z) =>
                        l_agent (fst x0)) (fst g)
                     (x, hd_error
                           (filter (fun r => sql_eq Z.eqb r (l_pr_id x))
                                   (Reverts.reverted (Reverts.parts v)))))
    with (Reverts.agent_is (fst g)) in Hv, Hne.
  unfold Reverts.merged_pr in Hv, Hne. rewrite filter_filter_and in Hv, Hne.
  set (G := filter (fun x => Reverts.is_merged x && Reverts.agent_is (fst g) x)
                   rows) in *.
  rewrite Hv. unfold Reverts.summarize_reverts.
  cbn [Reverts.rs_n_merged Reverts.n_with_revert_signal].
  rewrite !length_map, map_map. cbn [snd].
  assert (HG : G <> []) by (intros E; apply Hne; rewrite E; reflexivity).
  split; [reflexivity|]. split.
  - destruct G; [congruence|]. simpl List.length. lia.
  - rewrite (map_ext _ (fun r => if Reverts.has_signal v r then 1 else 0))
      by (intros r; apply signal_lookup).
    unfold Extractors.sql_sum.
    destruct (map (fun r => if Reverts.has_signal v r then 1 else 0) G)
      as [|z zs] eqn:E.
    { destruct G; [congruence | discriminate E]. }
    rewrite <- E, sum_indicator. unfold G. now rewrite filter_filter_and.
Qed.

(** The agents of the joined rows are those of the merged pull requests. *)
Lemma revert_agents (v : Reverts.revert_views) (rows : list labeled_row)
      (a : option string) :
  In a (map (fun x : labeled_row * option (option Z) => l_agent (fst x))
            (left_join (Reverts.merged_pr rows)
                       (Reverts.reverted (Reverts.parts v))
                       (fun m r => sql_eq Z.eqb r (l_pr_id m))))
  <-> exists r, In r rows /\ Reverts.is_merged r = true /\ l_agent r = a.
Proof.
  rewrite left_join_lookup by (intros; apply reverted_matches_once).
  rewrite map_map. simpl. unfold Reverts.merged_pr. rewrite in_map_iff.
  split.
  - intros [r [E Hr]]. apply filter_In in Hr. exists r. tauto.
  - intros [r [Hr [Hm E]]]. exists r. split; [exact E|].
    apply filter_In. tauto.
Qed.

End TableFacts.

Section DecisionAndReverts.

Import Rq1 Rq1Summary Rq1SummaryFacts TableFacts.

(** X23.  [RQ1_TIME_TO_DECISION_SQL] returns one row per agent that has a
    closed or merged pull request with a creation time, ordered by
    [n_resolved] descending; [n_resolved] is the number of these pull
    requests.  A resolved pull request always has a decision time, so only a
    missing creation time leaves one out. *)
Theorem time_to_decision_table
        (percentile_cont_half : list Z -> option float) (db : database)
        (t : list (option string * Decision.decision_summary)) :
  Decision.time_to_decision percentile_cont_half db = Ok t ->
  NoDup (map fst t) /\
  descending (map (fun g => Decision.n_resolved (snd g)) t) /\
  (forall g,
      In g t ->
      1 <= Decision.n_resolved (snd g) /\
      Decision.n_resolved (snd g)
      = Z.of_nat
          (List.length (filter (Decision.decided_with_creation (fst g))
                               (pull_request db)))) /\
  (forall a,
      In a (map fst t)
      <-> exists p, In p (pull_request db) /\
                    Decision.decided_with_creation a p = true).
Proof.
  intros Ht. unfold Decision.time_to_decision in Ht.
  destruct (rq1_labeled db) as [rows|e] eqn:Hrows; [|discriminate].
  injection Ht as Et.
  set (L := filter Decision.timed (Decision.resolved rows)) in *.
  assert (Hgroup : forall g,
             In g t ->
             In (fst g) (map Decision.d_agent L) /\
             Decision.n_resolved (snd g)
             = Z.of_nat
                 (List.length
                    (filter (Decision.decided_with_creation (fst g))
                            (pull_request db)))).
  { intros g Hg. rewrite <- Et in Hg. apply in_order_by_desc in Hg.
    apply BlockFacts.group_by_In in Hg. destruct Hg as [Hk Hv].
    split; [exact Hk|]. rewrite Hv. simpl. f_equal.
    now apply decision_group_size. }
  assert (Hkeys : forall a,
             In a (map Decision.d_agent L)
             <-> exists p, In p (pull_request db) /\
                           Decision.decided_with_creation a p = true).
  { intros a. rewrite <- filter_not_empty.
    rewrite <- (length_zero_iff_nil
                  (filter (Decision.decided_with_creation a)
                          (pull_request db))).
    rewrite <- (decision_group_size db rows a Hrows).
    rewrite length_zero_iff_nil. fold L. split.
    - intros Ha. now apply group_not_empty.
    - intros Hne. apply filter_not_empty in Hne.
      destruct Hne as [d [Hd Hs]]. unfold same_key in Hs.
      destruct (opt_string_eq_dec (Decision.d_agent d) a) as [<-|];
        [now apply in_map | discriminate]. }
  split; [|split; [|split]].
  - rewrite <- Et. apply order_by_desc_NoDup.
    apply SqlFacts.group_by_keys_NoDup.
  - rewrite <- Et. apply order_by_desc_descending.
  - intros g Hg. destruct (Hgroup g Hg) as [Hk Hn]. split; [|exact Hn].
    rewrite Hn. apply Hkeys in Hk. apply filter_not_empty in Hk.
    destruct (filter (Decision.decided_with_creation (fst g))
                     (pull_request db)); [congruence|].
    simpl List.length. lia.
  - intros a. rewrite <- Hkeys, <- Et. split.
    + intros H. apply in_map_iff in H. destruct H as [g [<- Hg]].
      apply in_order_by_desc in Hg. apply BlockFacts.group_by_In in Hg.
      tauto.
    + intros H. apply (nodup_In opt_string_eq_dec) in H.
      rewrite <- (map_fst_group_by
                    _ _ (Decision.summarize_decisions percentile_cont_half))
        in H.
      apply in_map_iff in H. destruct H as [g [<- Hg]]. apply in_map.
      now apply in_order_by_desc.
Qed.

Lemma time_to_decision_table_witness :
  let t := rows_of (Decision.time_to_decision (fun _ => None)
                                              Scenario.scenario_db) in
  NoDup (map fst t) /\
  descending (map (fun g => Decision.n_resolved (snd g)) t) /\
  (forall g,
      In g t ->
      1 <= Decision.n_resolved (snd g) /\
      Decision.n_resolved (snd g)
      = Z.of_nat
          (List.length (filter (Decision.decided_with_creation (fst g))
                               (pull_request Scenario.scenario_db)))) /\
  (forall a,
      In a (map fst t)
      <-> exists p, In p (pull_request Scenario.scenario_db) /\
                    Decision.decided_with_creation a p = true).
Proof.
  apply (time_to_decision_table (fun _ => None) Scenario.scenario_db).
  reflexivity.
Defined.

(** X24.  [compute_reverts_exploratory] returns the note exactly when none
    of the three revert views exists.  Otherwise it returns one row per agent
    with a merged pull request (an agent has a row exactly when it has one),
    ordered by [n_merged] descending: [n_merged] counts the merged pull
    requests of the agent once each, however often the revert views list an
    identifier, so that the [n_merged] of all rows add up to the number of
    merged pull requests, and [n_with_revert_signal] counts those among them
    whose identifier some existing revert view lists. *)
Theorem revert_signal_counts
        (v : Reverts.revert_views) (rows : list labeled_row) :
  (Reverts.compute_reverts_exploratory v rows = Reverts.Note
   <-> Reverts.first_revert v = None /\ Reverts.comment_revert v = None /\
       Reverts.tl_revert v = None) /\
  (forall t,
      Reverts.compute_reverts_exploratory v rows = Reverts.Table t ->
      NoDup (map fst t) /\
      descending (map (fun g => Reverts.rs_n_merged (snd g)) t) /\
      (forall a,
          In a (map fst t)
          <-> exists r, In r rows /\ Reverts.is_merged r = true /\
                        l_agent r = a) /\
      sum (map (fun g => Reverts.rs_n_merged (snd g)) t)
      = Z.of_nat (List.length (filter Reverts.is_merged rows)) /\
      forall g,
        In g t ->
        Reverts.rs_n_merged (snd g)
        = Z.of_nat (List.length
                      (filter (fun r => Reverts.is_merged r
                                        && Reverts.agent_is (fst g) r)
                              rows)) /\
        1 <= Reverts.rs_n_merged (snd g) /\
        Reverts.n_with_revert_signal (snd g)
        = Some (Z.of_nat
                  (List.length
                     (filter (fun r => Reverts.is_merged r
                                       && Reverts.agent_is (fst g) r
                                       && Reverts.has_signal v r) rows)))).
Proof.
  split.
  - rewrite <- no_parts. unfold Reverts.compute_reverts_exploratory.
    destruct (Reverts.parts v); split; intros H;
      try reflexivity; discriminate.
  - intros t Ht. unfold Reverts.compute_reverts_exploratory in Ht.
    destruct (Reverts.parts v) as [|q qs] eqn:Hparts; [discriminate|].
    rewrite <- Hparts in Ht. injection Ht as Et. rewrite <- Et.
    split; [|split; [|split; [|split]]].
    + apply order_by_desc_NoDup. apply SqlFacts.group_by_keys_NoDup.
    + apply order_by_desc_descending.
    + intros a. etransitivity; [|apply (revert_agents v rows a)]. split.
      * intros H. apply in_map_iff in H. destruct H as [g [<- Hg]].
        apply in_order_by_desc in Hg. apply BlockFacts.group_by_In in Hg.
        tauto.
      * intros H. apply (nodup_In opt_string_eq_dec) in H.
        rewrite <- (map_fst_group_by _ _ Reverts.summarize_reverts) in H.
        apply in_map_iff in H. destruct H as [g [<- Hg]]. apply in_map.
        now apply in_order_by_desc.
    + rewrite order_by_desc_sum. unfold group_by. rewrite map_map. simpl.
      rewrite group_sizes;
        [|apply NoDup_nodup | intros k Hk; now apply nodup_In].
      rewrite left_join_lookup by (intros; apply reverted_matches_once).
      rewrite length_map. reflexivity.
    + intros g Hg. apply in_order_by_desc in Hg. now apply revert_group.
Qed.

Lemma revert_signal_counts_witness :
  exists t,
    Reverts.compute_reverts_exploratory
      Reverts.sample_views (rows_of (rq1_labeled Scenario.scenario_db))
    = Reverts.Table t /\
    List.length t = 2%nat /\
    (exists s, In (Some "A"%string, s) t /\ Reverts.rs_n_merged s = 1 /\
               Reverts.n_with_revert_signal s = Some 1) /\
    (exists s, In (None, s) t /\ Reverts.rs_n_merged s = 1 /\
               Reverts.n_with_revert_signal s = Some 0) /\
    NoDup (map fst t) /\
    sum (map (fun g => Reverts.rs_n_merged (snd g)) t)
    = Z.of_nat (List.length
                  (filter Reverts.is_merged
                          (rows_of (rq1_labeled Scenario.scenario_db)))).
Proof.
  destruct (revert_signal_counts
              Reverts.sample_views
              (rows_of (rq1_labeled Scenario.scenario_db))) as [_ H].
  eexists. split; [vm_compute; reflexivity|].
  split; [reflexivity|].
  split; [eexists; split; [right; left; reflexivity | split; reflexivity]|].
  split; [eexists; split; [left; reflexivity | split; reflexivity]|].
  match goal with
  | |- NoDup (map fst ?t) /\ _ =>
      destruct (H t) as [Hnd [_ [_ [Hsum _]]]];
        [vm_compute; reflexivity | split; [exact Hnd | exact Hsum]]
  end.
Defined.

End DecisionAndReverts.
